(** * Browser-extension automation: the Sandbox engine of [automation.py]

    A shallow embedding of [src/automation.py] (and of the parts that
    [src/spa_automation.py] shares with it word for word): the helper
    functions [unique] and [read_array], the [Sandbox] flows and probes
    and the runner [Test.run].

    Conventions of the embedding.
    - A Python [str] is a [string]; its characters stand for the code
      points below 256.
    - The remote browser (Playwright), the clock, the terminal input and
      the event loop are an external [Driver]: every request made to it
      is a [call], answered by a value or by a raised exception, and the
      run records requests and console lines in one ordered trace.
    - [async] methods are sequential computations in the monad [M]
      (state, exceptions, trace); every [await] is a bind. *)

From stdpp Require Import gmap strings list pretty.
From Stdlib Require Import ZArith Ascii String.

Local Open Scope string_scope.
Local Open Scope list_scope.

(** ** Python string methods used by the program *)

Module Py.

(** [s] without the prefix [pre], when it starts with it. *)
Fixpoint strip_prefix (pre s : string) : option string :=
  match pre, s with
  | EmptyString, _ => Some s
  | String a pre', String b s' =>
      if Ascii.eqb a b then strip_prefix pre' s' else None
  | String _ _, EmptyString => None
  end.

Definition startswith (pre s : string) : bool :=
  match strip_prefix pre s with Some _ => true | None => false end.

(** [s.split(sep, 1)] for a non-empty [sep]: one or two pieces. *)
Fixpoint split_1 (sep s : string) : list string :=
  match strip_prefix sep s with
  | Some rest => [""; rest]
  | None =>
      match s with
      | EmptyString => [""]
      | String c s' =>
          match split_1 sep s' with
          | a :: tl => String c a :: tl
          | [] => [String c ""]
          end
      end
  end.

(** [s.rsplit(sep, 1)] for a non-empty [sep]: the cut is at the
    rightmost occurrence. *)
Fixpoint rsplit_1 (sep s : string) : list string :=
  match s with
  | EmptyString => [""]
  | String c s' =>
      match rsplit_1 sep s' with
      | [a; b] => [String c a; b]
      | _ =>
          match strip_prefix sep s with
          | Some rest => [""; rest]
          | None => [s]
          end
      end
  end.

(** [l[0]] and [l[-1]] on the lists the two splits return (never empty). *)
Definition first (l : list string) : string := hd "" l.
Definition last (l : list string) : string := List.last l "".

Fixpoint lstrip_by (p : ascii → bool) (s : string) : string :=
  match s with
  | EmptyString => ""
  | String c s' => if p c then lstrip_by p s' else s
  end.

Fixpoint rstrip_by (p : ascii → bool) (s : string) : string :=
  match s with
  | EmptyString => ""
  | String c s' =>
      match rstrip_by p s' with
      | EmptyString => if p c then "" else String c ""
      | r => String c r
      end
  end.

Definition strip_by (p : ascii → bool) (s : string) : string :=
  rstrip_by p (lstrip_by p s).

Fixpoint mem_char (c : ascii) (chars : string) : bool :=
  match chars with
  | EmptyString => false
  | String d chars' => Ascii.eqb c d || mem_char c chars'
  end.

(** [s.lstrip(chars)] and [s.strip(chars)]. *)
Definition lstrip_chars (chars s : string) : string :=
  lstrip_by (λ c, mem_char c chars) s.
Definition strip_chars (chars s : string) : string :=
  strip_by (λ c, mem_char c chars) s.

(** [c.isspace()] on the code points below 256: TAB..CR, FS..US, space,
    NEL and the no-break space. *)
Definition isspace (c : ascii) : bool :=
  let n := N_of_ascii c in
  ((9 <=? n) && (n <=? 13) || (28 <=? n) && (n <=? 32)
   || (n =? 133) || (n =? 160))%N.

(** [s.strip()]. *)
Definition strip (s : string) : string := strip_by isspace s.

(** [c.lower()] on the code points below 256: A..Z and the Latin-1
    capitals (not the multiplication sign) move up by 32. *)
Definition lower_char (c : ascii) : ascii :=
  let n := N_of_ascii c in
  if ((65 <=? n) && (n <=? 90)
      || (192 <=? n) && (n <=? 222) && negb (n =? 215))%N
  then ascii_of_N (n + 32) else c.

Fixpoint lower (s : string) : string :=
  match s with
  | EmptyString => ""
  | String c s' => String (lower_char c) (lower s')
  end.

(** [str.casefold] agrees with [lower] on the code points modelled here,
    the sharp s and the micro sign apart. *)
Definition casefold (s : string) : string := lower s.

(** Truthiness of a [str]: [if s:]. *)
Definition truthy (s : string) : bool :=
  match s with EmptyString => false | _ => true end.

(** [sorted(array, key = str.casefold, reverse = False)]: a stable sort. *)
Fixpoint insert_by_key (x : string) (l : list string) : list string :=
  match l with
  | [] => [x]
  | y :: l' =>
      if String.ltb (casefold x) (casefold y) then x :: l
      else y :: insert_by_key x l'
  end.

Definition sorted_casefold (l : list string) : list string :=
  foldr (λ x acc, insert_by_key x acc) [] l.

(** [s.split(sep)] for a one-character [sep]. *)
Fixpoint split_char (sep : ascii) (s : string) : list string :=
  match s with
  | EmptyString => [""]
  | String c s' =>
      match split_char sep s' with
      | a :: tl => if Ascii.eqb c sep then "" :: a :: tl else String c a :: tl
      | [] => if Ascii.eqb c sep then [""; ""] else [String c ""]
      end
  end.

(** The one-character string of the line feed. *)
Definition LF : string := String "010"%char "".

(** The lines a text stream yields: universal newlines, every line but
    possibly the last ends with a line feed. *)
Fixpoint lines_from (cur s : string) : list string :=
  match s with
  | EmptyString => if truthy cur then [cur] else []
  | String c s' =>
      if Ascii.eqb c "010" then (cur +:+ LF) :: lines_from "" s'
      else if Ascii.eqb c "013" then
        match s' with
        | String d s'' =>
            if Ascii.eqb d "010" then (cur +:+ LF) :: lines_from "" s''
            else (cur +:+ LF) :: lines_from "" s'
        | EmptyString => [cur +:+ LF]
        end
      else lines_from (cur +:+ String c "") s'
  end.

Definition lines (content : string) : list string := lines_from "" content.

(** [f"{n:>5}"]: right-aligned in a field of the given width. *)
Fixpoint spaces (n : nat) : string :=
  match n with O => "" | S n' => String " " (spaces n') end.

Definition rjust (width : nat) (s : string) : string :=
  spaces (width - String.length s) +:+ s.

End Py.

(** ** Exceptions, the external driver and the trace of a run *)

(** The exceptions the program can meet.  The first three are
    Playwright's ([TargetClosedError] and [TimeoutError] are subclasses
    of [Error]); [OtherError] stands for any other exception a request
    may raise. *)
Inductive exn :=
  | PlaywrightTargetClosedError
  | PlaywrightTimeoutError
  | PlaywrightError
  | KeyboardInterrupt
  | AttributeError (name : string)
  | IndexError
  | TypeError
  | UnboundLocalError (name : string)
  | OtherError (name : string).

Inductive result (A : Type) :=
  | Return (a : A)
  | Raise (e : exn).
Arguments Return {A} a.
Arguments Raise {A} e.

(** A page object is a handle. *)
Definition page := nat.

(** The requests of the program to the world outside it. *)
Inductive call :=
  | PlaywrightStart
  | LaunchPersistentContext (browser session extension downloads : string)
  | GrantPermissions (permission : string)
  | SetDefaultTimeout (ms : Z)
  | GetUrl
  | ContextClose
  | PlaywrightStop
  | NewPage
  | PageClose (p : page)
  | PageGoto (p : page) (url : string)
  | Sleep (seconds : Z)
  | WaitForLoadState (p : page) (st : string)
  | IsVisible (p : page) (css text : string)
  | TextContent (p : page) (css text : string)
  | Fill (p : page) (css value : string)
  | PressSequentially (p : page) (css value : string)
  | Click (p : page) (css text : string)
  | Input (prompt : string)
  | EventLoopStop
  | EventLoopClose.

(** The answers. *)
Inductive resp :=
  | RNone
  | RBool (b : bool)
  | RStr (s : string)
  | RPage (p : page).

(** What [os.path.isfile], [os.access], [os.stat] and [open] find at a
    path. *)
Inductive file_status :=
  | NotAFile
  | NoReadPermission
  | File (content : string).

(** The world outside the program: it answers every request, with a
    value or with an exception, and holds the files, which do not change
    during a run. *)
Class Driver := {
  World : Type;
  transport : call → World → result resp * World;
  stat_file : string → file_status
}.

(** The console lines, by severity ([print_info], [print_alert],
    [print_error]); [Printed] is [print(ex)]. *)
Inductive line :=
  | Info (text : string)
  | Alert (text : string)
  | Error (text : string)
  | Printed (ex : exn).

Inductive event :=
  | Call (c : call) (r : result resp)
  | Print (l : line).

(** ** The [Sandbox] object *)

Record settings := {
  downloads : string;
  password : string;
  wait_time : Z;
  wait_state : string;
  css_root : string;
  css_submit : string;
  css_checkbox : string;
  css_text : string;
  css_email : string;
  css_password : string;
  home_page : string;
  url_base : string;
  url_dapp : string
}.

Record sandbox := {
  browser : string;
  session : string;
  extension : string;
  dev : bool;
  proxy : string;
  playwright : bool;  (* [self.playwright is not None] *)
  context : bool;     (* [self.context is not None] *)
  timeout : Z;
  user_agent : string;
  sb_settings : settings
}.

Definition set_url_base (u : string) (st : settings) : settings :=
  {| downloads := downloads st; password := password st;
     wait_time := wait_time st; wait_state := wait_state st;
     css_root := css_root st; css_submit := css_submit st;
     css_checkbox := css_checkbox st; css_text := css_text st;
     css_email := css_email st; css_password := css_password st;
     home_page := home_page st; url_base := u; url_dapp := url_dapp st |}.

Definition with_settings (st : settings) (sb : sandbox) : sandbox :=
  {| browser := browser sb; session := session sb;
     extension := extension sb; dev := dev sb; proxy := proxy sb;
     playwright := playwright sb; context := context sb;
     timeout := timeout sb; user_agent := user_agent sb;
     sb_settings := st |}.

Definition with_playwright (b : bool) (sb : sandbox) : sandbox :=
  {| browser := browser sb; session := session sb;
     extension := extension sb; dev := dev sb; proxy := proxy sb;
     playwright := b; context := context sb;
     timeout := timeout sb; user_agent := user_agent sb;
     sb_settings := sb_settings sb |}.

Definition with_context (b : bool) (sb : sandbox) : sandbox :=
  {| browser := browser sb; session := session sb;
     extension := extension sb; dev := dev sb; proxy := proxy sb;
     playwright := playwright sb; context := b;
     timeout := timeout sb; user_agent := user_agent sb;
     sb_settings := sb_settings sb |}.

(** ** The monad of the program: state, exceptions and trace *)

Section Monad.
Context {D : Driver}.

Record state := { self : sandbox; world : World }.

Record run (A : Type) := Run {
  outcome : result A;
  final : state;
  trace : list event
}.
Arguments Run {A} outcome final trace.
Arguments outcome {A} r.
Arguments final {A} r.
Arguments trace {A} r.

Definition M (A : Type) : Type := state → run A.

Definition ret {A} (a : A) : M A := λ s, Run (Return a) s [].

Definition raise {A} (e : exn) : M A := λ s, Run (Raise e) s [].

Definition bind {A B} (m : M A) (k : A → M B) : M B := λ s,
  let r := m s in
  match outcome r with
  | Return a =>
      let r' := k a (final r) in
      Run (outcome r') (final r') (trace r ++ trace r')
  | Raise e => Run (Raise e) (final r) (trace r)
  end.

(** [try: m except (...) as ex: h(ex)], for the exceptions [caught]
    selects. *)
Definition try_except {A} (m : M A) (caught : exn → bool) (h : exn → M A)
  : M A := λ s,
  let r := m s in
  match outcome r with
  | Return a => r
  | Raise e =>
      if caught e then
        let r' := h e (final r) in
        Run (outcome r') (final r') (trace r ++ trace r')
      else r
  end.

(** [try: m finally: f]: [f] runs whatever [m] did; an exception of [f]
    replaces the pending one. *)
Definition try_finally {A} (m : M A) (f : M unit) : M A := λ s,
  let r := m s in
  let r' := f (final r) in
  match outcome r' with
  | Return _ => Run (outcome r) (final r') (trace r ++ trace r')
  | Raise e => Run (Raise e) (final r') (trace r ++ trace r')
  end.

Definition get_self : M sandbox := λ s, Run (Return (self s)) s [].

Definition set_self (sb : sandbox) : M unit := λ s,
  Run (Return tt) {| self := sb; world := world s |} [].

Definition get_settings : M settings := λ s,
  Run (Return (sb_settings (self s))) s [].

(** One request to the driver, recorded with its answer. *)
Definition perform (c : call) : M resp := λ s,
  let a := transport c (world s) in
  Run (fst a) {| self := self s; world := snd a |} [Call c (fst a)].

Definition print (l : line) : M unit := λ s, Run (Return tt) s [Print l].

Definition stat (file : string) : M file_status := λ s,
  Run (Return (stat_file file)) s [].

End Monad.

Arguments Run {D A} outcome final trace.
Arguments outcome {D A} r.
Arguments final {D A} r.
Arguments trace {D A} r.

Notation "'do' x <- m ; k" := (bind m (λ x, k))
  (at level 10, x name, m at level 100, k at level 200,
   format "'[v' 'do'  x  <-  m ; '/' k ']'").
Notation "'do_' m ; k" := (bind m (λ _, k))
  (at level 10, m at level 100, k at level 200,
   format "'[v' 'do_'  m ; '/' k ']'").

(** ** Helper functions of the module *)

(** The double quote, for the messages that quote a file name. *)
Definition dquote : string := String "034"%char "".

Fixpoint unique_from (seen : gset string) (sequence : list string)
  : list string :=
  match sequence with
  | [] => []
  | x :: rest =>
      if decide (x ∈ seen) then unique_from seen rest
      else x :: unique_from ({[x]} ∪ seen) rest
  end.

(** [unique(sequence, sort = False)]: the comprehension keeps an element
    when it is not in [seen] yet, and adds it. *)
Definition unique (sequence : list string) (sort : bool) : list string :=
  let array := unique_from ∅ sequence in
  if sort && negb (bool_decide (array = [])) then Py.sorted_casefold array
  else array.

(** The body of [for line in stream] in [read_array]. *)
Fixpoint read_lines (stream array : list string) : list string :=
  match stream with
  | [] => array
  | line :: rest =>
      let line := Py.strip line in
      if Py.truthy line then read_lines rest (array ++ [line])
      else read_lines rest array
  end.

(** [get_extra_value] on the keyword arguments.  No caller passes
    [numeric], so only the branch of its default [False] is embedded. *)
Definition get_extra_value (kwargs : gmap string string) : string :=
  match kwargs !! "value" with
  | Some value => value
  | None => ""
  end.

(** The catalog of [access_control] before deduplication: the two
    nested loops over [pages] and [fragments]. *)
Definition append_fragment (page : string) (paths : list string)
  (fragment : string) : list string :=
  let fragment := Py.strip_chars "/" (Py.last (Py.rsplit_1 "#" fragment)) in
  if Py.truthy fragment then paths ++ [page +:+ "#" +:+ fragment]
  else paths.

Definition append_page (fragments : list string) (paths : list string)
  (page : string) : list string :=
  let page := Py.strip_chars "/" (Py.first (Py.split_1 ".html" page)) in
  if Py.truthy page then
    let page := "/" +:+ page +:+ ".html" in
    foldl (append_fragment page) (paths ++ [page]) fragments
  else paths.

Definition build_paths (pages fragments : list string) : list string :=
  foldl (append_page fragments) [] pages.

Definition pages : list string := [ "/home.html" ].

Definition fragments : list string := [
  "#new-account";
  "#new-account/connect";
  "#notifications";
  "#restore-vault";
  "#seed";
  "#send";
  "#settings";
  "#settings/about-us";
  "#settings/advanced";
  "#settings/alerts";
  "#settings/contact-list";
  "#settings/contact-list/add-contact";
  "#settings/contact-list/edit-contact";
  "#settings/contact-list/view-contact";
  "#settings/general";
  "#settings/networks";
  "#settings/networks/form";
  "#settings/security";
  "#snaps";
  "#snaps/view";
  "#swaps";
  "#swaps/awaiting-signatures";
  "#swaps/build-quote";
  "#swaps/loading-quotes";
  "#swaps/maintenance";
  "#swaps/notification-page";
  "#swaps/prepare-swap-page";
  "#swaps/smart-transaction-status";
  "#swaps/swaps-error";
  "#swaps/view-quote"
].

Section Helpers.
Context {D : Driver}.

Definition print_info (text : string) : M unit := print (Info text).
Definition print_alert (text : string) : M unit := print (Alert text).
Definition print_error (text : string) : M unit := print (Error text).

(** [print_action]: [input] with the prompt; the answer is a string. *)
Definition print_action (text : string) : M string :=
  do r <- perform (Input text);
  match r with RStr s => ret s | _ => raise TypeError end.

Definition read_array (file : string) (sort : bool) : M (list string) :=
  do st <- stat file;
  do array <-
    match st with
    | NotAFile =>
        do_ print_error
          (dquote +:+ file +:+ dquote +:+ " is not a file or does not exist");
        ret []
    | NoReadPermission =>
        do_ print_error
          (dquote +:+ file +:+ dquote
           +:+ " file does not have a read permission");
        ret []
    | File content =>
        if negb (0 <? String.length content)%nat then
          do_ print_error (dquote +:+ file +:+ dquote +:+ " file is empty");
          ret []
        else ret (read_lines (Py.lines content) [])
    end;
  ret (unique array sort).

End Helpers.

(** ** class [Sandbox] *)

Module Sandbox.
Section Methods.
Context {D : Driver}.

Definition as_bool (r : resp) : M bool :=
  match r with RBool b => ret b | _ => raise TypeError end.

Definition as_str (r : resp) : M string :=
  match r with RStr s => ret s | _ => raise TypeError end.

Definition as_page (r : resp) : M page :=
  match r with RPage p => ret p | _ => raise TypeError end.

Definition set_setting_url_base (u : string) : M unit :=
  do sb <- get_self;
  set_self (with_settings (set_url_base u (sb_settings sb)) sb).

(** [__get_url]: the manifest version selects the service worker or the
    background page, whose [url] the driver answers. *)
Definition __get_url : M string :=
  do r <- perform GetUrl;
  as_str r.

Definition browser_start : M unit :=
  do_ perform PlaywrightStart;
  do sb <- get_self;
  do_ set_self (with_playwright true sb);
  do sb <- get_self;
  do_ (if String.eqb (browser sb) "chromium"
          || String.eqb (browser sb) "firefox"
       then ret tt else raise (OtherError "KeyError"));
  do_ (if Py.truthy (proxy sb) then raise (AttributeError "_Sandbox__proxy")
       else ret tt);
  do_ perform (LaunchPersistentContext (browser sb) (session sb)
                 (extension sb) (downloads (sb_settings sb)));
  do_ set_self (with_context true sb);
  do_ (if negb (String.eqb (browser sb) "firefox")
       then do_ perform (GrantPermissions "camera"); ret tt
       else ret tt);
  do_ perform (SetDefaultTimeout (timeout sb));
  do url <- __get_url;
  do_ match Py.split_1 "://" url with
      | a0 :: a1 :: _ =>
          set_setting_url_base (a0 +:+ "://" +:+ Py.first (Py.split_1 "/" a1))
      | _ => raise IndexError
      end;
  print_info ("Running a " +:+ browser sb +:+ " sandbox...").

Definition browser_stop : M unit :=
  do sb <- get_self;
  do_ (if context sb then do_ perform ContextClose; ret tt
       else raise (AttributeError "close"));
  do sb <- get_self;
  if playwright sb then do_ perform PlaywrightStop; ret tt
  else raise (AttributeError "stop").

(** *** Generic building blocks (single action) *)

Definition __new_page : M page :=
  do r <- perform NewPage;
  as_page r.

Definition __close (p : page) (close : bool) : M unit :=
  if close then do_ perform (PageClose p); ret tt else ret tt.

Definition __wait (p : page) (override : Z) : M unit :=
  do st <- get_settings;
  do_ (if (0 <? override)%Z then do_ perform (Sleep override); ret tt
       else if (0 <? wait_time st)%Z
            then do_ perform (Sleep (wait_time st)); ret tt
            else ret tt);
  do_ perform (WaitForLoadState p (wait_state st));
  ret tt.

Definition __goto (p : page) (url : string) : M resp :=
  do response <- perform (PageGoto p url);
  do_ __wait p (-1);
  ret response.

Definition __goto_browser_extension (p : page) (path : string) : M resp :=
  do st <- get_settings;
  let path := if Py.truthy path then path else home_page st in
  __goto p (url_base st +:+ "/" +:+ Py.lstrip_chars "/" path).

Definition __get_text (p : page) (css text : string) : M string :=
  do r <- perform (TextContent p css text);
  as_str r.

Definition __get_size (p : page) (css text : string) : M nat :=
  do t <- __get_text p css text;
  ret (String.length t).

Definition __is_visible (p : page) (css text : string) : M bool :=
  do r <- perform (IsVisible p css text);
  as_bool r.

Definition __fill (p : page) (value css : string) : M unit :=
  do st <- get_settings;
  let css := if Py.truthy css then css else css_text st in
  do_ perform (Fill p css value);
  ret tt.

(** [__fill_sequentially] on a list of words: the [i]-th word goes to
    the [i]-th match of [css]. *)
Fixpoint fill_sequentially_from (p : page) (css : string) (i : nat)
  (value : list string) : M unit :=
  match value with
  | [] => ret tt
  | v :: rest =>
      do_ perform (PressSequentially p (css +:+ ">>nth=" +:+ pretty i) v);
      fill_sequentially_from p css (S i) rest
  end.

Definition __fill_sequentially (p : page) (value : list string)
  (css : string) : M unit :=
  do st <- get_settings;
  let css := if Py.truthy css then css else css_text st in
  fill_sequentially_from p css 0 value.

Definition __tick (p : page) (css : string) : M unit :=
  do st <- get_settings;
  let css := if Py.truthy css then css else css_checkbox st in
  do_ perform (Click p css "");
  ret tt.

Definition __submit (p : page) (css text : string) : M unit :=
  do st <- get_settings;
  let css := if Py.truthy css then css else css_submit st in
  do_ perform (Click p css text);
  __wait p (-1).

(** *** Generic building blocks (multiple actions) *)

Definition __create_password_submit (p : page) (password' css text : string)
  : M unit :=
  do st <- get_settings;
  let password' := if Py.truthy password' then password' else password st in
  do_ __fill p password' (css_password st +:+ ">>nth=" +:+ pretty 0%nat);
  do_ __fill p password' (css_password st +:+ ">>nth=" +:+ pretty 1%nat);
  __submit p css text.

Definition __fill_password_submit (p : page) (password' css text : string)
  : M unit :=
  do st <- get_settings;
  let password' := if Py.truthy password' then password' else password st in
  do_ __fill p password' (css_password st);
  __submit p css text.

Definition __fill_sequentially_password_submit (p : page)
  (password' : list string) (css text : string) : M unit :=
  do st <- get_settings;
  do_ __fill_sequentially p password' (css_password st);
  __submit p css text.

(** *** MetaMask flows *)

Definition __created (p : page) : M bool :=
  do v <- __is_visible p "button" "create a new wallet";
  ret (negb v).

Definition __is_created (p : page) : M bool :=
  do created <- __created p;
  do_ (if negb created then print_error "Wallet is not created" else ret tt);
  ret created.

Definition __is_not_created (p : page) : M bool :=
  do created <- __created p;
  do_ (if created then print_error "Wallet is already created" else ret tt);
  ret (negb created).

Definition __locked (p : page) : M bool :=
  __is_visible p "button" "unlock".

Definition __unlock (p : page) (password' : string) : M unit :=
  do l <- __locked p;
  if l then
    do_ __fill_password_submit p password' "button" "unlock";
    do v <- __is_visible p "button[data-testid=popover-close]" "";
    if v then __submit p "button[data-testid=popover-close]" "" else ret tt
  else ret tt.

Definition __lock (p : page) : M unit :=
  do l <- __locked p;
  if negb l then
    do st <- get_settings;
    do_ __goto_browser_extension p (home_page st +:+ "#lock");
    ret tt
  else ret tt.

Definition open (kwargs : gmap string string) : M unit :=
  do p <- __new_page;
  do_ __goto_browser_extension p "";
  ret tt.

Definition create (kwargs : gmap string string) : M unit :=
  do p <- __new_page;
  do_ __goto_browser_extension p "";
  do c <- __is_not_created p;
  if c then
    do_ __tick p "";
    do_ __submit p "button" "create a new wallet";
    do_ __submit p "button" "no thanks";
    do_ __tick p "";
    do_ __create_password_submit p "" "button" "create a new wallet";
    do_ __submit p "button" "remind me later";
    do_ __tick p "";
    do_ __submit p "button" "skip";
    do_ __submit p "button" "got it";
    do_ __submit p "button" "next";
    do_ __submit p "button" "done";
    __submit p "button[data-testid=popover-close]" ""
  else ret tt.

Definition existing (kwargs : gmap string string) : M unit :=
  do p <- __new_page;
  do_ __goto_browser_extension p "";
  do c <- __is_not_created p;
  if c then
    do_ __tick p "";
    do_ __submit p "button" "import an existing wallet";
    do_ __submit p "button" "no thanks";
    let mnemonic := get_extra_value kwargs in
    if negb (Py.truthy mnemonic) then
      print_error ("Mnemonic is required, please pass it manually using the "
                   +:+ dquote +:+ "-v" +:+ dquote +:+ " option")
    else
      do_ __fill_sequentially_password_submit p
            (Py.split_char " " mnemonic)
            "button" "confirm Secret Recovery Phrase";
      do_ __tick p "";
      do_ __create_password_submit p "" "button" "import my wallet";
      do_ __submit p "button" "got it";
      do_ __submit p "button" "next";
      do_ __submit p "button" "done";
      __submit p "button[data-testid=popover-close]" ""
  else ret tt.

Definition unlock (kwargs : gmap string string) : M unit :=
  do p <- __new_page;
  do_ __goto_browser_extension p "";
  do c <- __is_created p;
  if c then
    let password' := get_extra_value kwargs in
    __unlock p password'
  else ret tt.

(** The loop of [unlock_brute_force]: [break] after the first password
    that leaves the wallet not locked. *)
Fixpoint brute_force_loop (p : page) (wordlist : list string) : M unit :=
  match wordlist with
  | [] => ret tt
  | password' :: rest =>
      do_ __fill_password_submit p password' "button" "unlock";
      do l <- __locked p;
      if negb l then print_alert ("Unlocked: " +:+ password')
      else brute_force_loop p rest
  end.

Definition unlock_brute_force (kwargs : gmap string string) : M unit :=
  do p <- __new_page;
  do_ __goto_browser_extension p "";
  do c <- __is_created p;
  if c then
    do_ __lock p;
    let wordlist := get_extra_value kwargs in
    if negb (Py.truthy wordlist) then
      print_error ("Wordlist is required, please pass it manually using the "
                   +:+ dquote +:+ "-v" +:+ dquote +:+ " option")
    else
      do wordlist <- read_array wordlist false;
      do_ print_info ("Number of words loaded: "
                      +:+ pretty (List.length wordlist));
      brute_force_loop p wordlist
  else ret tt.

Definition idle_lock (kwargs : gmap string string) : M unit :=
  do p <- __new_page;
  do_ __goto_browser_extension p "";
  do c <- __is_created p;
  if c then
    do_ __unlock p "";
    do_ __submit p "button[data-testid=account-options-menu-button]" "";
    do_ __submit p "button[data-testid=global-menu-settings]" "";
    do_ __submit p "button" "advanced";
    do_ __fill p "2" "input[id=autoTimeout]";
    do_ __submit p "button[data-testid=auto-lockout-button]" "";
    let wait_time := (2 * 60 + 5)%Z in
    do_ print_info ("Waiting " +:+ pretty wait_time
                    +:+ " sec for the wallet to auto-lock...");
    do_ __wait p wait_time;
    do_ __goto_browser_extension p "";
    do l <- __locked p;
    if negb l then print_alert "Auto-lock does not work properly" else ret tt
  else ret tt.

(** One target of the scan: the body of [for path in paths].  [success]
    and [tmp] are the loop's two variables; [tmp] is unbound before the
    first page is opened.  The result is the new pair. *)
Definition scan_target (state : string) (success : bool) (tmp : option page)
  (path : string) : M (bool * option page) :=
  do tmp <- (if success then do t <- __new_page; ret (Some t) else ret tmp);
  do t <- match tmp with
          | Some t => ret t
          | None => raise (UnboundLocalError "tmp")
          end;
  do_ __goto_browser_extension t path;
  do v <- __is_visible t "div[id=app-content]" "";
  do size <- (if v then __get_size t "div[id=app-content]" "" else ret 0%nat);
  do skip <-
    (if (size <? 1)%nat then ret true
     else
       do l <- (if String.eqb state "locked" then __locked t else ret false);
       if l then ret true
       else if String.eqb state "unlocked"
            then __is_visible t "div[class=wallet-overview__balance]" ""
            else ret false);
  if skip then ret (false, tmp)
  else
    do st <- get_settings;
    do_ print_alert ("Size: [" +:+ Py.rjust 5 (pretty size) +:+ "] | URL: "
                     +:+ url_base st +:+ path);
    ret (true, tmp).

Fixpoint scan_loop (state : string) (success : bool) (tmp : option page)
  (paths : list string) : M (bool * option page) :=
  match paths with
  | [] => ret (success, tmp)
  | path :: rest =>
      do st <- scan_target state success tmp path;
      scan_loop state (fst st) (snd st) rest
  end.

(** [access_control] returns [0] on a wrong lock state and [None]
    otherwise. *)
Definition access_control (kwargs : gmap string string) : M (option Z) :=
  do p <- __new_page;
  do_ __goto_browser_extension p "";
  do c <- __is_created p;
  if c then
    let state := Py.lower (get_extra_value kwargs) in
    do valid <-
      (if String.eqb state "locked" then do_ __lock p; ret true
       else if String.eqb state "unlocked" then do_ __unlock p ""; ret true
       else
         do_ print_error
           ("Lock state is required, please pass " +:+ dquote +:+ "locked"
            +:+ dquote +:+ " or " +:+ dquote +:+ "unlocked" +:+ dquote
            +:+ " manually using the " +:+ dquote +:+ "-v" +:+ dquote
            +:+ " option");
         ret false);
    if negb valid then ret (Some 0%Z)
    else
      let paths := unique (build_paths pages fragments) false in
      do_ print_info ("State: " +:+ state);
      do_ print_info ("Number of URLs: " +:+ pretty (List.length paths));
      do st <- scan_loop state true None paths;
      do_ (if negb (fst st) then
             match snd st with
             | Some t => __close t true
             | None => raise (UnboundLocalError "tmp")
             end
           else ret tt);
      ret None
  else ret None.

End Methods.
End Sandbox.

(** [Sandbox.__init__]: the fields of a fresh object.  [session] and
    [extension] are taken as the absolute paths [os.path.abspath]
    returns, and [os.path.join] is the POSIX one. *)
Definition Sandbox_init (browser session extension password : string)
  (wait : Z) (dev : bool) (proxy : string) : sandbox :=
  {| browser := browser;
     session := session;
     extension := extension;
     dev := dev;
     proxy := proxy;
     playwright := false;
     context := false;
     timeout := 30 * 1000;
     user_agent := "Mozilla/5.0 (Macintosh; Intel Mac OS X 10_15_7) AppleWebKit/537.36 (KHTML, like Gecko) Chrome/120.0.0.0 Safari/537.36";
     sb_settings :=
       {| downloads := session +:+ "/" +:+ "downloads";
          password := password;
          wait_time := wait;
          wait_state := "load";
          css_root := "body";
          css_submit := "input[type=submit]";
          css_checkbox := "input[type=checkbox]";
          css_text := "input[type=text]";
          css_email := "input[type=email]";
          css_password := "input[type=password]";
          home_page := "home.html";
          url_base := "";
          url_dapp := "https://app.uniswap.org" |} |}.

(** ** class [Test] *)

Module Test.
Section Methods.
Context {D : Driver}.

(** The choices of the [-t] option ([MyParser.tests]). *)
Definition tests : list string :=
  ["open"; "create"; "existing"; "unlock"; "brute_force_unlock"; "idle_lock";
   "access_control"].

(** [getattr(self.sandbox, self.test)(value = self.value)]: the public
    coroutine methods of [Sandbox] that take keyword arguments; any
    other name among [tests] is no attribute of the object. *)
Definition call_test (test value : string) : M unit :=
  let kwargs : gmap string string := {[ "value" := value ]} in
  if String.eqb test "open" then Sandbox.open kwargs
  else if String.eqb test "create" then Sandbox.create kwargs
  else if String.eqb test "existing" then Sandbox.existing kwargs
  else if String.eqb test "unlock" then Sandbox.unlock kwargs
  else if String.eqb test "unlock_brute_force"
       then Sandbox.unlock_brute_force kwargs
  else if String.eqb test "idle_lock" then Sandbox.idle_lock kwargs
  else if String.eqb test "access_control"
       then do_ Sandbox.access_control kwargs; ret tt
  else raise (AttributeError test).

(** The exceptions of the [except] clause of [run]. *)
Definition caught (e : exn) : bool :=
  match e with
  | PlaywrightTargetClosedError | PlaywrightTimeoutError | PlaywrightError
  | KeyboardInterrupt => true
  | _ => false
  end.

(** The [try] block, the [finally] block and [run]. *)
Definition run_body (test value : string) : M unit :=
  do_ print_info "Press CTRL + C to exit early";
  do_ Sandbox.browser_start;
  do_ call_test test value;
  do_ print_action "Done, press any key to exit...";
  ret tt.

Definition run_finally : M unit :=
  do_ Sandbox.browser_stop;
  do_ perform EventLoopStop;
  do_ perform EventLoopClose;
  ret tt.

Definition run (test value : string) : M unit :=
  try_finally
    (try_except (run_body test value) caught (λ ex, print (Printed ex)))
    run_finally.

End Methods.
End Test.

(** ** Reading a trace *)

(** The values typed by the [fill] requests of a trace, in order. *)
Definition fills (t : list event) : list string :=
  omap (λ e, match e with Call (Fill _ _ v) _ => Some v | _ => None end) t.

(** The console lines of a trace, in order. *)
Definition console (t : list event) : list line :=
  omap (λ e, match e with Print l => Some l | _ => None end) t.

(** The requests of a trace, in order. *)
Definition requests (t : list event) : list call :=
  omap (λ e, match e with Call c _ => Some c | _ => None end) t.

(** The targets loaded by a trace, in order. *)
Definition navigations (t : list event) : list string :=
  omap (λ e, match e with Call (PageGoto _ url) _ => Some url | _ => None end)
    t.

(** The unlock attempts of a trace with what the locked-oracle answered
    after each: a typed value is paired with the next answer to "is the
    unlock button visible". *)
Fixpoint attempts_from (pending : option string) (t : list event)
  : list (string * bool) :=
  match t with
  | [] => []
  | Call (Fill _ _ v) _ :: t' => attempts_from (Some v) t'
  | Call (IsVisible _ "button" "unlock") (Return (RBool b)) :: t' =>
      match pending with
      | Some v => (v, b) :: attempts_from None t'
      | None => attempts_from None t'
      end
  | _ :: t' => attempts_from pending t'
  end.

Definition attempts (t : list event) : list (string * bool) :=
  attempts_from None t.

(** ** A scripted wallet, to run the program on *)

Record wallet := {
  w_created : bool;
  w_locked : bool;
  w_secret : string;
  w_typed : string;
  w_url : string;
  w_pages : nat;
  w_leaky : list string;    (* targets that render without the lock gate *)
  w_blank : list string;    (* targets that render nothing *)
  w_interrupt : option nat  (* requests left before CTRL + C *)
}.

Definition wallet_with (w : wallet) (locked : bool) (typed url : string)
  (pages : nat) (interrupt : option nat) : wallet :=
  {| w_created := w_created w; w_locked := locked; w_secret := w_secret w;
     w_typed := typed; w_url := url; w_pages := pages;
     w_leaky := w_leaky w; w_blank := w_blank w;
     w_interrupt := interrupt |}.

Definition ends_with (suffix s : string) : bool :=
  existsb (λ n, String.eqb (String.substring n (String.length suffix) s)
                  suffix && (n + String.length suffix =? String.length s)%nat)
    (seq 0 (S (String.length s))).

Definition wallet_answer (c : call) (w : wallet) : resp * wallet :=
  let same := wallet_with w (w_locked w) (w_typed w) (w_url w) (w_pages w) None
  in
  let leaky := existsb (λ x, ends_with x (w_url w)) (w_leaky w) in
  let blank := existsb (λ x, ends_with x (w_url w)) (w_blank w) in
  match c with
  | GetUrl => (RStr "chrome-extension://nkbihfbeogaeaoehlefnkodbefgpgknn/background.js", same)
  | NewPage =>
      (RPage (w_pages w),
       wallet_with w (w_locked w) (w_typed w) (w_url w) (S (w_pages w)) None)
  | PageGoto _ url =>
      (RNone,
       wallet_with w (w_locked w || ends_with "#lock" url) (w_typed w) url
         (w_pages w) None)
  | IsVisible _ "button" "create a new wallet" =>
      (RBool (negb (w_created w)), same)
  | IsVisible _ "button" "unlock" =>
      (RBool (w_created w && w_locked w && negb leaky), same)
  | IsVisible _ "div[id=app-content]" _ => (RBool (negb blank), same)
  | IsVisible _ "div[class=wallet-overview__balance]" _ =>
      (RBool (w_created w && negb (w_locked w) && negb leaky), same)
  | IsVisible _ _ _ => (RBool false, same)
  | TextContent _ _ _ =>
      (RStr (if w_locked w && negb leaky then "Welcome back" else "Account 1"),
       same)
  | Fill _ "input[type=password]" v =>
      (RNone, wallet_with w (w_locked w) v (w_url w) (w_pages w) None)
  | Click _ "button" "unlock" =>
      (RNone,
       wallet_with w (w_locked w && negb (String.eqb (w_typed w) (w_secret w)))
         (w_typed w) (w_url w) (w_pages w) None)
  | Input _ => (RStr "", same)
  | _ => (RNone, same)
  end.

Definition wallet_transport (c : call) (w : wallet) : result resp * wallet :=
  match w_interrupt w with
  | Some O =>
      (Raise KeyboardInterrupt,
       wallet_with w (w_locked w) (w_typed w) (w_url w) (w_pages w) None)
  | Some (S n) =>
      let a := wallet_answer c w in
      (Return (fst a),
       wallet_with (snd a) (w_locked (snd a)) (w_typed (snd a))
         (w_url (snd a)) (w_pages (snd a)) (Some n))
  | None => let a := wallet_answer c w in (Return (fst a), snd a)
  end.

Definition wallet_stat (files : list (string * file_status)) (file : string)
  : file_status :=
  match List.find (λ e, String.eqb (fst e) file) files with
  | Some e => snd e
  | None => NotAFile
  end.

Definition wallet_driver (files : list (string * file_status)) : Driver :=
  {| World := wallet; transport := wallet_transport;
     stat_file := wallet_stat files |}.

Definition wallet_state (files : list (string * file_status)) (sb : sandbox)
  (w : wallet) : @state (wallet_driver files) :=
  @Build_state (wallet_driver files) sb w.

(** A created, unlocked wallet whose password is the parser's default;
    the [#settings] target renders while locked and [#seed] renders
    nothing. *)
Definition sample_wallet : wallet :=
  {| w_created := true; w_locked := false; w_secret := "Password123!";
     w_typed := ""; w_url := ""; w_pages := 0;
     w_leaky := ["#settings"]; w_blank := ["#seed"];
     w_interrupt := None |}.


(** The wordlist of the scenario, one candidate per line. *)
Definition sample_files : list (string * file_status) :=
  [("wordlist.txt",
    File ("a" +:+ Py.LF +:+ "Password123!" +:+ Py.LF +:+ "b" +:+ Py.LF));
   ("spaced.txt",
    File ("  a " +:+ Py.LF +:+ Py.LF +:+ "a" +:+ Py.LF +:+ "   " +:+ Py.LF
          +:+ "b"))].

(** The wordlist of the scenario as the text of a file. *)
Definition scenario_wordlist : string :=
  "a" +:+ Py.LF +:+ "Password123!" +:+ Py.LF +:+ "b" +:+ Py.LF.

(** The same wallet, locked. *)
Definition locked_wallet : wallet :=
  wallet_with sample_wallet true "" "" 0 None.

(** The object [Test.__init__] builds with the parser's defaults. *)
Definition sample_sandbox : sandbox :=
  Sandbox_init "chromium" "/tmp/automation_session"
    "/tmp/automation_session/browser_extension" "Password123!" 2 false "".

Definition sample_state : @state (wallet_driver sample_files) :=
  wallet_state sample_files sample_sandbox sample_wallet.

(** The same object once [browser_start] has run. *)
Definition started_sandbox : sandbox :=
  with_settings
    (set_url_base "chrome-extension://nkbihfbeogaeaoehlefnkodbefgpgknn"
       (sb_settings sample_sandbox))
    (with_context true (with_playwright true sample_sandbox)).

Definition started_state : @state (wallet_driver sample_files) :=
  wallet_state sample_files started_sandbox sample_wallet.

Definition locked_state : @state (wallet_driver sample_files) :=
  wallet_state sample_files started_sandbox locked_wallet.

(** ** The words of the specification, to compare the code with *)

(** Order-preserving deduplication: every element stays at its first
    occurrence. *)
Fixpoint first_occurrences (l : list string) : list string :=
  match l with
  | [] => []
  | x :: r => x :: filter (λ y, y ≠ x) (first_occurrences r)
  end.

(** The cross product of pages and fragments, each fragment appended to
    each page, the bare page first. *)
Definition cross_product (pages fragments : list string) : list string :=
  flat_map (λ page, page :: map (λ fragment, page +:+ fragment) fragments)
    pages.

(** What the two loops of [access_control] make of a page and of a
    fragment before combining them. *)
Definition normal_page (page : string) : option string :=
  let page := Py.strip_chars "/" (Py.first (Py.split_1 ".html" page)) in
  if Py.truthy page then Some ("/" +:+ page +:+ ".html") else None.

Definition normal_fragment (fragment : string) : option string :=
  let fragment := Py.strip_chars "/" (Py.last (Py.rsplit_1 "#" fragment)) in
  if Py.truthy fragment then Some ("#" +:+ fragment) else None.

Definition normal_cross_product (pages fragments : list string)
  : list string :=
  flat_map (λ page,
    match normal_page page with
    | Some page => page :: map (λ f, page +:+ f) (omap normal_fragment fragments)
    | None => []
    end) pages.

(** The candidates of a wordlist file: its stripped non-blank lines,
    each at its first occurrence. *)
Definition candidates (content : string) : list string :=
  first_occurrences (filter (λ l, l ≠ "") (map Py.strip (Py.lines content))).

(** The address [__goto_browser_extension] loads for a path. *)
Definition extension_url (st : settings) (path : string) : string :=
  url_base st +:+ "/"
  +:+ Py.lstrip_chars "/" (if Py.truthy path then path else home_page st).

(** The part of a trace after the line that announces the number of
    targets: the scan proper. *)
Fixpoint scan_part (t : list event) : list event :=
  match t with
  | [] => []
  | Print (Info text) :: t' =>
      if Py.startswith "Number of URLs: " text then t' else scan_part t'
  | _ :: t' => scan_part t'
  end.

(** The targets a trace evaluated: a target is loaded, then the root
    content region is probed. *)
Fixpoint evaluated_from (pending : option string) (t : list event)
  : list string :=
  match t with
  | [] => []
  | Call (PageGoto _ url) _ :: t' => evaluated_from (Some url) t'
  | Call (IsVisible _ "div[id=app-content]" _) (Return (RBool _)) :: t' =>
      match pending with
      | Some url => url :: evaluated_from None t'
      | None => evaluated_from None t'
      end
  | _ :: t' => evaluated_from pending t'
  end.

Definition evaluated (t : list event) : list string := evaluated_from None t.

(** The size a trace measured: the length of the text of the root
    content region, [0] when it was not read. *)
Definition measured_size (t : list event) : nat :=
  list_sum (omap (λ e, match e with
                       | Call (TextContent _ "div[id=app-content]" _)
                           (Return (RStr text)) => Some (String.length text)
                       | _ => None
                       end) t).

(** What a trace was last answered when it asked whether the element
    [css] with [text] is visible; [None] when it did not ask. *)
Definition visible_answer (css text : string) (t : list event)
  : option bool :=
  last (omap (λ e, match e with
                   | Call (IsVisible _ css' text') (Return (RBool b)) =>
                       if String.eqb css' css && String.eqb text' text
                       then Some b else None
                   | _ => None
                   end) t).


(** The requests of a run that stops at a wrong lock state: a page, the
    home page, the waits and the probe of the create button. *)
Definition opening (c : call) : bool :=
  match c with
  | NewPage | PageGoto _ _ | Sleep _ | WaitForLoadState _ _ => true
  | IsVisible _ "button" "create a new wallet" => true
  | _ => false
  end.

(** The messages of the three flows that need an extra value. *)
Definition option_v : string := dquote +:+ "-v" +:+ dquote +:+ " option".

Definition mnemonic_required : string :=
  "Mnemonic is required, please pass it manually using the " +:+ option_v.


Definition lock_state_required : string :=
  "Lock state is required, please pass " +:+ dquote +:+ "locked" +:+ dquote
  +:+ " or " +:+ dquote +:+ "unlocked" +:+ dquote +:+ " manually using the "
  +:+ option_v.

(** Whether a trace announced the number of words of a wordlist. *)
Definition words_loaded (t : list event) : bool :=
  existsb (λ e, match e with
                | Print (Info text) =>
                    Py.startswith "Number of words loaded: " text
                | _ => false
                end) t.

(** The attempts after which the oracle still reported the wallet
    locked. *)
Definition failed_attempts (t : list event) : list string :=
  map fst (filter (λ a, snd a = true) (attempts t)).

(** A blank line: nothing but whitespace. *)
Fixpoint all_space (s : string) : bool :=
  match s with
  | EmptyString => true
  | String c s' => Py.isspace c && all_space s'
  end.

(** The lines of the file at a path, none when it cannot be read. *)
Definition file_lines {D : Driver} (path : string) : list string :=
  match stat_file path with
  | File content => Py.lines content
  | _ => []
  end.

(** Whether a trace announced the number of targets of the scan. *)
Definition urls_announced (t : list event) : bool :=
  existsb (λ e, match e with
                | Print (Info text) => Py.startswith "Number of URLs: " text
                | _ => false
                end) t.

(** The texts of the alerts of a trace. *)
Definition alerts (t : list event) : list string :=
  omap (λ e, match e with Print (Alert text) => Some text | _ => None end) t.



(** The alert of a leak. *)
Definition leak_alert (st : settings) (path : string) (size : nat) : line :=
  Alert ("Size: [" +:+ Py.rjust 5 (pretty size) +:+ "] | URL: "
         +:+ url_base st +:+ path).

(** The wordlist [read_array] returns for a path, and the error lines
    it prints on the way. *)
Definition wordlist_of {D : Driver} (path : string) : list string :=
  first_occurrences (filter (λ l, l ≠ "") (map Py.strip (file_lines path))).

Definition read_errors {D : Driver} (path : string) : list line :=
  match stat_file path with
  | NotAFile =>
      [Error (dquote +:+ path +:+ dquote
              +:+ " is not a file or does not exist")]
  | NoReadPermission =>
      [Error (dquote +:+ path +:+ dquote
              +:+ " file does not have a read permission")]
  | File content =>
      if bool_decide (content = "") then
        [Error (dquote +:+ path +:+ dquote +:+ " file is empty")]
      else []
  end.

Definition loaded_line (n : nat) : line :=
  Info ("Number of words loaded: " +:+ pretty n).

(** ** Statements about runs *)

Section Statements.
Context {D : Driver}.

(** [hoare sb m Q]: started on the object [sb], in any world, [m] ends
    with an outcome, an object and a trace that satisfy [Q]. *)
Definition hoare {A} (sb : sandbox) (m : M A)
  (Q : result A → sandbox → list event → Prop) : Prop :=
  ∀ s, self s = sb → Q (outcome (m s)) (self (final (m s))) (trace (m s)).

(** The three ways the loop of [unlock_brute_force] can end on the
    candidates [wl]: a candidate found after the failed ones, all of
    them failed, or a request raised during the attempt of one. *)
Definition loop_found (wl : list string) (o : result unit) (t : list event)
  : Prop :=
  ∃ failed pw rest,
    wl = failed ++ pw :: rest ∧ o = Return tt
    ∧ fills t = failed ++ [pw]
    ∧ console t = [Alert ("Unlocked: " +:+ pw)]
    ∧ ∀ pd, attempts_from pd t = map (λ v, (v, true)) failed ++ [(pw, false)].

Definition loop_exhausted (wl : list string) (o : result unit)
  (t : list event) : Prop :=
  o = Return tt ∧ fills t = wl ∧ console t = []
  ∧ ∀ pd, attempts_from pd t = map (λ v, (v, true)) wl.

Definition loop_aborted (wl : list string) (o : result unit)
  (t : list event) : Prop :=
  ∃ e failed pw rest,
    wl = failed ++ pw :: rest ∧ o = Raise e
    ∧ fills t = failed ++ [pw]
    ∧ console t = []
    ∧ ∀ pd, attempts_from pd t = map (λ v, (v, true)) failed.

(** What a run of [unlock_brute_force] on the wordlist at [path] leaves:
    either the loop was not reached and nothing was typed, or the trace
    is an opening that types nothing, the announcement of the number of
    words, and the trace [t2] of the loop. *)
Definition probe_post (path : string) (o : result unit) (t : list event)
  : Prop :=
  (fills t = [] ∧ attempts t = [] ∧ words_loaded t = false)
  ∨ ∃ t2,
      fills t = fills t2 ∧ attempts t = attempts_from None t2
      ∧ console t
        = read_errors path
          ++ loaded_line (List.length (wordlist_of path)) :: console t2
      ∧ words_loaded t = true
      ∧ (loop_found (wordlist_of path) o t2
         ∨ loop_exhausted (wordlist_of path) o t2
         ∨ loop_aborted (wordlist_of path) o t2).

(** What one target of the scan leaves: on return the target was loaded
    once and its root region probed; on an exception it was loaded at
    most once. *)
Definition target_post (url : string) (o : result (bool * option page))
  (t : list event) : Prop :=
  match o with
  | Return _ =>
      navigations t = [url]
      ∧ ∀ pd t', evaluated_from pd (t ++ t') = url :: evaluated_from None t'
  | Raise _ =>
      (navigations t = [] ∨ navigations t = [url])
      ∧ ((∀ pd, evaluated_from pd t = [])
         ∨ (∀ pd, evaluated_from pd t = [url]))
  end.

(** What the loop of the scan leaves on the targets [urls]. *)
Definition scan_post (urls : list string) (o : result (bool * option page))
  (t : list event) : Prop :=
  match o with
  | Return _ =>
      navigations t = urls
      ∧ ∀ pd t', ∃ pd',
          evaluated_from pd (t ++ t') = urls ++ evaluated_from pd' t'
  | Raise _ =>
      navigations t `prefix_of` urls
      ∧ ∀ pd, evaluated_from pd t `prefix_of` urls
  end.

(** The same for the loop followed by the closing of the last page, and
    for the whole of [access_control]. *)
Definition tail_post (urls : list string) (o : result (option Z))
  (t : list event) : Prop :=
  navigations t `prefix_of` urls
  ∧ evaluated t `prefix_of` urls
  ∧ (∀ x, o = Return x → navigations t = urls ∧ evaluated t = urls).

Definition access_post (urls : list string) (o : result (option Z))
  (t : list event) : Prop :=
  navigations (scan_part t) `prefix_of` urls
  ∧ evaluated (scan_part t) `prefix_of` urls
  ∧ (urls_announced t = true → ∀ x, o = Return x →
     navigations (scan_part t) = urls ∧ evaluated (scan_part t) = urls).

(** The flag of one target against what its trace measured and saw. *)
Definition flag_post (required : string) (st : settings) (path : string)
  (o : result (bool * option page)) (t : list event) : Prop :=
  ∀ flag tmp', o = Return (flag, tmp') →
    (required = "locked" →
       (flag = true ↔ (1 ≤ measured_size t)%nat
                      ∧ visible_answer "button" "unlock" t = Some false))
    ∧ (required = "unlocked" →
       (flag = true ↔ (1 ≤ measured_size t)%nat
                      ∧ visible_answer "div[class=wallet-overview__balance]"
                          "" t = Some false))
    ∧ (measured_size t = 0%nat → flag = false)
    ∧ console t = if flag then [leak_alert st path (measured_size t)] else [].


(** What a run of [access_control] on a wrong lock state leaves. *)
Definition invalid_post (st : settings) (o : result (option Z))
  (t : list event) : Prop :=
  forallb opening (requests t) = true
  ∧ navigations t `prefix_of` [extension_url st ""]
  ∧ scan_part t = []
  ∧ urls_announced t = false
  ∧ (∀ x, o = Return x →
       (x = Some 0%Z ∧ console t = [Error lock_state_required])
       ∨ (x = None ∧ console t = [Error "Wallet is not created"])).


End Statements.

(** ** Further readers of a trace *)

(** The fields typed into and the values typed, in order: the [fill]
    requests and the key-by-key ones. *)
Definition typed (t : list event) : list (string * string) :=
  omap (λ e, match e with
             | Call (Fill _ css v) _ => Some (css, v)
             | _ => None
             end) t.

Definition pressed (t : list event) : list (string * string) :=
  omap (λ e, match e with
             | Call (PressSequentially _ css v) _ => Some (css, v)
             | _ => None
             end) t.

(** The clicks of a trace: selector and text filter. *)
Definition clicks (t : list event) : list (string * string) :=
  omap (λ e, match e with
             | Call (Click _ css text) _ => Some (css, text)
             | _ => None
             end) t.

(** The answers of a trace to "is the unlock button visible", in order. *)
Definition lock_answers (t : list event) : list bool :=
  omap (λ e, match e with
             | Call (IsVisible _ "button" "unlock") (Return (RBool b)) =>
                 Some b
             | _ => None
             end) t.

(** The pages a trace opened and the pages it closed. *)
Definition opened (t : list event) : list page :=
  omap (λ e, match e with
             | Call NewPage (Return (RPage p)) => Some p
             | _ => None
             end) t.

Definition closed (t : list event) : list page :=
  omap (λ e, match e with Call (PageClose p) _ => Some p | _ => None end) t.

(** The durations of the sleeps of a trace. *)
Definition sleeps (t : list event) : list Z :=
  omap (λ e, match e with Call (Sleep z) _ => Some z | _ => None end) t.

(** [sep.join(l)]. *)
Fixpoint join (sep : string) (l : list string) : string :=
  match l with
  | [] => ""
  | [x] => x
  | x :: rest => x +:+ sep +:+ join sep rest
  end.


(** The fields the words of a mnemonic go to: the [i]-th match of the
    selector for the [i]-th word. *)
Fixpoint fields_from (css : string) (i : nat) (value : list string)
  : list (string * string) :=
  match value with
  | [] => []
  | v :: rest => (css +:+ ">>nth=" +:+ pretty i, v) :: fields_from css (S i) rest
  end.

(** The selector [__fill] and [__fill_sequentially] use when given
    [css]: the text field when it is empty. *)
Definition css_or_text (st : settings) (css : string) : string :=
  if Py.truthy css then css else css_text st.

(** The password a composite types when given [password']: the one of
    the settings when it is empty. *)
Definition password_or_default (st : settings) (password' : string) : string :=
  if Py.truthy password' then password' else password st.

Section MoreStatements.
Context {D : Driver}.

(** What a run of [unlock] leaves. *)
Definition unlock_post (st : settings) (v : string) (o : result unit)
  (t : list event) : Prop :=
  let pw := password_or_default st v in
  (typed t = [] ∨ typed t = [(css_or_text st (css_password st), pw)])
  ∧ (typed t ≠ [] → lock_answers t = [true])
  ∧ (lock_answers t = [false] → clicks t = [] ∧ typed t = [])
  ∧ (∀ x, o = Return x →
       console t = [] ∨ console t = [Error "Wallet is not created"]).

(** What a run of [create] that returns leaves. *)
Definition create_post (st : settings) (o : result unit) (t : list event)
  : Prop :=
  ∀ x, o = Return x →
    (console t = [Error "Wallet is already created"]
     ∧ clicks t = [] ∧ typed t = [])
    ∨ (console t = []
       ∧ typed t
         = [(css_password st +:+ ">>nth=0", password st);
            (css_password st +:+ ">>nth=1", password st)]
       ∧ List.length (clicks t) = 12%nat).

(** What a run of [existing] on the mnemonic [m] that returns leaves. *)
Definition existing_post (st : settings) (m : string) (o : result unit)
  (t : list event) : Prop :=
  ∀ x, o = Return x →
    (console t = [Error "Wallet is already created"]
     ∧ clicks t = [] ∧ pressed t = [] ∧ typed t = [])
    ∨ (m = "" ∧ console t = [Error mnemonic_required]
       ∧ pressed t = [] ∧ typed t = [])
    ∨ (m ≠ "" ∧ console t = []
       ∧ pressed t
         = fields_from (css_or_text st (css_password st)) 0
             (Py.split_char " " m)
       ∧ join " " (map snd (pressed t)) = m
       ∧ typed t
         = [(css_password st +:+ ">>nth=0", password st);
            (css_password st +:+ ">>nth=1", password st)]).

(** What a run of [idle_lock] that returns leaves. *)
Definition idle_lock_post (o : result unit) (t : list event) : Prop :=
  ∀ x, o = Return x →
    (console t = [Error "Wallet is not created"]
     ∧ typed t = [] ∧ clicks t = [])
    ∨ ∃ b, last (lock_answers t) = Some b
           ∧ console t
             = Info "Waiting 125 sec for the wallet to auto-lock..."
               :: (if b then [] else [Alert "Auto-lock does not work properly"])
           ∧ In 125%Z (sleeps t)
           ∧ last (typed t) = Some ("input[id=autoTimeout]", "2").

End MoreStatements.


(** The requests a flow makes: those on pages and the sleeps. *)
Definition page_level (c : call) : bool :=
  match c with
  | NewPage | PageClose _ | PageGoto _ _ | Sleep _ | WaitForLoadState _ _
  | IsVisible _ _ _ | TextContent _ _ _ | Fill _ _ _
  | PressSequentially _ _ _ | Click _ _ _ => true
  | _ => false
  end.

Definition closes_page (c : call) : bool :=
  match c with PageClose _ => true | _ => false end.

(** A sleep of a flow is positive and lasts the default wait time
    [wt], or the 125 seconds of the idle-lock check when [long] is
    set. *)
Definition sleep_ok (long : bool) (wt : Z) (c : call) : bool :=
  match c with
  | Sleep z => (0 <? z)%Z && ((z =? wt)%Z || long && (z =? 125)%Z)
  | _ => true
  end.

(** The events of a flow: console lines and page-level requests with
    sound sleeps; no page is closed when [may_close] is false. *)
Definition flow_event (may_close long : bool) (wt : Z) (e : event) : bool :=
  match e with
  | Call c _ =>
      page_level c && (may_close || negb (closes_page c))
      && sleep_ok long wt c
  | Print _ => true
  end.

Section MoreStatements2.
Context {D : Driver}.

(** [keeps_on sb P m]: started on the object [sb], [m] leaves it
    unchanged and records only events that satisfy [P]. *)
Definition keeps_on {A} (sb : sandbox) (P : event → bool) (m : M A) : Prop :=
  hoare sb m (λ _ sb' t, sb' = sb ∧ forallb P t = true).

End MoreStatements2.


Section MoreStatements3.
Context {D : Driver}.

(** The page the loop holds after a trace: the last one opened, or the
    one it started with. *)
Definition held_page (tmp : option page) (t : list event) : option page :=
  match last (opened t) with
  | Some p => Some p
  | None => tmp
  end.

(** The pages of one target and of the loop: a page is opened exactly
    when the previous target was flagged (or at the start), none is
    closed. *)
Definition target_pages (success : bool) (tmp : option page)
  (o : result (bool * option page)) (t : list event) : Prop :=
  ∀ flag tmp', o = Return (flag, tmp') →
    List.length (opened t) = Nat.b2n success
    ∧ List.length (alerts t) = Nat.b2n flag
    ∧ closed t = []
    ∧ tmp' = held_page tmp t
    ∧ (success = true → is_Some tmp').

Definition loop_pages (success : bool) (tmp : option page)
  (o : result (bool * option page)) (t : list event) : Prop :=
  ∀ flag tmp', o = Return (flag, tmp') →
    (List.length (opened t) + Nat.b2n flag
     = Nat.b2n success + List.length (alerts t))%nat
    ∧ closed t = []
    ∧ tmp' = held_page tmp t.

(** The pages of the whole scan that returns: every page opened is
    closed or shows a leak, and the only page closed is the last one
    opened. *)
Definition tail_pages (o : result (option Z)) (t : list event) : Prop :=
  ∀ x, o = Return x →
    List.length (opened t)
    = (List.length (alerts t) + List.length (closed t))%nat
    ∧ (closed t = [] ∨ ∃ p, closed t = [p] ∧ last (opened t) = Some p).

(** What [__lock] leaves. *)
Definition lock_post (st : settings) (p : page) (t : list event) : Prop :=
  typed t = [] ∧ clicks t = [] ∧ console t = []
  ∧ (lock_answers t = [true] → requests t = [IsVisible p "button" "unlock"])
  ∧ (navigations t = []
     ∨ (lock_answers t = [false]
        ∧ navigations t = [extension_url st (home_page st +:+ "#lock")])).

End MoreStatements3.

(** The prompts of a trace: the texts [input] was called with. *)
Definition prompts (t : list event) : list string :=
  omap (λ e, match e with Call (Input text) _ => Some text | _ => None end) t.

(** The addresses the driver answered to [__get_url]. *)
Definition url_answers (t : list event) : list string :=
  omap (λ e, match e with
             | Call GetUrl (Return (RStr url)) => Some url
             | _ => None
             end) t.

(** The public coroutines of [Sandbox] that take the keyword arguments
    of a test. *)
Definition flows : list string :=
  ["open"; "create"; "existing"; "unlock"; "unlock_brute_force"; "idle_lock";
   "access_control"].

(** A wallet that is not created yet, and the started object on it. *)
Definition fresh_wallet : wallet :=
  {| w_created := false; w_locked := false; w_secret := "Password123!";
     w_typed := ""; w_url := ""; w_pages := 0;
     w_leaky := []; w_blank := [];
     w_interrupt := None |}.

Definition fresh_state : @state (wallet_driver sample_files) :=
  wallet_state sample_files started_sandbox fresh_wallet.

(** The object of a run with the [-x] option. *)
Definition proxy_sandbox : sandbox :=
  Sandbox_init "chromium" "/tmp/automation_session"
    "/tmp/automation_session/browser_extension" "Password123!" 2 false
    "http://127.0.0.1:8080".

Definition proxy_state : @state (wallet_driver sample_files) :=
  wallet_state sample_files proxy_sandbox sample_wallet.

Section MoreStatements4.
Context {D : Driver}.

(** The pages of a whole run of [access_control] that returns. *)
Definition pages_post (o : result (option Z)) (t : list event) : Prop :=
  ∀ x, o = Return x →
    List.length (opened t)
    = (1 + List.length (alerts t) + List.length (closed t))%nat
    ∧ (closed t = [] ∨ ∃ p, closed t = [p] ∧ last (opened t) = Some p).

(** What [browser_start] leaves on the object [sb]. *)
Definition start_post (sb : sandbox) (o : result unit) (sb' : sandbox)
  (t : list event) : Prop :=
  (o = Return tt →
     ∃ url scheme host tail,
       url_answers t = [url]
       ∧ url = scheme +:+ "://" +:+ host +:+ tail
       ∧ (tail = "" ∨ ∃ rest, tail = "/" +:+ rest)
       ∧ Py.mem_char "/" host = false
       ∧ sb' = with_settings
                 (set_url_base (scheme +:+ "://" +:+ host) (sb_settings sb))
                 (with_context true (with_playwright true sb)))
  ∧ (∀ url, url_answers t = [url] → (∀ a b, url ≠ a +:+ "://" +:+ b) →
       o = Raise IndexError ∧ context sb' = true
       ∧ sb_settings sb' = sb_settings sb).

End MoreStatements4.

(** ** The file helpers of the module *)

(** [sorted(names, key = str.casefold, reverse = True)]: descending and
    stable, names with the same key stay in their order. *)
Fixpoint insert_descending (x : string) (l : list string) : list string :=
  match l with
  | [] => [x]
  | y :: l' =>
      if String.ltb (Py.casefold x) (Py.casefold y)
      then y :: insert_descending x l'
      else x :: l
  end.

Definition sorted_descending (l : list string) : list string :=
  foldr insert_descending [] l.

Module Os.

(** The requests of the helpers to the operating system and to the
    operator. *)
Inductive call :=
  | Exists (path : string)
  | IsFile (path : string)
  | IsDir (path : string)
  | Remove (path : string)
  | CopyFile (source destination : string)
  | RmTree (path : string)
  | MkDir (path : string)
  | CopyTree (source destination : string)
  | ListDir (path : string)
  | GetCwd
  | MkDtemp (prefix suffix dir : string)
  | PlatformSystem
  | ExpandUser (path : string)
  | Input (prompt : string).

Inductive resp :=
  | RNone
  | RBool (b : bool)
  | RStr (s : string)
  | RNames (names : list string).

(** The system under the helpers: it answers every request, with a
    value or with an exception, and may change with each;
    [path_join a names] is its [os.path.join(a, *names)]. *)
Class System := {
  Disk : Type;
  syscall : call → Disk → result resp * Disk;
  path_join : string → list string → string
}.

Inductive event :=
  | Call (c : call) (r : result resp)
  | Print (l : line).

Section Monad.
Context {S : System}.

Record run (A : Type) := Run {
  outcome : result A;
  final : Disk;
  trace : list event
}.
Arguments Run {A} outcome final trace.
Arguments outcome {A} r.
Arguments final {A} r.
Arguments trace {A} r.

Definition M (A : Type) : Type := Disk → run A.

Definition ret {A} (a : A) : M A := λ d, Run (Return a) d [].

Definition raise {A} (e : exn) : M A := λ d, Run (Raise e) d [].

Definition bind {A B} (m : M A) (k : A → M B) : M B := λ d,
  let r := m d in
  match outcome r with
  | Return a =>
      let r' := k a (final r) in
      Run (outcome r') (final r') (trace r ++ trace r')
  | Raise e => Run (Raise e) (final r) (trace r)
  end.

(** [try: m except Exception: h]. *)
Definition try_except {A} (m : M A) (caught : exn → bool) (h : M A) : M A :=
  λ d,
  let r := m d in
  match outcome r with
  | Return a => r
  | Raise e =>
      if caught e then
        let r' := h (final r) in
        Run (outcome r') (final r') (trace r ++ trace r')
      else r
  end.

Definition perform (c : call) : M resp := λ d,
  let a := syscall c d in
  Run (fst a) (snd a) [Call c (fst a)].

Definition print (l : line) : M unit := λ d, Run (Return tt) d [Print l].

End Monad.

Arguments Run {S A} outcome final trace.
Arguments outcome {S A} r.
Arguments final {S A} r.
Arguments trace {S A} r.

Declare Scope os_scope.
Notation "'do' x <- m ; k" := (bind m (λ x, k))
  (at level 10, x name, m at level 100, k at level 200,
   format "'[v' 'do'  x  <-  m ; '/' k ']'") : os_scope.
Notation "'do_' m ; k" := (bind m (λ _, k))
  (at level 10, m at level 100, k at level 200,
   format "'[v' 'do_'  m ; '/' k ']'") : os_scope.
Local Open Scope os_scope.

Section Helpers.
Context {S : System}.

(** The exceptions [except Exception] catches: all but the interrupt of
    the operator and the exits. *)
Definition is_Exception (e : exn) : bool :=
  match e with
  | KeyboardInterrupt => false
  | OtherError name =>
      negb (String.eqb name "SystemExit" || String.eqb name "GeneratorExit")
  | _ => true
  end.

(** [exit()]. *)
Definition exit {A} : M A := raise (OtherError "SystemExit").

Definition as_bool (r : resp) : M bool :=
  match r with RBool b => ret b | _ => raise TypeError end.

Definition as_str (r : resp) : M string :=
  match r with RStr s => ret s | _ => raise TypeError end.

Definition as_names (r : resp) : M (list string) :=
  match r with RNames l => ret l | _ => raise TypeError end.

Definition os_path_exists (path : string) : M bool :=
  do r <- perform (Exists path); as_bool r.

Definition os_path_isfile (path : string) : M bool :=
  do r <- perform (IsFile path); as_bool r.

Definition os_path_isdir (path : string) : M bool :=
  do r <- perform (IsDir path); as_bool r.

Definition os_listdir (path : string) : M (list string) :=
  do r <- perform (ListDir path); as_names r.

Definition print_info (text : string) : M unit := print (Info text).
Definition print_error (text : string) : M unit := print (Error text).

Definition print_action (text : string) : M string :=
  do r <- perform (Input text); as_str r.

(** [confirm in ["yes", "y"]]. *)
Definition confirmed (confirm : string) : bool :=
  String.eqb confirm "yes" || String.eqb confirm "y".

Definition file_remove (file : string) : M bool :=
  do e <- os_path_exists file;
  if e then
    do f <- os_path_isfile file;
    if negb f then
      do_ print_error ("Cannot remove " +:+ dquote +:+ file +:+ dquote
                       +:+ " because it is not a file");
      ret false
    else
      try_except (do_ perform (Remove file); ret true) is_Exception
        (do_ print_error ("Cannot remove " +:+ dquote +:+ file +:+ dquote
                          +:+ " file");
         ret false)
  else ret true.

Definition file_copy (source destination : string) : M bool :=
  do f <- os_path_isfile source;
  do success <-
    (if negb f then
       do_ print_error ("Source " +:+ dquote +:+ source +:+ dquote
                        +:+ " is not a file or does not exist");
       ret false
     else
       do e <- os_path_exists destination;
       if e then
         do df <- os_path_isfile destination;
         if negb df then
           do_ print_error ("Destination " +:+ dquote +:+ destination
                            +:+ dquote +:+ " is not a file");
           ret false
         else
           do confirm <-
             print_action ("Destination " +:+ dquote +:+ destination
                           +:+ dquote
                           +:+ " file already exists, overwrite (yes): ");
           let confirm := Py.lower confirm in
           if confirmed confirm then file_remove destination else ret false
       else ret true);
  if success then
    try_except (do_ perform (CopyFile source destination); ret true)
      is_Exception
      (do_ print_error ("Cannot copy " +:+ dquote +:+ source +:+ dquote
                        +:+ " file to " +:+ dquote +:+ destination
                        +:+ dquote +:+ " file");
       ret false)
  else ret success.

Definition directory_remove (directory : string) : M bool :=
  do e <- os_path_exists directory;
  if e then
    do f <- os_path_isdir directory;
    if negb f then
      do_ print_error ("Cannot remove " +:+ dquote +:+ directory +:+ dquote
                       +:+ " because it is not a directory");
      ret false
    else
      try_except (do_ perform (RmTree directory); ret true) is_Exception
        (do_ print_error ("Cannot remove " +:+ dquote +:+ directory
                          +:+ dquote +:+ " directory");
         ret false)
  else ret true.

Definition directory_create (directory : string) : M bool :=
  do e <- os_path_exists directory;
  if negb e then
    try_except (do_ perform (MkDir directory); ret true) is_Exception
      (do_ print_error ("Cannot create " +:+ dquote +:+ directory +:+ dquote
                        +:+ " directory");
       ret false)
  else ret true.

Definition directory_copy (source destination : string) : M bool :=
  do f <- os_path_isdir source;
  do success <-
    (if negb f then
       do_ print_error ("Source " +:+ dquote +:+ source +:+ dquote
                        +:+ " is not a directory or does not exist");
       ret false
     else
       do e <- os_path_exists destination;
       if e then
         do df <- os_path_isdir destination;
         if negb df then
           do_ print_error ("Destination " +:+ dquote +:+ destination
                            +:+ dquote +:+ " is not a directory");
           ret false
         else
           do confirm <-
             print_action ("Destination " +:+ dquote +:+ destination
                           +:+ dquote
                           +:+ " directory already exists, overwrite (yes): ");
           let confirm := Py.lower confirm in
           if confirmed confirm then directory_remove destination
           else ret false
       else ret true);
  if success then
    try_except (do_ perform (CopyTree source destination); ret true)
      is_Exception
      (do_ print_error ("Cannot copy " +:+ dquote +:+ source +:+ dquote
                        +:+ " directory to " +:+ dquote +:+ destination
                        +:+ dquote +:+ " directory");
       ret false)
  else ret success.

(** ["manifest.json" in [file.lower() for file in names]]. *)
Definition has_manifest_name (names : list string) : bool :=
  existsb (String.eqb "manifest.json") (map Py.lower names).

Definition directory_has_manifest (directory : string) : M bool :=
  do f <- os_path_isdir directory;
  if negb f then
    do_ print_error (dquote +:+ directory +:+ dquote
                     +:+ " is not a directory or does not exist");
    ret false
  else
    do names <- os_listdir directory;
    if negb (has_manifest_name names) then
      do_ print_error (dquote +:+ "manifest.json" +:+ dquote
                       +:+ " file was not found in " +:+ dquote +:+ directory
                       +:+ dquote +:+ " directory");
      ret false
    else ret true.

Definition directory_get_chromium_extension (directory : string)
  : M string :=
  do f <- os_path_isdir directory;
  if negb f then
    do_ print_error (dquote +:+ directory +:+ dquote
                     +:+ " is not a directory or does not exist");
    ret ""
  else
    do names <- os_listdir directory;
    let directories := sorted_descending names in
    match directories with
    | [] =>
        do_ print_error (dquote +:+ directory +:+ dquote
                         +:+ " directory is empty");
        ret ""
    | first :: _ =>
        let directory := path_join directory [first] in
        do m <- directory_has_manifest directory;
        if m then ret directory else ret ""
    end.

Definition directory_create_tmp : M string :=
  do cwd <- perform GetCwd;
  do cwd <- as_str cwd;
  do r <- perform (MkDtemp "automation_" "_session" cwd);
  as_str r.

Definition directory_get_firefox_extension (directory identifier : string)
  : M string :=
  do f <- os_path_isdir directory;
  if negb f then
    do_ print_error (dquote +:+ directory +:+ dquote
                     +:+ " is not a directory or does not exist");
    ret ""
  else
    do names <- os_listdir directory;
    let directories := sorted_descending names in
    let directories :=
      List.filter (ends_with ".default-release") directories in
    match directories with
    | [] =>
        do_ print_error ("No " +:+ dquote +:+ "*.default-release" +:+ dquote
                         +:+ " directory was found in " +:+ dquote
                         +:+ directory +:+ dquote +:+ " directory");
        ret ""
    | first :: _ =>
        let file := path_join directory [first; "extensions"; identifier] in
        do f <- os_path_isfile file;
        if negb f then
          do_ print_error (dquote +:+ file +:+ dquote
                           +:+ " is not a file or does not exist");
          ret ""
        else ret file
    end.

(** [context[system][browser]] of [directory_get_browser_extension]. *)
Definition context_path (user identifier system browser : string)
  : M string :=
  if String.eqb system "darwin" then
    if String.eqb browser "chromium" then
      ret (path_join user
             ["Library"; "Application Support"; "Google"; "Chrome";
              "Default"; "Extensions"; identifier])
    else if String.eqb browser "firefox" then
      ret (path_join user
             ["Library"; "Application Support"; "Firefox"; "Profiles"])
    else raise (OtherError "KeyError")
  else if String.eqb system "windows" then
    if String.eqb browser "chromium" then
      ret (path_join user
             ["AppData"; "Local"; "Google"; "Chrome"; "User Data"; "Default";
              "Extensions"; identifier])
    else if String.eqb browser "firefox" then ret ""
    else raise (OtherError "KeyError")
  else if String.eqb system "linux" then
    if String.eqb browser "chromium" then
      ret (path_join user
             [".config"; "google-chrome"; "Default"; "Extensions";
              identifier])
    else if String.eqb browser "firefox" then ret ""
    else raise (OtherError "KeyError")
  else raise (OtherError "KeyError").

Definition directory_get_browser_extension (browser identifier : string)
  : M string :=
  do system <- perform PlatformSystem;
  do system <- as_str system;
  let system := Py.lower system in
  do user <- perform (ExpandUser "~");
  do user <- as_str user;
  do extension <-
    (if String.eqb browser "chromium" then
       do directory <- context_path user identifier system browser;
       directory_get_chromium_extension directory
     else
       do directory <- context_path user identifier system browser;
       directory_get_firefox_extension directory identifier);
  do_ (if negb (Py.truthy extension) then
         print_error ("Browser extension was not found, please pass it manually using the "
                      +:+ dquote +:+ "-e" +:+ dquote +:+ " option")
       else ret tt);
  ret extension.

(** The copy of the extension into the session: a directory for
    chromium, a file otherwise. *)
Definition copy_extension (browser extension destination : string) : M bool :=
  if String.eqb browser "chromium" then
    do_ print_info ("Copying " +:+ dquote +:+ extension +:+ dquote
                    +:+ " directory to " +:+ dquote +:+ destination
                    +:+ dquote +:+ " directory...");
    directory_copy extension destination
  else
    do_ print_info ("Copying " +:+ dquote +:+ extension +:+ dquote
                    +:+ " file to " +:+ dquote +:+ destination +:+ dquote
                    +:+ " file...");
    file_copy extension destination.

(** [Test.__get_environment]; the result is the pair [session,
    destination]. *)
Definition __get_environment
  (browser session extension identifier destination : string)
  : M (string * string) :=
  do st <-
    (if negb (Py.truthy session) then
       do session <- directory_create_tmp;
       do_ print_info ("User session directory was not specified, creating a new "
                       +:+ dquote +:+ session +:+ dquote
                       +:+ " random directory...");
       do_ print_info ("Next time, to continue using the same browser session, run the following command:"
                       +:+ Py.LF +:+ "    python3 automation.py -s "
                       +:+ dquote +:+ session +:+ dquote);
       ret (true, session)
     else
       do success <- directory_create session;
       ret (success, session));
  let session := snd st in
  do st <-
    (if fst st then
       let destination :=
         path_join session
           [if String.eqb browser "chromium" then destination
            else destination +:+ ".xpi"] in
       if Py.truthy extension then
         do success <-
           (if String.eqb browser "chromium"
            then directory_has_manifest extension else ret true);
         if success then
           do success <- copy_extension browser extension destination;
           ret (success, destination)
         else ret (success, destination)
       else
         do e <- os_path_exists destination;
         if e then ret (true, destination)
         else
           do_ print_info "Searching for the browser extension...";
           do extension <- directory_get_browser_extension browser identifier;
           let success := Py.truthy extension in
           if success then
             do success <- copy_extension browser extension destination;
             ret (success, destination)
           else ret (success, destination)
     else ret (false, destination));
  if negb (fst st) then
    do_ print_info ("Removing " +:+ dquote +:+ session +:+ dquote
                    +:+ " directory...");
    do_ directory_remove session;
    exit
  else ret (session, snd st).

End Helpers.
End Os.

(** ** Reading a trace of the helpers *)

(** The console lines, the requests that change the disk, the yes/no
    questions with their answers, and what the operator typed. *)
Definition os_console (t : list Os.event) : list line :=
  omap (λ e, match e with Os.Print l => Some l | _ => None end) t.

Definition os_changes (t : list Os.event) : list Os.call :=
  omap (λ e, match e with
             | Os.Call (Os.Remove p) _ => Some (Os.Remove p)
             | Os.Call (Os.CopyFile a b) _ => Some (Os.CopyFile a b)
             | Os.Call (Os.RmTree p) _ => Some (Os.RmTree p)
             | Os.Call (Os.MkDir p) _ => Some (Os.MkDir p)
             | Os.Call (Os.CopyTree a b) _ => Some (Os.CopyTree a b)
             | Os.Call (Os.MkDtemp a b c) _ => Some (Os.MkDtemp a b c)
             | _ => None
             end) t.

(** The changes that were carried out: the request returned. *)
Definition os_done (t : list Os.event) : list Os.call :=
  omap (λ e, match e with
             | Os.Call (Os.Remove p) (Return _) => Some (Os.Remove p)
             | Os.Call (Os.CopyFile a b) (Return _) => Some (Os.CopyFile a b)
             | Os.Call (Os.RmTree p) (Return _) => Some (Os.RmTree p)
             | Os.Call (Os.MkDir p) (Return _) => Some (Os.MkDir p)
             | Os.Call (Os.CopyTree a b) (Return _) => Some (Os.CopyTree a b)
             | Os.Call (Os.MkDtemp a b c) (Return _) =>
                 Some (Os.MkDtemp a b c)
             | _ => None
             end) t.

Definition os_asked (t : list Os.event) : list (Os.call * bool) :=
  omap (λ e, match e with
             | Os.Call (Os.Exists p) (Return (Os.RBool b)) =>
                 Some (Os.Exists p, b)
             | Os.Call (Os.IsFile p) (Return (Os.RBool b)) =>
                 Some (Os.IsFile p, b)
             | Os.Call (Os.IsDir p) (Return (Os.RBool b)) =>
                 Some (Os.IsDir p, b)
             | _ => None
             end) t.

Definition os_answers (t : list Os.event) : list string :=
  omap (λ e, match e with
             | Os.Call (Os.Input _) (Return (Os.RStr a)) => Some a
             | _ => None
             end) t.

Definition os_listings (t : list Os.event) : list (string * list string) :=
  omap (λ e, match e with
             | Os.Call (Os.ListDir p) (Return (Os.RNames l)) => Some (p, l)
             | _ => None
             end) t.

(** The error lines of a trace, and the answers of the operator that
    are no confirmation. *)
Definition os_errors (t : list Os.event) : list string :=
  omap (λ e, match e with Os.Print (Error l) => Some l | _ => None end) t.

Definition os_declined (t : list Os.event) : list string :=
  List.filter (λ a, negb (Os.confirmed (Py.lower a))) (os_answers t).

(** An exception that leaves a helper was raised by its last request,
    or is the [TypeError] of an answer of the wrong type or the
    [KeyError] of an unknown system or browser. *)
Definition os_propagated {A} (o : result A) (t : list Os.event) : Prop :=
  ∀ e, o = Raise e →
    (∃ c, last t = Some (Os.Call c (Raise e)))
    ∨ e = TypeError ∨ e = OtherError "KeyError".

(** A helper that returns a [good] value has printed no error and was
    never answered no. *)
Definition os_clean {A} (good : A → bool) (o : result A)
  (t : list Os.event) : Prop :=
  (∀ x, o = Return x → good x = true →
     os_errors t = [] ∧ os_declined t = [])
  ∧ os_propagated o t.

(** The line [__get_environment] prints before it removes the session
    directory, and the traces that end with the removal of [session]:
    the line, then a run of [directory_remove]. *)
Definition removing (session : string) : line :=
  Info ("Removing " +:+ dquote +:+ session +:+ dquote +:+ " directory...").

Definition removal (session : string) (t : list Os.event) : Prop :=
  os_changes t = []
  ∨ (os_changes t = [Os.RmTree session]
     ∧ os_asked t = [(Os.Exists session, true); (Os.IsDir session, true)]).

Definition ends_removing (session : string) (t : list Os.event) : Prop :=
  ∃ t1 t2, t = t1 ++ Os.Print (removing session) :: t2 ∧ removal session t2.

(** The name of the copy of the extension in the session directory. *)
Definition destination_name (browser destination : string) : string :=
  if String.eqb browser "chromium" then destination
  else destination +:+ ".xpi".

(** What a run of [__get_environment] leaves. *)
Definition environment_post {S : Os.System}
  (browser session destination : string)
  (o : result (string * string)) (t : list Os.event) : Prop :=
  (∀ s d, o = Return (s, d) →
     os_errors t = [] ∧ os_declined t = []
     ∧ d = Os.path_join s [destination_name browser destination]
     ∧ (session ≠ "" → s = session))
  ∧ (∀ e, o = Raise e →
       (∃ c, last t = Some (Os.Call c (Raise e)))
       ∨ e = TypeError ∨ e = OtherError "KeyError"
       ∨ (e = OtherError "SystemExit"
          ∧ ∃ s, (session ≠ "" → s = session) ∧ ends_removing s t)).

Definition os_hoare {S : Os.System} {A} (m : Os.M A)
  (Q : result A → list Os.event → Prop) : Prop :=
  ∀ d, Q (Os.outcome (m d)) (Os.trace (m d)).

(** ** A scripted disk, to run the helpers on *)

Record disk := {
  d_files : list string;
  d_dirs : list string;
  d_names : list (string * list string);  (* what [os.listdir] finds *)
  d_answer : string;                      (* what the operator types *)
  d_platform : string
}.

Definition on_disk (p : string) (l : list string) : bool :=
  existsb (String.eqb p) l.

Definition without (p : string) (l : list string) : list string :=
  List.filter (λ q, negb (String.eqb p q)) l.

Definition disk_with (d : disk) (files dirs : list string)
  (names : list (string * list string)) : disk :=
  {| d_files := files; d_dirs := dirs; d_names := names;
     d_answer := d_answer d; d_platform := d_platform d |}.

Definition listing (d : disk) (p : string) : option (list string) :=
  match List.find (λ e, String.eqb (fst e) p) (d_names d) with
  | Some e => Some (snd e)
  | None => None
  end.

(** [posixpath.join]. *)
Definition posix_join (a : string) (names : list string) : string :=
  foldl (λ path b,
           if Py.startswith "/" b then b
           else if negb (Py.truthy path) || ends_with "/" path
                then path +:+ b
                else path +:+ "/" +:+ b) a names.

Definition disk_syscall (c : Os.call) (d : disk) : result Os.resp * disk :=
  match c with
  | Os.Exists p =>
      (Return (Os.RBool (on_disk p (d_files d) || on_disk p (d_dirs d))), d)
  | Os.IsFile p => (Return (Os.RBool (on_disk p (d_files d))), d)
  | Os.IsDir p => (Return (Os.RBool (on_disk p (d_dirs d))), d)
  | Os.Remove p =>
      if on_disk p (d_files d)
      then (Return Os.RNone,
            disk_with d (without p (d_files d)) (d_dirs d) (d_names d))
      else (Raise (OtherError "FileNotFoundError"), d)
  | Os.CopyFile s p =>
      if on_disk s (d_files d)
      then (Return Os.RNone,
            disk_with d (p :: without p (d_files d)) (d_dirs d) (d_names d))
      else (Raise (OtherError "FileNotFoundError"), d)
  | Os.RmTree p =>
      if on_disk p (d_dirs d)
      then (Return Os.RNone,
            disk_with d
              (List.filter (λ q, negb (Py.startswith (p +:+ "/") q))
                 (d_files d))
              (List.filter (λ q, negb (Py.startswith (p +:+ "/") q))
                 (without p (d_dirs d)))
              (d_names d))
      else (Raise (OtherError "FileNotFoundError"), d)
  | Os.MkDir p =>
      if on_disk p (d_files d) || on_disk p (d_dirs d)
      then (Raise (OtherError "FileExistsError"), d)
      else (Return Os.RNone,
            disk_with d (d_files d) (p :: d_dirs d) ((p, []) :: d_names d))
  | Os.CopyTree s p =>
      if on_disk s (d_dirs d)
         && negb (on_disk p (d_files d) || on_disk p (d_dirs d))
      then (Return Os.RNone,
            disk_with d (d_files d) (p :: d_dirs d)
              ((p, default [] (listing d s)) :: d_names d))
      else (Raise (OtherError "FileExistsError"), d)
  | Os.ListDir p =>
      match listing d p with
      | Some l => (Return (Os.RNames l), d)
      | None => (Raise (OtherError "FileNotFoundError"), d)
      end
  | Os.GetCwd => (Return (Os.RStr "/work"), d)
  | Os.MkDtemp prefix suffix dir =>
      let p := dir +:+ "/" +:+ prefix +:+ "x" +:+ suffix in
      (Return (Os.RStr p),
       disk_with d (d_files d) (p :: d_dirs d) ((p, []) :: d_names d))
  | Os.PlatformSystem => (Return (Os.RStr (d_platform d)), d)
  | Os.ExpandUser _ => (Return (Os.RStr "/home/user"), d)
  | Os.Input _ => (Return (Os.RStr (d_answer d)), d)
  end.

Definition disk_system : Os.System :=
  {| Os.Disk := disk; Os.syscall := disk_syscall;
     Os.path_join := posix_join |}.

(** A session directory that holds a copy of the extension already, an
    extension directory whose manifest is spelled in capitals, two
    files, and an operator who answers [answer]. *)
Definition sample_disk (answer : string) : disk :=
  {| d_files := ["a.txt"; "b.txt"; "session/Preferences"];
     d_dirs := ["session"; "session/browser_extension"; "dist";
                "/home/user/.config/google-chrome/Default/Extensions/id";
                "/home/user/.config/google-chrome/Default/Extensions/id/9.0.0_0"];
     d_names := [("dist", ["background.js"; "Manifest.JSON"]);
                 ("/home/user/.config/google-chrome/Default/Extensions/id",
                  ["11.13.1_0"; "9.0.0_0"]);
                 ("/home/user/.config/google-chrome/Default/Extensions/id/9.0.0_0",
                  ["manifest.json"])];
     d_answer := answer;
     d_platform := "Linux" |}.

(** * Properties *)

(** ** Deduplication *)

Section Unique.
Implicit Types (l : list string) (seen : gset string).

Lemma unique_from_filter seen l :
  unique_from seen l = filter (λ y, y ∉ seen) (first_occurrences l).
Proof.
  revert seen. induction l as [|x r IH]; intros seen; simpl; [done|].
  destruct (decide (x ∈ seen)) as [Hin|Hout].
  - rewrite filter_cons_False by (intros Hx; apply Hx, Hin).
    rewrite IH, list_filter_filter. apply list_filter_iff.
    intros y. split; [|tauto]. intros Hy. split; [done|]. congruence.
  - rewrite filter_cons_True by done. f_equal.
    rewrite IH, list_filter_filter. apply list_filter_iff.
    intros y. rewrite not_elem_of_union, not_elem_of_singleton. tauto.
Qed.

Lemma unique_first_occurrences l : unique l false = first_occurrences l.
Proof.
  unfold unique. simpl. rewrite unique_from_filter.
  induction (first_occurrences l) as [|y r IH]; [done|].
  rewrite filter_cons_True by apply not_elem_of_empty. by f_equal.
Qed.

Lemma first_occurrences_elem l x : x ∈ first_occurrences l ↔ x ∈ l.
Proof.
  induction l as [|y r IH]; simpl; [done|].
  rewrite !elem_of_cons, list_elem_of_filter, IH.
  destruct (decide (x = y)); tauto.
Qed.

Lemma first_occurrences_NoDup l : NoDup (first_occurrences l).
Proof.
  induction l as [|y r IH]; simpl; [constructor|].
  constructor.
  - rewrite list_elem_of_filter. intros [Hne _]. by apply Hne.
  - by apply NoDup_filter.
Qed.

Lemma first_occurrences_id l : NoDup l → first_occurrences l = l.
Proof.
  induction 1 as [|x r Hx _ IH]; simpl; [done|].
  rewrite IH. f_equal.
  clear IH. induction r as [|y r' IHr]; [done|].
  apply not_elem_of_cons in Hx as [Hne Hx].
  rewrite filter_cons_True by done. f_equal. by apply IHr.
Qed.

Lemma unique_NoDup l : NoDup (unique l false).
Proof. rewrite unique_first_occurrences. apply first_occurrences_NoDup. Qed.

End Unique.

(** C8. The deduplication step of the catalog, [unique] without sorting,
    is idempotent: applied to its own result it returns it unchanged,
    in the same order. *)
Theorem unique_idempotent (xs : list string) :
  unique (unique xs false) false = unique xs false.
Proof.
  rewrite !unique_first_occurrences.
  apply first_occurrences_id, first_occurrences_NoDup.
Qed.

(** ** The target catalog *)

Lemma foldl_append_fragment page paths frs :
  foldl (append_fragment page) paths frs
  = paths ++ map (λ f, page +:+ f) (omap normal_fragment frs).
Proof.
  revert paths. induction frs as [|f frs IH]; intros paths; simpl.
  - by rewrite app_nil_r.
  - rewrite IH. unfold append_fragment, normal_fragment.
    destruct (Py.truthy _); simpl; [|done].
    by rewrite <- app_assoc.
Qed.

Lemma foldl_append_page frs paths pgs :
  foldl (append_page frs) paths pgs = paths ++ normal_cross_product pgs frs.
Proof.
  revert paths. induction pgs as [|pg pgs IH]; intros paths; simpl.
  - by rewrite app_nil_r.
  - rewrite IH. unfold append_page, normal_page.
    destruct (Py.truthy _); simpl; [|done].
    rewrite foldl_append_fragment, <- !app_assoc. done.
Qed.

Lemma build_paths_cross_product pgs frs :
  build_paths pgs frs = normal_cross_product pgs frs.
Proof. unfold build_paths. by rewrite foldl_append_page. Qed.

(** C3. The catalog is the order-preserving deduplication of the cross
    product of pages and fragments, the bare page before its fragment
    combinations: for any two lists once each page and fragment is put
    in the form [/name.html] and [#name], and literally for the fixed
    lists of the program; for the pages [/home.html] and the fragments
    [#send], [#settings] it is the three entries of the scenario. *)
Theorem catalog_is_cross_product :
  (∀ pgs frs,
     unique (build_paths pgs frs) false
     = first_occurrences (normal_cross_product pgs frs)
     ∧ NoDup (unique (build_paths pgs frs) false))
  ∧ unique (build_paths pages fragments) false
    = first_occurrences (cross_product pages fragments)
  ∧ unique (build_paths pages fragments) false
    = "/home.html" :: map (λ f, "/home.html" +:+ f) fragments
  ∧ unique (build_paths ["/home.html"] ["#send"; "#settings"]) false
    = ["/home.html"; "/home.html#send"; "/home.html#settings"].
Proof.
  split; [|split; [|split]].
  - intros pgs frs. split; [|apply unique_NoDup].
    by rewrite unique_first_occurrences, build_paths_cross_product.
  - rewrite unique_first_occurrences. vm_compute. reflexivity.
  - rewrite unique_first_occurrences. vm_compute. reflexivity.
  - rewrite unique_first_occurrences. vm_compute. reflexivity.
Qed.

(** ** A logic of runs *)

Section Logic.
Context {D : Driver}.

Lemma hoare_conseq {A} sb (m : M A)
  (P Q : result A → sandbox → list event → Prop) :
  hoare sb m P → (∀ o sb' t, P o sb' t → Q o sb' t) → hoare sb m Q.
Proof. intros Hm HPQ s Hs. apply HPQ, Hm, Hs. Qed.

Lemma hoare_ret {A} sb (a : A) Q : Q (Return a) sb [] → hoare sb (ret a) Q.
Proof. intros HQ s <-. exact HQ. Qed.

Lemma hoare_raise {A} sb e (Q : result A → sandbox → list event → Prop) :
  Q (Raise e) sb [] → hoare sb (raise e) Q.
Proof. intros HQ s <-. exact HQ. Qed.

Lemma hoare_perform sb c Q :
  (∀ a, Q a sb [Call c a]) → hoare sb (perform c) Q.
Proof. intros HQ s <-. apply HQ. Qed.

Lemma hoare_print sb l Q : Q (Return tt) sb [Print l] → hoare sb (print l) Q.
Proof. intros HQ s <-. exact HQ. Qed.

Lemma hoare_bind {A B} sb (m : M A) (k : A → M B) P Q :
  hoare sb m P →
  (∀ a sb1 t1, P (Return a) sb1 t1 →
     hoare sb1 (k a) (λ o sb2 t2, Q o sb2 (t1 ++ t2))) →
  (∀ e sb1 t1, P (Raise e) sb1 t1 → Q (Raise e) sb1 t1) →
  hoare sb (bind m k) Q.
Proof.
  intros Hm Hk He s Hs. specialize (Hm s Hs). unfold bind.
  destruct (outcome (m s)) as [a|e] eqn:Ho; simpl.
  - exact (Hk a _ _ Hm (final (m s)) eq_refl).
  - exact (He e _ _ Hm).
Qed.

Lemma hoare_assoc {A B C} sb (m : M A) (f : A → M B) (g : B → M C) Q :
  hoare sb (bind m (λ a, bind (f a) g)) Q → hoare sb (bind (bind m f) g) Q.
Proof.
  intros H s Hs. specialize (H s Hs). unfold bind in *.
  destruct (outcome (m s)); simpl in *; [|exact H].
  destruct (outcome (f a (final (m s)))); simpl in *; [|exact H].
  by rewrite <- app_assoc.
Qed.

Lemma hoare_bind_ret {A B} sb (a : A) (k : A → M B) Q :
  hoare sb (k a) Q → hoare sb (bind (ret a) k) Q.
Proof. intros H s Hs. exact (H s Hs). Qed.

Lemma hoare_bind_raise {A B} sb e (k : A → M B) Q :
  Q (Raise e) sb [] → hoare sb (bind (raise e) k) Q.
Proof. intros H s <-. exact H. Qed.

Lemma hoare_bind_perform {B} sb c (k : resp → M B) Q :
  (∀ a, match a with
        | Return v => hoare sb (k v) (λ o sb' t, Q o sb' (Call c a :: t))
        | Raise e => Q (Raise e) sb [Call c a]
        end) →
  hoare sb (bind (perform c) k) Q.
Proof.
  intros H s <-. unfold bind, perform. simpl.
  specialize (H (transport c (world s)).1).
  destruct ((transport c (world s)).1); simpl; [|exact H].
  exact (H {| self := self s; world := (transport c (world s)).2 |} eq_refl).
Qed.

Lemma hoare_bind_print {B} sb l (k : unit → M B) Q :
  hoare sb (k tt) (λ o sb' t, Q o sb' (Print l :: t)) →
  hoare sb (bind (print l) k) Q.
Proof. intros H s Hs. exact (H s Hs). Qed.

Lemma hoare_bind_get_settings {B} sb (k : settings → M B) Q :
  hoare sb (k (sb_settings sb)) Q → hoare sb (bind get_settings k) Q.
Proof.
  intros H s Hs. specialize (H s Hs). unfold bind, get_settings. simpl.
  by subst sb.
Qed.

Lemma hoare_bind_get_self {B} sb (k : sandbox → M B) Q :
  hoare sb (k sb) Q → hoare sb (bind get_self k) Q.
Proof.
  intros H s Hs. specialize (H s Hs). unfold bind, get_self. simpl.
  by subst sb.
Qed.

Lemma hoare_bind_set_self {B} sb sb' (k : unit → M B) Q :
  hoare sb' (k tt) Q → hoare sb (bind (set_self sb') k) Q.
Proof.
  intros H s Hs. unfold bind, set_self. simpl.
  exact (H {| self := sb'; world := world s |} eq_refl).
Qed.

Lemma hoare_bind_stat {B} sb file (k : file_status → M B) Q :
  hoare sb (k (stat_file file)) Q → hoare sb (bind (stat file) k) Q.
Proof. intros H s Hs. exact (H s Hs). Qed.

End Logic.

Create HintDb sandbox.
#[export] Hint Unfold
  print_info print_alert print_error print_action read_array
  Sandbox.as_bool Sandbox.as_str Sandbox.as_page
  Sandbox.set_setting_url_base Sandbox.__get_url
  Sandbox.browser_start Sandbox.browser_stop
  Sandbox.__new_page Sandbox.__close Sandbox.__wait Sandbox.__goto
  Sandbox.__goto_browser_extension Sandbox.__get_text Sandbox.__get_size
  Sandbox.__is_visible Sandbox.__fill Sandbox.__fill_sequentially
  Sandbox.__tick Sandbox.__submit Sandbox.__create_password_submit
  Sandbox.__fill_password_submit Sandbox.__fill_sequentially_password_submit
  Sandbox.__created Sandbox.__is_created Sandbox.__is_not_created
  Sandbox.__locked Sandbox.__unlock Sandbox.__lock
  Sandbox.open Sandbox.create Sandbox.existing Sandbox.unlock
  Sandbox.unlock_brute_force Sandbox.idle_lock Sandbox.scan_target
  Sandbox.access_control : sandbox.

(** One step of symbolic execution: the head of the program decides the
    rule. *)
Ltac wp_if b :=
  let b' := eval cbv in b in
  lazymatch b' with
  | true => change b with true; cbv iota
  | false => change b with false; cbv iota
  | _ =>
      let Hb := fresh "Hb" in
      destruct b eqn:Hb; try (cbn in Hb; discriminate Hb)
  end.

Ltac wp_step :=
  cbv beta zeta;
  lazymatch goal with
  | |- hoare _ (bind (bind _ _) _) _ => apply hoare_assoc
  | |- hoare _ (bind (perform _) _) _ =>
      apply hoare_bind_perform; intros [?|?]
  | |- hoare _ (bind (print _) _) _ => apply hoare_bind_print
  | |- hoare _ (bind get_settings _) _ => apply hoare_bind_get_settings
  | |- hoare _ (bind get_self _) _ => apply hoare_bind_get_self
  | |- hoare _ (bind (set_self _) _) _ => apply hoare_bind_set_self
  | |- hoare _ (bind (stat _) _) _ => apply hoare_bind_stat
  | |- hoare _ (bind (ret _) _) _ => apply hoare_bind_ret
  | |- hoare _ (bind (raise _) _) _ => apply hoare_bind_raise
  | |- hoare _ (bind (if ?b then _ else _) _) _ => wp_if b
  | |- hoare _ (bind (match ?x with _ => _ end) _) _ => destruct x eqn:?
  | |- hoare _ (ret _) _ => apply hoare_ret
  | |- hoare _ (raise _) _ => apply hoare_raise
  | |- hoare _ (perform _) _ => apply hoare_perform; intros ?
  | |- hoare _ (print _) _ => apply hoare_print
  | |- hoare _ (if ?b then _ else _) _ => wp_if b
  | |- hoare _ (match ?x with _ => _ end) _ => destruct x eqn:?
  end.

Ltac wp := autounfold with sandbox; repeat wp_step; cbv beta.

(** ** Reading the wordlist *)

Lemma truthy_true v : Py.truthy v = true ↔ v ≠ "".
Proof. by destruct v. Qed.

Lemma truthy_ne v : v ≠ "" → Py.truthy v = true.
Proof. apply truthy_true. Qed.

Lemma read_lines_filter stream array :
  read_lines stream array
  = array ++ filter (λ l, l ≠ "") (map Py.strip stream).
Proof.
  revert array. induction stream as [|line rest IH]; intros array; simpl.
  - by rewrite app_nil_r.
  - destruct (Py.truthy (Py.strip line)) eqn:Ht; rewrite IH.
    + rewrite filter_cons_True by by apply truthy_true.
      by rewrite <- app_assoc.
    + rewrite filter_cons_False; [done|].
      intros Hne. apply truthy_true in Hne. congruence.
Qed.

Lemma read_candidates content :
  unique (read_lines (Py.lines content) []) false = candidates content.
Proof. by rewrite unique_first_occurrences, read_lines_filter. Qed.

Lemma candidates_nonempty content : Forall (λ v, v ≠ "") (candidates content).
Proof.
  apply Forall_forall. intros v Hv. unfold candidates in Hv.
  apply first_occurrences_elem, list_elem_of_filter in Hv. tauto.
Qed.

Lemma lstrip_by_all_space s :
  all_space s = true → Py.lstrip_by Py.isspace s = "".
Proof.
  induction s as [|c s IH]; simpl; [done|].
  intros [Hc Hs]%andb_true_iff. rewrite Hc. by apply IH.
Qed.

Lemma strip_all_space line : all_space line = true → Py.strip line = "".
Proof.
  intros H. unfold Py.strip, Py.strip_by. by rewrite lstrip_by_all_space.
Qed.

Lemma get_extra_value_singleton v :
  get_extra_value {[ "value" := v ]} = v.
Proof. unfold get_extra_value. by rewrite lookup_singleton_eq. Qed.



(** ** The brute-force unlock probe *)

Section BruteForce.
Context {D : Driver}.

Lemma loop_aborted_now v wl e t :
  fills t = [v] → console t = [] → (∀ pd, attempts_from pd t = []) →
  loop_aborted (v :: wl) (Raise e) t.
Proof. intros Hf Hc Ha. by exists e, [], v, wl. Qed.

Lemma brute_force_loop_hoare sb p wl :
  Forall (λ v, v ≠ "") wl →
  hoare sb (Sandbox.brute_force_loop p wl)
    (λ o sb' t, sb' = sb
       ∧ (loop_found wl o t ∨ loop_exhausted wl o t ∨ loop_aborted wl o t)).
Proof.
  induction 1 as [|v wl Hv _ IH].
  - apply hoare_ret. split; [done|]. right; left. by repeat split.
  - cbn [Sandbox.brute_force_loop]. autounfold with sandbox.
    rewrite (truthy_ne _ Hv).
    repeat wp_step; cbv beta.
    all: try (split; [done|]; right; right; by apply loop_aborted_now).
    all: destruct b; try discriminate.
    all: try (split; [done|]; left; by exists [], v, wl).
    all: apply (hoare_conseq _ _ _ _ IH); intros o sb' t [-> H];
      split; [done|].
    all: destruct H as [(failed & pw & rest & -> & -> & Hf & Hc & Ha)
                       |[(-> & Hf & Hc & Ha)
                        |(e & failed & pw & rest & -> & -> & Hf & Hc & Ha)]];
      [ left; exists (v :: failed), pw, rest
      | right; left; unfold loop_exhausted
      | right; right; exists e, (v :: failed), pw, rest ].
    all: simpl; rewrite Hf, Hc; repeat split; try done.
    all: intros pd; by rewrite Ha.
Qed.

Lemma wordlist_nonempty path : Forall (λ v, v ≠ "") (wordlist_of path).
Proof.
  apply Forall_forall. intros v Hv. unfold wordlist_of in Hv.
  apply first_occurrences_elem, list_elem_of_filter in Hv. tauto.
Qed.

Lemma unlock_brute_force_hoare sb path :
  hoare sb (Sandbox.unlock_brute_force {[ "value" := path ]})
    (λ o sb' t, probe_post path o t).
Proof.
  unfold Sandbox.unlock_brute_force.
  rewrite get_extra_value_singleton.
  autounfold with sandbox.
  repeat (wp_step; rewrite ?read_candidates); cbv beta.
  all: try (left; by repeat split).
  all: match goal with
       | |- hoare _ (Sandbox.brute_force_loop ?p ?wl) _ =>
           assert (Hwl : wl = wordlist_of path)
       end.
  all: try (unfold wordlist_of, file_lines, candidates;
            match goal with H : stat_file _ = _ |- _ => rewrite H end; try done;
            match goal with H : negb (0 <? String.length ?c)%nat = true |- _ => by destruct c end).
  all: rewrite Hwl.
  all: apply (hoare_conseq _ _ _ _
         (brute_force_loop_hoare sb _ _ (wordlist_nonempty path)));
    intros o sb' t [_ H]; right; exists t; unfold read_errors;
    match goal with H : stat_file _ = _ |- _ => rewrite H end; repeat split; try done.
  all: match goal with
       | Hc : negb (0 <? String.length ?c)%nat = _ |- _ =>
           destruct c; try discriminate Hc; done
       end.
Qed.

Lemma loop_fills_prefix wl o t :
  loop_found wl o t ∨ loop_exhausted wl o t ∨ loop_aborted wl o t →
  fills t `prefix_of` wl.
Proof.
  intros [(failed & pw & rest & -> & _ & -> & _)
         |[(_ & -> & _)|(e & failed & pw & rest & -> & _ & -> & _)]].
  - exists rest. by rewrite <- app_assoc.
  - done.
  - exists rest. by rewrite <- app_assoc.
Qed.

End BruteForce.



(** C7, amended.  On the wordlist [a], [Password123!], [b], when the
    oracle answers "locked" after the first attempt and "not locked"
    after the second, the probe has made exactly two attempts, of which
    exactly one, [a], failed; it reports [Password123!] and never tries
    [b]. *)
Theorem scenario_two_attempts {D : Driver} (path : string) (s : state) :
  path ≠ "" → stat_file path = File scenario_wordlist →
  let r := Sandbox.unlock_brute_force {[ "value" := path ]} s in
  map snd (attempts (trace r)) = [true; false] →
  attempts (trace r) = [("a", true); ("Password123!", false)]
  ∧ failed_attempts (trace r) = ["a"]
  ∧ fills (trace r) = ["a"; "Password123!"]
  ∧ outcome r = Return tt
  ∧ console (trace r) = [loaded_line 3; Alert "Unlocked: Password123!"].
Proof.
  intros Hp Hf r Hans.
  assert (Hwl : wordlist_of path = ["a"; "Password123!"; "b"]).
  { unfold wordlist_of, file_lines. rewrite Hf. vm_compute. reflexivity. }
  assert (Herr : read_errors path = []).
  { unfold read_errors. rewrite Hf. reflexivity. }
  pose proof (unlock_brute_force_hoare (self s) path s eq_refl) as H.
  cbv beta in H. fold r in H. unfold probe_post in H.
  rewrite Hwl, Herr in H. clear Hwl Herr.
  assert (Htrue : ∀ l : list string,
            map snd (map (λ v, (v, true)) l) = map (λ _, true) l).
  { intros l. by rewrite map_map. }
  destruct H as [(Hfl & Hat & Hwd)|(t2 & Hfl & Hat & Hco & Hwd & H)].
  { by rewrite Hat in Hans. }
  unfold failed_attempts. rewrite Hfl, Hco, Hat in *.
  destruct H as [(failed & pw & rest & Hcand & Ho & Hf2 & Hc2 & Ha2)
                |[(Ho & Hf2 & Hc2 & Ha2)
                 |(e & failed & pw & rest & Hcand & Ho & Hf2 & Hc2 & Ha2)]];
    rewrite Ha2 in Hans; rewrite Hf2, Hc2, Ha2.
  - rewrite map_app, Htrue in Hans.
    destruct failed as [|x [|y failed]]; simplify_eq/=.
    done.
  - discriminate Hans.
  - rewrite Htrue in Hans.
    destruct failed as [|x [|y [|z failed]]]; simplify_eq/=.
Qed.

Lemma scenario_two_attempts_witness :
  failed_attempts
    (trace (@Sandbox.unlock_brute_force (wallet_driver sample_files)
              {[ "value" := "wordlist.txt" ]} started_state)) = ["a"].
Proof.
  assert (Hp : "wordlist.txt" ≠ "") by discriminate.
  destruct (@scenario_two_attempts (wallet_driver sample_files)
              "wordlist.txt" started_state Hp eq_refl)
    as (_ & Hfa & _).
  - vm_compute. reflexivity.
  - exact Hfa.
Defined.

(** C7 as stated fails: on the scenario the credential is reported
    after one failed attempt, not two. *)
Lemma scenario_one_failed_attempt :
  let t := trace (@Sandbox.unlock_brute_force (wallet_driver sample_files)
                    {[ "value" := "wordlist.txt" ]} started_state) in
  console t = [loaded_line 3; Alert "Unlocked: Password123!"]
  ∧ attempts t = [("a", true); ("Password123!", false)]
  ∧ List.length (failed_attempts t) = 1%nat
  ∧ List.length (failed_attempts t) ≠ 2%nat.
Proof. vm_compute. repeat split. discriminate. Qed.

(** C9. Whatever the probe types is a non-empty string, the stripped
    form of a line of the wordlist file; a blank line strips to the
    empty string, which is never typed; nothing is typed twice, and the
    typed values follow the first occurrences of the stripped lines. *)
Theorem brute_force_candidates_stripped {D : Driver} (path : string)
  (s : state) :
  let t := trace (Sandbox.unlock_brute_force {[ "value" := path ]} s) in
  (∀ v, v ∈ fills t →
     v ≠ "" ∧ ∃ line, line ∈ file_lines path ∧ v = Py.strip line)
  ∧ (∀ line, all_space line = true →
       Py.strip line = "" ∧ Py.strip line ∉ fills t)
  ∧ NoDup (fills t)
  ∧ fills t `prefix_of`
      first_occurrences
        (filter (λ l, l ≠ "") (map Py.strip (file_lines path))).
Proof.
  intros t.
  assert (Hpre : fills t `prefix_of` wordlist_of path).
  { pose proof (unlock_brute_force_hoare (self s) path s eq_refl) as H.
    cbv beta in H. fold t in H.
    destruct H as [(Hfl & _)|(t2 & Hfl & _ & _ & _ & H)]; rewrite Hfl.
    - apply prefix_nil.
    - by apply (loop_fills_prefix _ (outcome (Sandbox.unlock_brute_force {[ "value" := path ]} s))). }
  assert (Hin : ∀ v, v ∈ fills t →
            v ≠ "" ∧ ∃ line, line ∈ file_lines path ∧ v = Py.strip line).
  { intros v Hv. destruct Hpre as [k Hk].
    assert (Hv' : v ∈ wordlist_of path).
    { rewrite Hk. apply elem_of_app. by left. }
    unfold wordlist_of in Hv'.
    apply first_occurrences_elem, list_elem_of_filter in Hv' as [Hne Hv'].
    split; [done|]. apply list_elem_of_fmap in Hv' as (line & -> & Hl).
    by exists line. }
  split_and!; [done| | |done].
  - intros line Hsp. pose proof (strip_all_space _ Hsp) as Hs.
    split; [done|]. rewrite Hs. intros Hv. by destruct (Hin _ Hv).
  - destruct Hpre as [k Hk].
    pose proof (first_occurrences_NoDup
                  (filter (λ l, l ≠ "") (map Py.strip (file_lines path)))) as Hnd.
    fold (wordlist_of path) in Hnd. rewrite Hk in Hnd.
    by apply NoDup_app in Hnd as [Hnd _].
Qed.

(** ** The access-control scan *)

(** The leaves of the symbolic execution of one target. *)
Ltac flag_leaf :=
  intros flag tmp' Heq; injection Heq as <- <-;
  repeat match goal with
    | H : String.eqb _ _ = true |- _ => apply String.eqb_eq in H
    | H : String.eqb _ _ = false |- _ => apply String.eqb_neq in H
    | H : (_ <? _)%nat = true |- _ => apply Nat.ltb_lt in H
    | H : (_ <? _)%nat = false |- _ => apply Nat.ltb_ge in H
    end;
  unfold measured_size, leak_alert; simpl; rewrite ?Nat.add_0_r;
  split_and!;
  try (intros ->); try done; try lia;
  try (split; [intros; try done; try lia | intros [? ?]; try done; try lia]).

Section Scan.
Context {D : Driver}.

Lemma scan_target_hoare sb required success tmp path :
  hoare sb (Sandbox.scan_target required success tmp path)
    (λ o sb' t, sb' = sb
       ∧ target_post (extension_url (sb_settings sb) path) o t).
Proof.
  unfold extension_url.
  wp.
  all: split; [done|]; simpl.
  all: split; by auto.
Qed.

Lemma navigations_app t1 t2 :
  navigations (t1 ++ t2) = navigations t1 ++ navigations t2.
Proof. apply omap_app. Qed.

Lemma scan_loop_hoare sb required success tmp paths :
  hoare sb (Sandbox.scan_loop required success tmp paths)
    (λ o sb' t, sb' = sb
       ∧ scan_post (map (extension_url (sb_settings sb)) paths) o t).
Proof.
  revert success tmp. induction paths as [|path rest IH]; intros success tmp.
  - apply hoare_ret. split; [done|]. split; [done|].
    intros pd t'. by exists pd.
  - cbn [Sandbox.scan_loop map].
    eapply hoare_bind; [apply scan_target_hoare| |].
    + intros [flag tmp'] sb1 t1 [-> [Hn He]].
      eapply hoare_conseq; [apply IH|].
      intros o sb' t2 [-> H2]. split; [done|].
      destruct o as [x|e]; simpl in H2 |- *.
      * destruct H2 as [Hn2 He2]. rewrite navigations_app, Hn, Hn2.
        split; [done|]. intros pd t'.
        destruct (He2 None t') as [pd' Hpd'].
        exists pd'. by rewrite <- app_assoc, He, Hpd'.
      * destruct H2 as [Hn2 He2]. rewrite navigations_app, Hn.
        split; [by apply prefix_cons|].
        intros pd. rewrite He. by apply prefix_cons.
    + intros e sb1 t1 [-> [Hn He]]. split; [done|]. simpl. split.
      * destruct Hn as [-> | ->]; [apply prefix_nil|].
        apply prefix_cons, prefix_nil.
      * intros pd. destruct He as [He|He]; rewrite He; [apply prefix_nil|].
        apply prefix_cons, prefix_nil.
Qed.

Lemma scan_tail_hoare sb required paths :
  hoare sb
    (do st <- Sandbox.scan_loop required true None paths;
     do_ (if negb (fst st) then
            match snd st with
            | Some t => Sandbox.__close t true
            | None => raise (UnboundLocalError "tmp")
            end
          else ret tt);
     ret None)
    (λ o sb' t, tail_post (map (extension_url (sb_settings sb)) paths) o t).
Proof.
  eapply hoare_bind; [apply scan_loop_hoare| |].
  - intros [flag tmp'] sb1 t1 [-> [Hn He]]. unfold tail_post, evaluated.
    wp.
    all: rewrite ?navigations_app, ?app_nil_r, Hn; simpl.
    all: rewrite ?app_nil_r.
    all: match goal with
         | |- context [evaluated_from None (_ ++ ?t')] =>
             destruct (He None t') as [pd' ->]
         | |- _ => destruct (He None []) as [pd' Hpd'];
                   rewrite app_nil_r in Hpd'; rewrite Hpd'
         end; simpl; rewrite ?app_nil_r.
    all: by split_and!.
  - intros e sb1 t1 [-> [Hn He]]. unfold tail_post, evaluated.
    split_and!; [done|apply He|done].
Qed.

Lemma access_control_hoare sb v :
  Py.lower v = "locked" ∨ Py.lower v = "unlocked" →
  hoare sb (Sandbox.access_control {[ "value" := v ]})
    (λ o sb' t,
       access_post
         (map (extension_url (sb_settings sb))
            (unique (build_paths pages fragments) false)) o t).
Proof.
  intros Hv. unfold Sandbox.access_control.
  rewrite get_extra_value_singleton.
  destruct Hv as [-> | ->].
  all: autounfold with sandbox; repeat wp_step; cbv beta.
  all: try (split_and!; [apply prefix_nil|apply prefix_nil|done]).
  all: eapply hoare_conseq; [apply scan_tail_hoare|].
  all: intros o sb' t (Hn & He & Hr); unfold access_post; simpl.
  all: split_and!; [done|done|intros _; exact Hr].
Qed.
Lemma scan_target_flag sb required success tmp path :
  hoare sb (Sandbox.scan_target required success tmp path)
    (λ o sb' t, flag_post required (sb_settings sb) path o t).
Proof.
  wp.
  all: try (by intros flag tmp' Heq).
  all: flag_leaf.
Qed.

End Scan.

(** C2. For every target of the scan that is evaluated to the end: when
    the required state is locked, the target is flagged iff its measured
    size is at least 1 and the unlock button was answered not visible;
    when it is unlocked, iff the size is at least 1 and the balance
    overview was answered not visible; a target of size 0 is never
    flagged.  A
    flagged target, and only it, prints the alert with its size and
    address. *)
Theorem leak_flag_policy {D : Driver} (required : string) (success : bool)
  (tmp : option page) (path : string) (s : state) (flag : bool)
  (tmp' : option page) :
  let r := Sandbox.scan_target required success tmp path s in
  let size := measured_size (trace r) in
  outcome r = Return (flag, tmp') →
  (required = "locked" →
     (flag = true ↔ (1 ≤ size)%nat
                    ∧ visible_answer "button" "unlock" (trace r)
                      = Some false))
  ∧ (required = "unlocked" →
     (flag = true ↔ (1 ≤ size)%nat
                    ∧ visible_answer "div[class=wallet-overview__balance]" ""
                        (trace r) = Some false))
  ∧ (size = 0%nat → flag = false)
  ∧ console (trace r)
    = if flag then [leak_alert (sb_settings (self s)) path size] else [].
Proof.
  intros r size Ho.
  exact (scan_target_flag (self s) required success tmp path s eq_refl
           flag tmp' Ho).
Qed.

Lemma leak_flag_policy_witness :
  let r := @Sandbox.scan_target (wallet_driver sample_files) "locked" true
             None "/home.html#settings" locked_state in
  outcome r = Return (true, Some 0%nat)
  ∧ measured_size (trace r) = 9%nat
  ∧ visible_answer "button" "unlock" (trace r) = Some false
  ∧ console (trace r)
    = [Alert "Size: [    9] | URL: chrome-extension://nkbihfbeogaeaoehlefnkodbefgpgknn/home.html#settings"].
Proof.
  assert (Ho : outcome (@Sandbox.scan_target (wallet_driver sample_files)
                          "locked" true None "/home.html#settings"
                          locked_state) = Return (true, Some 0%nat))
    by (vm_compute; reflexivity).
  destruct (@leak_flag_policy (wallet_driver sample_files) "locked" true None
              "/home.html#settings" locked_state true (Some 0%nat) Ho)
    as (Hl & _ & _ & Hc).
  destruct (Hl eq_refl) as [Hfl _]. destruct (Hfl eq_refl) as [_ Hs].
  split_and!.
  - exact Ho.
  - vm_compute. reflexivity.
  - exact Hs.
  - rewrite Hc. vm_compute. reflexivity.
Defined.

Lemma catalog_urls_NoDup (st : settings) :
  NoDup (map (extension_url st) (unique (build_paths pages fragments) false)).
Proof.
  assert (Hcat : unique (build_paths pages fragments) false
                 = "/home.html" :: map (λ f, "/home.html" +:+ f) fragments).
  { rewrite unique_first_occurrences. vm_compute. reflexivity. }
  rewrite Hcat.
  set (f := λ p : string, "/" +:+ Py.lstrip_chars "/" p).
  assert (Hmap : map (extension_url st)
                   ("/home.html" :: map (λ f, "/home.html" +:+ f) fragments)
                 = map (String.append (url_base st))
                     (map f ("/home.html"
                             :: map (λ f, "/home.html" +:+ f) fragments))).
  { rewrite map_map. reflexivity. }
  rewrite Hmap. apply (NoDup_fmap_2 (String.append (url_base st))).
  apply (@bool_decide_unpack _ (NoDup_dec _)). vm_compute. exact I.
Qed.

(** C4. With a valid required state the scan loads and probes the
    targets of the deduplicated catalog in catalog order, none twice:
    what it evaluated is always a prefix of the catalog, and a run that
    announced the scan and returned has evaluated every entry exactly
    once, however many of them were flagged. *)
Theorem access_control_scans_catalog {D : Driver} (v : string) (s : state) :
  Py.lower v = "locked" ∨ Py.lower v = "unlocked" →
  let r := Sandbox.access_control {[ "value" := v ]} s in
  let catalog := unique (build_paths pages fragments) false in
  let urls := map (extension_url (sb_settings (self s))) catalog in
  NoDup catalog ∧ NoDup urls
  ∧ navigations (scan_part (trace r)) `prefix_of` urls
  ∧ evaluated (scan_part (trace r)) `prefix_of` urls
  ∧ (urls_announced (trace r) = true → ∀ x, outcome r = Return x →
     navigations (scan_part (trace r)) = urls
     ∧ evaluated (scan_part (trace r)) = urls).
Proof.
  intros Hv r catalog urls.
  split; [apply unique_NoDup|]. split; [apply catalog_urls_NoDup|].
  exact (access_control_hoare (self s) v Hv s eq_refl).
Qed.

Lemma access_control_scans_catalog_witness :
  let r := @Sandbox.access_control (wallet_driver sample_files)
             {[ "value" := "Locked" ]} started_state in
  List.length (evaluated (scan_part (trace r))) = 31%nat
  ∧ alerts (trace r)
    = ["Size: [    9] | URL: chrome-extension://nkbihfbeogaeaoehlefnkodbefgpgknn/home.html#settings"].
Proof.
  destruct (@access_control_scans_catalog (wallet_driver sample_files)
              "Locked" started_state (or_introl eq_refl))
    as (_ & _ & _ & _ & H).
  destruct (H eq_refl None) as [_ He].
  - vm_compute. reflexivity.
  - split.
    + rewrite He. vm_compute. reflexivity.
    + vm_compute. reflexivity.
Defined.

Section Invalid.
Context {D : Driver}.

Lemma access_control_invalid sb v :
  Py.lower v ≠ "locked" → Py.lower v ≠ "unlocked" →
  hoare sb (Sandbox.access_control {[ "value" := v ]})
    (λ o sb' t, invalid_post (sb_settings sb) o t).
Proof.
  intros H1%String.eqb_neq H2%String.eqb_neq. unfold Sandbox.access_control.
  rewrite get_extra_value_singleton, H1, H2.
  wp.
  all: unfold invalid_post, extension_url; simpl.
  all: split_and!; try done; try (by apply prefix_nil); try (by apply prefix_cons, prefix_nil).
  all: intros x Hx; injection Hx as <-; auto.
Qed.

End Invalid.

(** C10. The required state is compared in lower case, so [Locked] and
    [LOCKED] run as [locked] does; with any value whose lower-case form
    is neither [locked] nor [unlocked], the empty one included, the run
    only opens the home page and probes the create button: no target
    is loaded, nothing is typed or clicked, no lock address is visited,
    the catalog is not announced, and a run that returns has printed
    one error line and returned [0] (or the line of the wallet that is
    not created). *)
Theorem access_control_state_literal {D : Driver} :
  (Py.lower "Locked" = "locked" ∧ Py.lower "LOCKED" = "locked"
   ∧ Py.lower "Unlocked" = "unlocked")
  ∧ (∀ v1 v2, Py.lower v1 = Py.lower v2 →
       Sandbox.access_control {[ "value" := v1 ]}
       = Sandbox.access_control {[ "value" := v2 ]})
  ∧ (∀ v s,
       Py.lower v ≠ "locked" → Py.lower v ≠ "unlocked" →
       let r := Sandbox.access_control {[ "value" := v ]} s in
       forallb opening (requests (trace r)) = true
       ∧ navigations (trace r)
         `prefix_of` [extension_url (sb_settings (self s)) ""]
       ∧ scan_part (trace r) = []
       ∧ urls_announced (trace r) = false
       ∧ (∀ x, outcome r = Return x →
            (x = Some 0%Z ∧ console (trace r) = [Error lock_state_required])
            ∨ (x = None
               ∧ console (trace r) = [Error "Wallet is not created"]))).
Proof.
  split; [by split_and!|]. split.
  - intros v1 v2 Hv. unfold Sandbox.access_control.
    by rewrite !get_extra_value_singleton, Hv.
  - intros v s H1 H2. exact (access_control_invalid (self s) v H1 H2 s eq_refl).
Qed.

Lemma access_control_state_literal_witness :
  let r := @Sandbox.access_control (wallet_driver sample_files)
             {[ "value" := "" ]} started_state in
  outcome r = Return (Some 0%Z)
  ∧ console (trace r) = [Error lock_state_required]
  ∧ requests (trace r)
    = [NewPage;
       PageGoto 0 "chrome-extension://nkbihfbeogaeaoehlefnkodbefgpgknn/home.html";
       Sleep 2; WaitForLoadState 0 "load";
       IsVisible 0 "button" "create a new wallet"].
Proof.
  destruct (@access_control_state_literal (wallet_driver sample_files))
    as (_ & _ & H).
  assert (H1 : Py.lower "" ≠ "locked") by discriminate.
  assert (H2 : Py.lower "" ≠ "unlocked") by discriminate.
  destruct (H "" started_state H1 H2) as (_ & _ & _ & _ & Hr).
  assert (Ho : outcome (@Sandbox.access_control (wallet_driver sample_files)
                          {[ "value" := "" ]} started_state)
               = Return (Some 0%Z)) by (vm_compute; reflexivity).
  destruct (Hr _ Ho) as [[_ Hc]|[Hx _]]; [|discriminate Hx].
  split_and!; [exact Ho|exact Hc|vm_compute; reflexivity].
Defined.

(** ** The runner *)

Section Keeps.
Context {D : Driver}.









End Keeps.



Section Flows.
Context {D : Driver}.










End Flows.



(** ** Missing values *)

Section Missing.
Context {D : Driver}.

Lemma hoare_any {A} sb (m : M A) (Q : result A → sandbox → list event → Prop) :
  (∀ o sb' t, Q o sb' t) → hoare sb m Q.
Proof. intros H s _. apply H. Qed.






End Missing.



(** ** Worked runs *)

(** A wordlist with padded, blank and repeated lines: the probe types
    [a] and [b] once each and ends without a finding. *)
Example spaced_wordlist_run :
  let r := @Sandbox.unlock_brute_force (wallet_driver sample_files)
             {[ "value" := "spaced.txt" ]} started_state in
  fills (trace r) = ["a"; "b"]
  ∧ attempts (trace r) = [("a", true); ("b", true)]
  ∧ outcome r = Return tt
  ∧ console (trace r) = [loaded_line 2].
Proof. vm_compute. by split_and!. Qed.

(** The choice [brute_force_unlock] of the parser names no method of
    [Sandbox] (the method is [unlock_brute_force]): the browser is
    started, [getattr] raises, and the teardown still runs. *)
Example brute_force_unlock_choice :
  let r := @Test.run (wallet_driver sample_files) "brute_force_unlock"
             "wordlist.txt" sample_state in
  outcome r = Raise (AttributeError "brute_force_unlock")
  ∧ In "brute_force_unlock" Test.tests
  ∧ ¬ In "unlock_brute_force" Test.tests
  ∧ requests (trace r)
    = [PlaywrightStart;
       LaunchPersistentContext "chromium" "/tmp/automation_session"
         "/tmp/automation_session/browser_extension"
         "/tmp/automation_session/downloads";
       GrantPermissions "camera"; SetDefaultTimeout 30000; GetUrl;
       ContextClose; PlaywrightStop; EventLoopStop; EventLoopClose].
Proof.
  split_and!.
  - vm_compute. reflexivity.
  - simpl. tauto.
  - simpl. intros H. repeat (destruct H as [H|H]; [discriminate H|]). done.
  - vm_compute. reflexivity.
Qed.

(** A proxy makes [browser_start] read the attribute [__proxy], which
    the object does not have; the context is never set and the teardown
    raises in its turn. *)
Example proxy_run :
  let r := @Test.run (wallet_driver sample_files) "open" ""
             (wallet_state sample_files
                (Sandbox_init "chromium" "/tmp/automation_session"
                   "/tmp/automation_session/browser_extension" "Password123!"
                   2 false "http://127.0.0.1:8080")
                sample_wallet) in
  outcome r = Raise (AttributeError "close")
  ∧ requests (trace r) = [PlaywrightStart].
Proof. vm_compute. by split. Qed.

(** * Further properties of the code *)


Lemma truthy_app_r a b : Py.truthy b = true → Py.truthy (a +:+ b) = true.
Proof. destruct a; [done|]. reflexivity. Qed.

(** Symbolic execution that remembers the tests it has decided and
    splits on a boolean answer itself rather than on a test of it, so
    that no path is visited twice. *)
Ltac xwp_if b :=
  let b' := eval cbv in b in
  lazymatch b' with
  | true => change b with true; cbv iota
  | false => change b with false; cbv iota
  | _ =>
      first
        [ match goal with H : b = _ |- _ => rewrite H end
        | rewrite truthy_app_r by (vm_compute; reflexivity)
        | match b with
          | context [?x] =>
              is_var x;
              lazymatch type of x with bool => destruct x end
          end
        | let Hb := fresh "Hb" in
          destruct b eqn:Hb; try (cbn in Hb; discriminate Hb) ]
  end.

Ltac xwp_step :=
  cbv beta zeta;
  lazymatch goal with
  | |- hoare _ (bind (bind _ _) _) _ => apply hoare_assoc
  | |- hoare _ (bind (perform _) _) _ =>
      apply hoare_bind_perform; intros [?|?]
  | |- hoare _ (bind (print _) _) _ => apply hoare_bind_print
  | |- hoare _ (bind get_settings _) _ => apply hoare_bind_get_settings
  | |- hoare _ (bind get_self _) _ => apply hoare_bind_get_self
  | |- hoare _ (bind (set_self _) _) _ => apply hoare_bind_set_self
  | |- hoare _ (bind (stat _) _) _ => apply hoare_bind_stat
  | |- hoare _ (bind (ret _) _) _ => apply hoare_bind_ret
  | |- hoare _ (bind (raise _) _) _ => apply hoare_bind_raise
  | |- hoare _ (bind (if ?b then _ else _) _) _ => xwp_if b
  | |- hoare _ (bind (match ?x with _ => _ end) _) _ => destruct x
  | |- hoare _ (ret _) _ => apply hoare_ret
  | |- hoare _ (raise _) _ => apply hoare_raise
  | |- hoare _ (perform _) _ => apply hoare_perform; intros ?
  | |- hoare _ (print _) _ => apply hoare_print
  | |- hoare _ (if ?b then _ else _) _ => xwp_if b
  | |- hoare _ (match ?x with _ => _ end) _ => destruct x
  end.

Ltac xwp := autounfold with sandbox; repeat xwp_step; cbv beta.


(** ** More on deduplication and on reading a wordlist *)

Lemma first_occurrences_sublist (l : list string) :
  first_occurrences l `sublist_of` l.
Proof.
  induction l as [|x r IH]; simpl; [done|].
  apply sublist_skip. etrans; [apply sublist_filter|exact IH].
Qed.

(** X1. Without sorting, [unique] keeps the first occurrence of every
    element and drops the later ones: its result is a sublist of the
    input in the input's order, has no duplicates and the same elements,
    starts with the same element, and is the input itself exactly when
    the input has no duplicates. *)
Theorem unique_first_kept (xs : list string) :
  unique xs false `sublist_of` xs
  ∧ NoDup (unique xs false)
  ∧ (∀ x, x ∈ unique xs false ↔ x ∈ xs)
  ∧ head (unique xs false) = head xs
  ∧ (unique xs false = xs ↔ NoDup xs).
Proof.
  rewrite unique_first_occurrences. split_and!.
  - apply first_occurrences_sublist.
  - apply first_occurrences_NoDup.
  - intros x. apply first_occurrences_elem.
  - by destruct xs.
  - split; [intros <-; apply first_occurrences_NoDup
           |apply first_occurrences_id].
Qed.






Section ReadArray.
Context {D : Driver}.

End ReadArray.

Section Flows2.
Context {D : Driver}.

Lemma unlock_hoare sb kwargs :
  hoare sb (Sandbox.unlock kwargs)
    (λ o sb' t, unlock_post (sb_settings sb) (get_extra_value kwargs) o t).
Proof.
  unfold Sandbox.unlock.
  generalize (get_extra_value kwargs). intros v.
  xwp.
  all: unfold unlock_post, password_or_default; simpl.
  all: split_and!; auto; try done.
Qed.

Lemma create_hoare sb kwargs :
  hoare sb (Sandbox.create kwargs) (λ o sb' t, create_post (sb_settings sb) o t).
Proof.
  unfold Sandbox.create.
  xwp.
  all: unfold create_post; simpl; intros x Hx; try discriminate Hx.
  all: try (left; by split_and!).
  all: repeat rewrite truthy_app_r by (vm_compute; reflexivity).
  all: right; split_and!; reflexivity.
Qed.

Lemma idle_lock_hoare sb kwargs :
  hoare sb (Sandbox.idle_lock kwargs) (λ o sb' t, idle_lock_post o t).
Proof.
  unfold Sandbox.idle_lock.
  xwp.
  all: unfold idle_lock_post; simpl; intros x Hx; try discriminate Hx.
  all: try (left; by split_and!).
  all: right; eexists; split_and!; try reflexivity; simpl; auto 10.
Qed.
End Flows2.


Lemma split_char_nonempty sep s : Py.split_char sep s ≠ [].
Proof.
  induction s as [|c s IH]; simpl; [done|].
  destruct (Py.split_char sep s); [done|]. by destruct (Ascii.eqb c sep).
Qed.

Lemma join_cons_char sep c a tl :
  join sep (String c a :: tl) = String c (join sep (a :: tl)).
Proof. by destruct tl. Qed.

Lemma join_split_char (sep : ascii) (s : string) :
  join (String sep "") (Py.split_char sep s) = s.
Proof.
  induction s as [|c s IH]; simpl; [done|].
  pose proof (split_char_nonempty sep s) as Hne.
  destruct (Py.split_char sep s) as [|a tl]; [done|].
  destruct (Ascii.eqb c sep) eqn:Hc.
  - apply Ascii.eqb_eq in Hc as ->.
    change (join (String sep "") ("" :: a :: tl))
      with (String sep (join (String sep "") (a :: tl))).
    by rewrite IH.
  - by rewrite join_cons_char, IH.
Qed.

Lemma fields_from_values css i value :
  map snd (fields_from css i value) = value.
Proof.
  revert i. induction value as [|v rest IH]; intros i; simpl; [done|].
  by rewrite IH.
Qed.

Section Existing.
Context {D : Driver}.

Lemma fill_sequentially_hoare sb p css i value :
  hoare sb (Sandbox.fill_sequentially_from p css i value)
    (λ o sb' t, sb' = sb ∧ console t = [] ∧ typed t = [] ∧ clicks t = []
                ∧ ∀ x, o = Return x → pressed t = fields_from css i value).
Proof.
  revert i. induction value as [|v rest IH]; intros i;
    cbn [Sandbox.fill_sequentially_from fields_from].
  - by apply hoare_ret.
  - apply hoare_bind_perform. intros [a|e]; [|by split_and!].
    eapply hoare_conseq; [apply IH|]. intros o sb' t (-> & Hc & Ht & Hk & Hp).
    simpl. split_and!; try done. intros x Hx. by rewrite (Hp x Hx).
Qed.

Lemma existing_hoare sb m :
  hoare sb (Sandbox.existing {[ "value" := m ]})
    (λ o sb' t, existing_post (sb_settings sb) m o t).
Proof.
  unfold Sandbox.existing. rewrite get_extra_value_singleton.
  destruct (Py.truthy m) eqn:Hm.
  - xwp.
    all: try (intros x Hx; try discriminate Hx; left; by split_and!).
    all: eapply hoare_bind;
      [apply fill_sequentially_hoare| |intros e sb1 t1 _ x Hx; discriminate Hx].
    all: intros [] sb1 t1 (-> & Hc & Ht & Hk & Hp); specialize (Hp tt eq_refl).
    all: xwp.
    all: intros x Hx; try discriminate Hx.
    all: right; right; unfold pressed, typed, console in *; simpl;
      rewrite !omap_app, ?Hc, ?Ht, ?Hp; simpl;
      repeat rewrite truthy_app_r by (vm_compute; reflexivity);
      rewrite ?app_nil_r, ?fields_from_values.
    all: split_and!; try reflexivity.
    all: try (by apply truthy_true).
    all: try apply (join_split_char " ").
  - destruct m; [|discriminate Hm]. xwp.
    all: intros x Hx; try discriminate Hx.
    all: try (left; by split_and!).
    all: right; left; by split_and!.
Qed.
End Existing.


Section KeepsOn.
Context {D : Driver}.

Lemma keeps_on_ret {A} sb P (a : A) : keeps_on sb P (ret a).
Proof. by apply hoare_ret. Qed.

Lemma keeps_on_raise {A} sb P e : keeps_on sb P (raise (A := A) e).
Proof. by apply hoare_raise. Qed.

Lemma keeps_on_perform sb P c :
  (∀ a, P (Call c a) = true) → keeps_on sb P (perform c).
Proof.
  intros H. apply hoare_perform. intros a. split; [done|]. simpl.
  by rewrite H.
Qed.

Lemma keeps_on_print sb P l : P (Print l) = true → keeps_on sb P (print l).
Proof. intros H. apply hoare_print. split; [done|]. simpl. by rewrite H. Qed.

Lemma keeps_on_bind {A B} sb P (m : M A) (k : A → M B) :
  keeps_on sb P m → (∀ a, keeps_on sb P (k a)) → keeps_on sb P (bind m k).
Proof.
  intros Hm Hk. eapply hoare_bind; [exact Hm| |].
  - intros a sb1 t1 [-> Ht1]. eapply hoare_conseq; [apply Hk|].
    intros o sb' t2 [-> Ht2]. split; [done|].
    rewrite forallb_app. by rewrite Ht1, Ht2.
  - by intros e sb1 t1 [-> Ht1].
Qed.

Lemma keeps_on_get_settings {B} sb P (k : settings → M B) :
  keeps_on sb P (k (sb_settings sb)) → keeps_on sb P (bind get_settings k).
Proof. apply hoare_bind_get_settings. Qed.

Lemma keeps_on_stat {B} sb P file (k : file_status → M B) :
  keeps_on sb P (k (stat_file file)) → keeps_on sb P (bind (stat file) k).
Proof. apply hoare_bind_stat. Qed.

End KeepsOn.

Ltac flow_side :=
  intros ?; cbn [flow_event page_level closes_page sleep_ok negb orb andb];
  rewrite ?orb_true_r; cbn [andb];
  first
    [ reflexivity
    | match goal with
      | H : (0 <? _)%Z = true |- _ => rewrite H, Z.eqb_refl; reflexivity
      end ].

Ltac keeps_on_if b :=
  let b' := eval cbv in b in
  lazymatch b' with
  | true => change b with true; cbv iota
  | false => change b with false; cbv iota
  | _ =>
      first
        [ match goal with H : b = _ |- _ => rewrite H end
        | let Hb := fresh "Hb" in destruct b eqn:Hb ]
  end.

Ltac keeps_on_step :=
  cbv beta zeta;
  lazymatch goal with
  | |- keeps_on _ _ (bind get_settings _) => apply keeps_on_get_settings
  | |- keeps_on _ _ (bind (stat _) _) => apply keeps_on_stat
  | |- keeps_on _ _ (bind _ _) => apply keeps_on_bind; [|intros ?]
  | |- keeps_on _ _ (ret _) => apply keeps_on_ret
  | |- keeps_on _ _ (raise _) => apply keeps_on_raise
  | |- keeps_on _ _ (perform _) => apply keeps_on_perform; flow_side
  | |- keeps_on _ _ (print _) => apply keeps_on_print; reflexivity
  | |- keeps_on _ _ (if ?b then _ else _) => keeps_on_if b
  | |- keeps_on _ _ (match ?x with _ => _ end) => destruct x
  end.

Ltac keeps_on_tac := autounfold with sandbox; repeat keeps_on_step.

Section FlowEvents.
Context {D : Driver}.

Lemma keeps_on_fill_sequentially sb mc lg p css i value :
  keeps_on sb (flow_event mc lg (wait_time (sb_settings sb)))
    (Sandbox.fill_sequentially_from p css i value).
Proof.
  revert i. induction value as [|v rest IH]; intros i;
    cbn [Sandbox.fill_sequentially_from].
  - apply keeps_on_ret.
  - apply keeps_on_bind; [|intros _; apply IH].
    apply keeps_on_perform. intros a. simpl. by rewrite orb_true_r.
Qed.

Lemma keeps_on_brute_force_loop sb mc lg p wl :
  keeps_on sb (flow_event mc lg (wait_time (sb_settings sb)))
    (Sandbox.brute_force_loop p wl).
Proof.
  induction wl as [|v rest IH]; cbn [Sandbox.brute_force_loop].
  - apply keeps_on_ret.
  - keeps_on_tac. exact IH.
Qed.

Lemma keeps_on_scan_loop sb lg required success tmp paths :
  keeps_on sb (flow_event true lg (wait_time (sb_settings sb)))
    (Sandbox.scan_loop required success tmp paths).
Proof.
  revert success tmp.
  induction paths as [|v rest IH]; intros success tmp;
    cbn [Sandbox.scan_loop].
  - apply keeps_on_ret.
  - apply keeps_on_bind; [keeps_on_tac|intros ?; apply IH].
Qed.

Lemma keeps_on_call_test sb test value :
  keeps_on sb
    (flow_event (String.eqb test "access_control")
       (String.eqb test "idle_lock") (wait_time (sb_settings sb)))
    (Test.call_test test value).
Proof.
  unfold Test.call_test.
  repeat (lazymatch goal with
          | |- keeps_on _ _ (if ?b then _ else _) => destruct b eqn:?
          end).
  all: try apply keeps_on_raise.
  all: autounfold with sandbox.
  all: repeat first
         [ keeps_on_step
         | apply keeps_on_fill_sequentially
         | apply keeps_on_brute_force_loop
         | apply keeps_on_scan_loop ].
Qed.

End FlowEvents.

Section Pages.
Context {D : Driver}.

Lemma lock_hoare sb p :
  hoare sb (Sandbox.__lock p) (λ o sb' t, lock_post (sb_settings sb) p t).
Proof.
  xwp.
  all: unfold lock_post, extension_url; simpl;
    repeat rewrite truthy_app_r by (vm_compute; reflexivity).
  all: split_and!; auto; try done.
Qed.

Lemma scan_target_pages sb required success tmp path :
  hoare sb (Sandbox.scan_target required success tmp path)
    (λ o sb' t, sb' = sb ∧ target_pages success tmp o t).
Proof.
  xwp.
  all: split; [done|]; intros flag tmp' Heq; try discriminate Heq.
  all: injection Heq as <- <-; unfold held_page; simpl.
  all: split_and!; try done; try (by eexists).
Qed.

Lemma opened_app t1 t2 : opened (t1 ++ t2) = opened t1 ++ opened t2.
Proof. apply omap_app. Qed.
Lemma closed_app t1 t2 : closed (t1 ++ t2) = closed t1 ++ closed t2.
Proof. apply omap_app. Qed.
Lemma alerts_app t1 t2 : alerts (t1 ++ t2) = alerts t1 ++ alerts t2.
Proof. apply omap_app. Qed.

Lemma held_page_app tmp t1 t2 :
  held_page (held_page tmp t1) t2 = held_page tmp (t1 ++ t2).
Proof.
  unfold held_page. rewrite opened_app.
  destruct (opened t2) as [|q l] eqn:H2 using rev_ind.
  - by rewrite app_nil_r.
  - by rewrite app_assoc, !last_snoc.
Qed.

Lemma scan_loop_pages sb required success tmp paths :
  hoare sb (Sandbox.scan_loop required success tmp paths)
    (λ o sb' t, sb' = sb ∧ loop_pages success tmp o t).
Proof.
  revert success tmp. induction paths as [|path rest IH]; intros success tmp.
  - apply hoare_ret. split; [done|]. intros flag tmp' Heq.
    injection Heq as <- <-. by split_and!.
  - cbn [Sandbox.scan_loop].
    eapply hoare_bind; [apply scan_target_pages| |].
    + intros [flag1 tmp1] sb1 t1 [-> H1].
      destruct (H1 _ _ eq_refl) as (Ho & Ha & Hc & Ht & _).
      eapply hoare_conseq; [apply IH|].
      intros o sb' t2 [-> H2]. split; [done|].
      intros flag tmp' Heq. destruct (H2 _ _ Heq) as (Ho2 & Hc2 & Ht2).
      simpl in *.
      rewrite opened_app, alerts_app, closed_app, !length_app, Hc, Hc2.
      split_and!; try lia; try reflexivity.
      subst tmp' tmp1. apply held_page_app.
    + intros e sb1 t1 [-> _]. split; [done|]. by intros flag tmp' Heq.
Qed.

Lemma scan_tail_pages sb required paths :
  hoare sb
    (do st <- Sandbox.scan_loop required true None paths;
     do_ (if negb (fst st) then
            match snd st with
            | Some t => Sandbox.__close t true
            | None => raise (UnboundLocalError "tmp")
            end
          else ret tt);
     ret None)
    (λ o sb' t, tail_pages o t).
Proof.
  eapply hoare_bind; [apply scan_loop_pages| |].
  - intros [flag tmp'] sb1 t1 [-> H1].
    destruct (H1 _ _ eq_refl) as (Ho & Hc & Ht). simpl in *.
    xwp.
    all: intros x Hx; try discriminate Hx.
    all: rewrite ?opened_app, ?alerts_app, ?closed_app, ?length_app,
           ?app_nil_r, ?Hc; simpl; rewrite ?app_nil_r; simpl in Ho.
    all: split; [lia|].
    all: first [ by left | right; eexists; split; [done|] ].
    unfold held_page in Ht. destruct (last (opened t1)) eqn:Hl; [congruence|].
    apply last_None in Hl. rewrite Hl in Ho. simpl in Ho. lia.
  - intros e sb1 t1 _ x Hx. discriminate Hx.
Qed.

End Pages.

Section Pages2.
Context {D : Driver}.

Lemma access_control_pages_hoare sb kwargs :
  hoare sb (Sandbox.access_control kwargs) (λ o sb' t, pages_post o t).
Proof.
  unfold Sandbox.access_control.
  generalize (Py.lower (get_extra_value kwargs)). intros req.
  xwp.
  all: lazymatch goal with
       | |- hoare _ _ _ => idtac
       | |- _ => intros x Hx; first [discriminate Hx|simpl; split; [done|by left]]
       end.
  all: eapply hoare_conseq; [apply scan_tail_pages|].
  all: intros o sb' t Ht x Hx; destruct (Ht x Hx) as [Hn Hc].
  all: rewrite ?opened_app, ?alerts_app, ?closed_app, ?length_app; simpl.
  all: repeat rewrite truthy_app_r by (vm_compute; reflexivity); simpl.
  all: split; [lia|].
  all: destruct Hc as [Hc|(q & Hc & Hl)]; [by left|right].
  all: exists q; split; [done|].
  all: destruct (opened t); [discriminate Hl|exact Hl].
Qed.

End Pages2.

(** ** Splitting an address *)

Lemma strip_prefix_Some pre s rest :
  Py.strip_prefix pre s = Some rest → s = pre +:+ rest.
Proof.
  revert s. induction pre as [|a pre IH]; intros s H; simpl in *.
  - by injection H as ->.
  - destruct s as [|b s]; [discriminate H|].
    destruct (Ascii.eqb a b) eqn:Hab; [|discriminate H].
    apply Ascii.eqb_eq in Hab as ->. by rewrite (IH _ H).
Qed.

Lemma strip_prefix_app pre rest : Py.strip_prefix pre (pre +:+ rest) = Some rest.
Proof.
  induction pre as [|a pre IH]; simpl; [done|]. by rewrite Ascii.eqb_refl.
Qed.

Lemma split_1_shape sep s :
  Py.split_1 sep s = [s]
  ∨ ∃ a b, Py.split_1 sep s = [a; b] ∧ s = a +:+ sep +:+ b.
Proof.
  induction s as [|c s IH].
  - simpl. destruct (Py.strip_prefix sep "") as [rest|] eqn:Hp; [|by left].
    right. exists "", rest. split; [done|]. exact (strip_prefix_Some _ _ _ Hp).
  - cbn [Py.split_1].
    destruct (Py.strip_prefix sep (String c s)) as [rest|] eqn:Hp.
    + right. exists "", rest. split; [done|]. exact (strip_prefix_Some _ _ _ Hp).
    + destruct IH as [->|(a & b & -> & Hs)]; [by left|].
      right. exists (String c a), b. split; [done|]. by rewrite Hs at 1.
Qed.

Lemma split_1_found sep a b :
  ∃ a' b', Py.split_1 sep (a +:+ sep +:+ b) = [a'; b'].
Proof.
  induction a as [|c a IH].
  - destruct sep, b; simpl; rewrite ?Ascii.eqb_refl, ?strip_prefix_app; eauto.
  - change (String c a +:+ sep +:+ b) with (String c (a +:+ sep +:+ b)).
    cbn [Py.split_1].
    destruct (Py.strip_prefix sep (String c (a +:+ sep +:+ b))); [eauto|].
    destruct IH as (a' & b' & ->). eauto.
Qed.

Lemma split_1_char_first c s :
  ∃ tail, s = Py.first (Py.split_1 (String c "") s) +:+ tail
          ∧ (tail = "" ∨ ∃ rest, tail = String c rest)
          ∧ Py.mem_char c (Py.first (Py.split_1 (String c "") s)) = false.
Proof.
  induction s as [|d s IH].
  - exists "". by split_and!; [|left|].
  - cbn [Py.split_1 Py.strip_prefix].
    destruct (Ascii.eqb c d) eqn:Hcd.
    + apply Ascii.eqb_eq in Hcd as <-. exists (String c s).
      split_and!; [done|right; by eexists|done].
    + destruct IH as (tail & Hs & Ht & Hm). exists tail.
      destruct (Py.split_1 (String c "") s) as [|a tl]; simpl in *.
      * split_and!; [by rewrite Hs at 1|done|by rewrite Hcd].
      * split_and!; [by rewrite Hs at 1|done|by rewrite Hcd, Hm].
Qed.

Section Start.
Context {D : Driver}.

Lemma split_1_two sep s a b l :
  Py.split_1 sep s = a :: b :: l → l = [] ∧ s = a +:+ sep +:+ b.
Proof.
  intros H. destruct (split_1_shape sep s) as [Hs|(a' & b' & Hs & Heq)];
    rewrite Hs in H; [discriminate H|].
  by injection H as -> -> <-.
Qed.

Lemma browser_start_origin sb :
  hoare sb Sandbox.browser_start (λ o sb' t, start_post sb o sb' t).
Proof.
  wp.
  all: unfold start_post; simpl.
  all: split; [intros Ho; try discriminate Ho|intros url Hu; try discriminate Hu].
  all: try (intros _; by split_and!).
  all: match goal with
       | H : Py.split_1 "://" ?s = _ :: _ :: _ |- _ =>
           apply split_1_two in H as [-> H]
       end.
  - destruct (split_1_char_first "/" s1) as (tail & Hs1 & Htail & Hm).
    eexists s, s0, _, tail. split_and!; try done.
    by rewrite <- Hs1.
  - injection Hu as <-. intros Hno.
    match goal with H : _ = _ +:+ "://" +:+ _ |- _ => by destruct (Hno _ _ H) end.
  - destruct (split_1_char_first "/" s1) as (tail & Hs1 & Htail & Hm).
    eexists s, s0, _, tail. split_and!; try done.
    by rewrite <- Hs1.
  - injection Hu as <-. intros Hno.
    match goal with H : _ = _ +:+ "://" +:+ _ |- _ => by destruct (Hno _ _ H) end.
Qed.
End Start.

(** ** The runner, continued *)

Section Try.
Context {D : Driver}.

Lemma hoare_try_except {A} sb (m : M A) (caught : exn → bool) h
  (P Q : result A → sandbox → list event → Prop) :
  hoare sb m P →
  (∀ a sb1 t1, P (Return a) sb1 t1 → Q (Return a) sb1 t1) →
  (∀ e sb1 t1, P (Raise e) sb1 t1 → caught e = false → Q (Raise e) sb1 t1) →
  (∀ e sb1 t1, P (Raise e) sb1 t1 → caught e = true →
     hoare sb1 (h e) (λ o sb2 t2, Q o sb2 (t1 ++ t2))) →
  hoare sb (try_except m caught h) Q.
Proof.
  intros Hm Hr Hu Hc s Hs. specialize (Hm s Hs). unfold try_except.
  destruct (outcome (m s)) as [a|e] eqn:Ho.
  - rewrite Ho. by apply Hr.
  - destruct (caught e) eqn:Hce.
    + exact (Hc e _ _ Hm Hce (final (m s)) eq_refl).
    + rewrite Ho. by apply Hu.
Qed.

Lemma hoare_try_finally {A} sb (m : M A) (f : M unit)
  (P Q : result A → sandbox → list event → Prop) :
  hoare sb m P →
  (∀ o sb1 t1, P o sb1 t1 →
     hoare sb1 f (λ o2 sb2 t2,
       Q (match o2 with Return _ => o | Raise e => Raise e end) sb2
         (t1 ++ t2))) →
  hoare sb (try_finally m f) Q.
Proof.
  intros Hm Hf s Hs. specialize (Hm s Hs). unfold try_finally.
  specialize (Hf _ _ _ Hm (final (m s)) eq_refl). cbv beta in Hf.
  by destruct (outcome (f (final (m s)))).
Qed.

Lemma requests_app t1 t2 : requests (t1 ++ t2) = requests t1 ++ requests t2.
Proof. apply omap_app. Qed.

Lemma run_body_proxy sb test value :
  Py.truthy (proxy sb) = true → context sb = false →
  hoare sb (Test.run_body test value)
    (λ o sb' t, (∃ e, o = Raise e) ∧ requests t = [PlaywrightStart]
                ∧ context sb' = false).
Proof.
  intros Hp Hc. unfold Test.run_body. xwp.
  all: simpl in *; try congruence.
  all: split_and!; eauto.
Qed.

Lemma run_finally_unlaunched sb :
  context sb = false →
  hoare sb Test.run_finally
    (λ o sb' t, o = Raise (AttributeError "close") ∧ t = [] ∧ sb' = sb).
Proof. intros Hc. unfold Test.run_finally. xwp. done. Qed.

Lemma run_proxy_hoare sb test value :
  Py.truthy (proxy sb) = true → context sb = false →
  hoare sb (Test.run test value)
    (λ o sb' t, o = Raise (AttributeError "close")
                ∧ requests t = [PlaywrightStart]
                ∧ context sb' = false).
Proof.
  intros Hp Hc. unfold Test.run.
  eapply hoare_try_finally
    with (P := λ o sb1 t1, requests t1 = [PlaywrightStart]
                           ∧ context sb1 = false).
  - eapply hoare_try_except; [by apply run_body_proxy|..].
    + by intros a sb1 t1 ([e He] & _).
    + by intros e sb1 t1 (_ & Hr & Hc1) _.
    + intros e sb1 t1 (_ & Hr & Hc1) _. apply hoare_print.
      rewrite requests_app, Hr. by split.
  - intros o sb1 t1 [Hr Hc1].
    eapply hoare_conseq; [by apply run_finally_unlaunched|].
    intros o2 sb2 t2 (-> & -> & ->). rewrite app_nil_r. by split_and!.
Qed.

End Try.

Section Dispatch.
Context {D : Driver}.

Lemma hoare_new_page_first {B} sb (k : page → M B) :
  hoare sb (bind Sandbox.__new_page k)
    (λ _ _ t, ∃ a, head t = Some (Call NewPage a)).
Proof.
  unfold Sandbox.__new_page. apply hoare_assoc, hoare_bind_perform.
  intros [v|e]; [|by eexists]. apply hoare_any. intros _ _ t. by eexists.
Qed.

Lemma flow_opens_page sb test value :
  In test flows →
  hoare sb (Test.call_test test value)
    (λ _ _ t, ∃ a, head t = Some (Call NewPage a)).
Proof.
  intros Hin. simpl in Hin.
  repeat (destruct Hin as [<-|Hin]; [|]); try done.
  all: unfold Test.call_test; cbn [String.eqb Ascii.eqb Bool.eqb].
  all: try apply hoare_new_page_first.
  unfold Sandbox.access_control. apply hoare_assoc, hoare_new_page_first.
Qed.

Lemma prompts_app t1 t2 : prompts (t1 ++ t2) = prompts t1 ++ prompts t2.
Proof. apply omap_app. Qed.

Lemma flow_event_no_prompt mc lg wt t :
  forallb (flow_event mc lg wt) t = true → prompts t = [].
Proof.
  induction t as [|e t IH]; [done|]. simpl. intros H.
  apply andb_prop in H as [He Ht]. rewrite (IH Ht).
  destruct e as [c r|l]; [|done]. by destruct c.
Qed.

Lemma browser_start_no_prompt sb :
  hoare sb Sandbox.browser_start (λ _ _ t, prompts t = []).
Proof. xwp. all: reflexivity. Qed.

Lemma run_finally_no_prompt sb :
  hoare sb Test.run_finally (λ _ _ t, prompts t = []).
Proof. unfold Test.run_finally. xwp. all: reflexivity. Qed.

Lemma prompts_bind {A B} (m : M A) (k : A → M B) s :
  prompts (trace (bind m k s))
  = prompts (trace (m s))
    ++ match outcome (m s) with
       | Return a => prompts (trace (k a (final (m s))))
       | Raise _ => []
       end.
Proof.
  unfold bind. destruct (outcome (m s)); cbn [trace].
  - apply prompts_app.
  - by rewrite app_nil_r.
Qed.

Lemma prompts_try_except (m : M unit) caught s :
  prompts (trace (try_except m caught (λ ex, print (Printed ex)) s))
  = prompts (trace (m s)).
Proof.
  unfold try_except. destruct (outcome (m s)) as [a|e]; [done|].
  destruct (caught e); [|done]. cbn [trace print].
  by rewrite prompts_app, app_nil_r.
Qed.

Lemma done_prompt sb :
  hoare sb (do_ print_action "Done, press any key to exit..."; ret tt)
    (λ _ _ t, prompts t = ["Done, press any key to exit..."]).
Proof. xwp. all: reflexivity. Qed.

Lemma run_prompts test value s :
  outcome (Sandbox.browser_start s) = Return tt →
  prompts (trace (Test.run test value s))
  = match outcome (Test.call_test test value
                     (final (Sandbox.browser_start s))) with
    | Return _ => ["Done, press any key to exit..."]
    | Raise _ => []
    end.
Proof.
  intros Hs. unfold Test.run, try_finally.
  set (body := try_except _ _ _ s).
  assert (Hf : prompts (trace (Test.run_finally (final body))) = [])
    by exact (run_finally_no_prompt _ _ eq_refl).
  assert (Hb : prompts (trace body)
               = match outcome (Test.call_test test value
                                  (final (Sandbox.browser_start s))) with
                 | Return _ => ["Done, press any key to exit..."]
                 | Raise _ => []
                 end).
  { subst body. rewrite prompts_try_except. unfold Test.run_body.
    rewrite prompts_bind. cbn [print_info print outcome trace final].
    rewrite prompts_bind, Hs.
    rewrite (browser_start_no_prompt _ s eq_refl).
    set (s1 := final (Sandbox.browser_start s)).
    pose proof (keeps_on_call_test _ test value s1 eq_refl) as [_ Hfl].
    apply flow_event_no_prompt in Hfl.
    rewrite prompts_bind, Hfl.
    destruct (outcome (Test.call_test test value s1)) as [[]|e]; [|done].
    exact (done_prompt _ _ eq_refl). }
  destruct (outcome (Test.run_finally (final body))); cbn [trace];
    by rewrite prompts_app, Hf, Hb, app_nil_r.
Qed.

End Dispatch.

(** ** What the flows type, click and wait for *)

Lemma flow_event_page_level mc lg wt t c a :
  forallb (flow_event mc lg wt) t = true → In (Call c a) t →
  page_level c = true.
Proof.
  intros H Hin. rewrite forallb_forall in H. specialize (H _ Hin).
  simpl in H. by destruct (page_level c).
Qed.

Lemma flow_event_no_close lg wt t :
  forallb (flow_event false lg wt) t = true → closed t = [].
Proof.
  induction t as [|e t IH]; [done|]. simpl. intros H.
  apply andb_prop in H as [He Ht]. specialize (IH Ht).
  destruct e as [c r|l]; [|done]. by destruct c.
Qed.

Lemma flow_event_sleeps mc lg wt t z :
  forallb (flow_event mc lg wt) t = true → In z (sleeps t) →
  (0 < z)%Z ∧ (z = wt ∨ (lg = true ∧ z = 125%Z)).
Proof.
  induction t as [|e t IH]; [done|]. simpl. intros H Hin.
  apply andb_prop in H as [He Ht]. specialize (IH Ht).
  destruct e as [c r|l]; [|by apply IH]. destruct c; try (by apply IH).
  simpl in Hin, He. destruct Hin as [<-|Hin]; [|by apply IH].
  destruct mc; simpl in He; apply andb_prop in He as [Hpos Hz].
  all: split; [lia|].
  all: apply orb_prop in Hz as [Hz|Hz]; [left; lia|right].
  all: apply andb_prop in Hz as [-> Hz]; split; [done|lia].
Qed.

(** X3. The unlock flow types at most one value: the password passed
    as the extra value, or the one of the settings when none is passed,
    into the password field; it types only after the wallet answered
    that it is locked, and when the wallet answered that it is not
    locked it types and clicks nothing. *)
Theorem unlock_types_password_once {D : Driver} (kwargs : gmap string string)
  (s : state) :
  let r := Sandbox.unlock kwargs s in
  let st := sb_settings (self s) in
  let pw := password_or_default st (get_extra_value kwargs) in
  (typed (trace r) = []
   ∨ typed (trace r) = [(css_or_text st (css_password st), pw)])
  ∧ (typed (trace r) ≠ [] → lock_answers (trace r) = [true])
  ∧ (lock_answers (trace r) = [false] →
     clicks (trace r) = [] ∧ typed (trace r) = [])
  ∧ (∀ x, outcome r = Return x →
       console (trace r) = []
       ∨ console (trace r) = [Error "Wallet is not created"]).
Proof. exact (unlock_hoare (self s) kwargs s eq_refl). Qed.

Lemma unlock_types_password_once_witness :
  let r := @Sandbox.unlock (wallet_driver sample_files)
             {[ "value" := "WrongPassword123!" ]} locked_state in
  typed (trace r) = [("input[type=password]", "WrongPassword123!")]
  ∧ lock_answers (trace r) = [true].
Proof.
  destruct (@unlock_types_password_once (wallet_driver sample_files)
              {[ "value" := "WrongPassword123!" ]} locked_state)
    as (_ & H & _).
  split; [vm_compute; reflexivity|]. apply H. vm_compute. discriminate.
Defined.

(** X4. A run of the create flow that returns either found the wallet
    already created, said so and typed and clicked nothing, or typed the
    password of the settings twice, into the first and the second
    password field, and made twelve clicks; it prints nothing then. *)
Theorem create_types_password_twice {D : Driver} (kwargs : gmap string string)
  (s : state) :
  let r := Sandbox.create kwargs s in
  let st := sb_settings (self s) in
  ∀ x, outcome r = Return x →
    (console (trace r) = [Error "Wallet is already created"]
     ∧ clicks (trace r) = [] ∧ typed (trace r) = [])
    ∨ (console (trace r) = []
       ∧ typed (trace r)
         = [(css_password st +:+ ">>nth=0", password st);
            (css_password st +:+ ">>nth=1", password st)]
       ∧ List.length (clicks (trace r)) = 12%nat).
Proof. exact (create_hoare (self s) kwargs s eq_refl). Qed.

Lemma create_types_password_twice_witness :
  let r := @Sandbox.create (wallet_driver sample_files) ∅ fresh_state in
  outcome r = Return tt
  ∧ typed (trace r)
    = [("input[type=password]>>nth=0", "Password123!");
       ("input[type=password]>>nth=1", "Password123!")].
Proof.
  assert (Ho : outcome (@Sandbox.create (wallet_driver sample_files) ∅
                          fresh_state) = Return tt)
    by (vm_compute; reflexivity).
  destruct (@create_types_password_twice (wallet_driver sample_files) ∅
              fresh_state tt Ho) as [(Hc & _)|(_ & Ht & _)].
  - vm_compute in Hc. discriminate Hc.
  - split; [exact Ho|]. rewrite Ht. vm_compute. reflexivity.
Defined.

(** X5. A run of the import flow on a non-empty mnemonic that returns,
    on a wallet not created yet, has sent the words of the mnemonic (its
    pieces between single spaces) key by key, the i-th word to the i-th
    password field, so that the words sent joined by spaces are the
    mnemonic again; after them it typed the password of the settings
    into the first two password fields.  On a created wallet it types
    nothing, and with no mnemonic it asks for one. *)
Theorem existing_types_mnemonic_words {D : Driver} (m : string) (s : state) :
  let r := Sandbox.existing {[ "value" := m ]} s in
  let st := sb_settings (self s) in
  ∀ x, outcome r = Return x →
    (console (trace r) = [Error "Wallet is already created"]
     ∧ clicks (trace r) = [] ∧ pressed (trace r) = []
     ∧ typed (trace r) = [])
    ∨ (m = "" ∧ console (trace r) = [Error mnemonic_required]
       ∧ pressed (trace r) = [] ∧ typed (trace r) = [])
    ∨ (m ≠ "" ∧ console (trace r) = []
       ∧ pressed (trace r)
         = fields_from (css_or_text st (css_password st)) 0
             (Py.split_char " " m)
       ∧ join " " (map snd (pressed (trace r))) = m
       ∧ typed (trace r)
         = [(css_password st +:+ ">>nth=0", password st);
            (css_password st +:+ ">>nth=1", password st)]).
Proof. exact (existing_hoare (self s) m s eq_refl). Qed.

Lemma existing_types_mnemonic_words_witness :
  let r := @Sandbox.existing (wallet_driver sample_files)
             {[ "value" := "w1 w2 w3" ]} fresh_state in
  outcome r = Return tt
  ∧ pressed (trace r)
    = [("input[type=password]>>nth=0", "w1");
       ("input[type=password]>>nth=1", "w2");
       ("input[type=password]>>nth=2", "w3")].
Proof.
  assert (Ho : outcome (@Sandbox.existing (wallet_driver sample_files)
                          {[ "value" := "w1 w2 w3" ]} fresh_state)
               = Return tt)
    by (vm_compute; reflexivity).
  destruct (@existing_types_mnemonic_words (wallet_driver sample_files)
              "w1 w2 w3" fresh_state tt Ho)
    as [(Hc & _)|[(Hm & _)|(_ & _ & Hp & _)]].
  - vm_compute in Hc. discriminate Hc.
  - discriminate Hm.
  - split; [exact Ho|]. rewrite Hp. vm_compute. reflexivity.
Defined.

(** X6. A run of the idle-lock flow that returns on a created wallet
    has set the auto-lock timer to 2 (the last value it typed), has
    announced and slept the 125 seconds, and has then asked whether the
    wallet is locked: it prints the alert exactly when the last answer
    was that it is not. *)
Theorem idle_lock_waits_and_checks {D : Driver} (kwargs : gmap string string)
  (s : state) :
  let r := Sandbox.idle_lock kwargs s in
  ∀ x, outcome r = Return x →
    (console (trace r) = [Error "Wallet is not created"]
     ∧ typed (trace r) = [] ∧ clicks (trace r) = [])
    ∨ ∃ b, last (lock_answers (trace r)) = Some b
           ∧ console (trace r)
             = Info "Waiting 125 sec for the wallet to auto-lock..."
               :: (if b then []
                   else [Alert "Auto-lock does not work properly"])
           ∧ In 125%Z (sleeps (trace r))
           ∧ last (typed (trace r)) = Some ("input[id=autoTimeout]", "2").
Proof. exact (idle_lock_hoare (self s) kwargs s eq_refl). Qed.

Lemma idle_lock_waits_and_checks_witness :
  let r := @Sandbox.idle_lock (wallet_driver sample_files) ∅ started_state in
  outcome r = Return tt
  ∧ console (trace r)
    = [Info "Waiting 125 sec for the wallet to auto-lock...";
       Alert "Auto-lock does not work properly"].
Proof.
  assert (Ho : outcome (@Sandbox.idle_lock (wallet_driver sample_files) ∅
                          started_state) = Return tt)
    by (vm_compute; reflexivity).
  destruct (@idle_lock_waits_and_checks (wallet_driver sample_files) ∅
              started_state tt Ho) as [(Hc & _)|(b & Hb & Hc & _)].
  - vm_compute in Hc. discriminate Hc.
  - split; [exact Ho|]. rewrite Hc.
    assert (Hl : last (lock_answers
                         (trace (@Sandbox.idle_lock
                                   (wallet_driver sample_files) ∅
                                   started_state))) = Some false)
      by (vm_compute; reflexivity).
    rewrite Hl in Hb. by injection Hb as <-.
Defined.

(** X7. [__lock] asks once whether the wallet is locked.  When the
    answer is yes it makes no other request; it loads the lock address
    of the home page only when the answer is no.  It types, clicks and
    prints nothing. *)
Theorem lock_navigates_when_unlocked {D : Driver} (p : page) (s : state) :
  let r := Sandbox.__lock p s in
  let st := sb_settings (self s) in
  typed (trace r) = [] ∧ clicks (trace r) = [] ∧ console (trace r) = []
  ∧ (lock_answers (trace r) = [true] →
     requests (trace r) = [IsVisible p "button" "unlock"])
  ∧ (navigations (trace r) = []
     ∨ (lock_answers (trace r) = [false]
        ∧ navigations (trace r)
          = [extension_url st (home_page st +:+ "#lock")])).
Proof. exact (lock_hoare (self s) p s eq_refl). Qed.

(** X8. Whatever test is dispatched and whatever the browser answers,
    the flow leaves the [Sandbox] object as it found it and makes only
    requests on pages and sleeps: it never starts, stops or configures
    the browser and never prompts.  No flow but [access_control] closes
    a page. *)
Theorem flows_use_pages_only {D : Driver} (test value : string) (s : state) :
  let r := Test.call_test test value s in
  self (final r) = self s
  ∧ (∀ c a, In (Call c a) (trace r) → page_level c = true)
  ∧ (test ≠ "access_control" → closed (trace r) = []).
Proof.
  intros r.
  destruct (keeps_on_call_test (self s) test value s eq_refl) as [Hs Ht].
  split_and!; [exact Hs| |].
  - intros c a. exact (flow_event_page_level _ _ _ _ _ _ Ht).
  - intros Hne. apply String.eqb_neq in Hne. rewrite Hne in Ht.
    exact (flow_event_no_close _ _ _ Ht).
Qed.

(** X9. Every sleep of a flow is positive, so [asyncio.sleep] is never
    called with zero or a negative duration; it lasts the wait time of
    the settings, or 125 seconds, which only [idle_lock] waits. *)
Theorem flow_sleeps_sound {D : Driver} (test value : string) (s : state)
  (z : Z) :
  In z (sleeps (trace (Test.call_test test value s))) →
  (0 < z)%Z
  ∧ (z = wait_time (sb_settings (self s))
     ∨ (test = "idle_lock" ∧ z = 125%Z)).
Proof.
  intros Hin.
  destruct (keeps_on_call_test (self s) test value s eq_refl) as [_ Ht].
  destruct (flow_event_sleeps _ _ _ _ _ Ht Hin) as [Hpos [Hz|[Hl Hz]]].
  - by split; [|left].
  - apply String.eqb_eq in Hl. by split; [|right].
Qed.

Lemma flow_sleeps_sound_witness :
  let r := @Test.call_test (wallet_driver sample_files) "idle_lock" ""
             started_state in
  In 125%Z (sleeps (trace r)) ∧ (0 < 125)%Z.
Proof.
  assert (Hin : In 125%Z
                  (sleeps (trace (@Test.call_test (wallet_driver sample_files)
                                    "idle_lock" "" started_state)))).
  { vm_compute. tauto. }
  split; [exact Hin|].
  exact (proj1 (@flow_sleeps_sound (wallet_driver sample_files) "idle_lock" ""
                  started_state 125%Z Hin)).
Defined.

(** X10. A run of [access_control] that returns has opened one page at
    its start and one more for every leak it reported, and has closed at
    most one page, the last one it opened: a flagged target keeps its
    page open, the others share one. *)
Theorem access_control_page_accounting {D : Driver}
  (kwargs : gmap string string) (s : state) :
  let r := Sandbox.access_control kwargs s in
  ∀ x, outcome r = Return x →
    List.length (opened (trace r))
    = (1 + List.length (alerts (trace r))
       + List.length (closed (trace r)))%nat
    ∧ (closed (trace r) = []
       ∨ ∃ p, closed (trace r) = [p] ∧ last (opened (trace r)) = Some p).
Proof. exact (access_control_pages_hoare (self s) kwargs s eq_refl). Qed.

Lemma access_control_page_accounting_witness :
  let r := @Sandbox.access_control (wallet_driver sample_files)
             {[ "value" := "locked" ]} started_state in
  opened (trace r) = [0; 1; 2]%nat ∧ closed (trace r) = [2%nat]
  ∧ List.length (alerts (trace r)) = 1%nat.
Proof.
  assert (Ho : outcome (@Sandbox.access_control (wallet_driver sample_files)
                          {[ "value" := "locked" ]} started_state)
               = Return None)
    by (vm_compute; reflexivity).
  destruct (@access_control_page_accounting (wallet_driver sample_files)
              {[ "value" := "locked" ]} started_state None Ho) as [Hn _].
  assert (Hop : opened (trace (@Sandbox.access_control
                                 (wallet_driver sample_files)
                                 {[ "value" := "locked" ]} started_state))
                = [0; 1; 2]%nat) by (vm_compute; reflexivity).
  assert (Hcl : closed (trace (@Sandbox.access_control
                                 (wallet_driver sample_files)
                                 {[ "value" := "locked" ]} started_state))
                = [2%nat]) by (vm_compute; reflexivity).
  split_and!; [exact Hop|exact Hcl|].
  rewrite Hop, Hcl in Hn. cbn [List.length] in Hn. lia.
Defined.

(** X11. When [browser_start] returns, the base address of the settings
    is the origin of the address the extension answered: its scheme,
    [://] and its host, the part before the first slash after them; the
    object is otherwise the one it started from with the driver and the
    context recorded.  An address without [://] raises [IndexError]
    after the browser was launched, the settings untouched. *)
Theorem browser_start_sets_origin {D : Driver} (s : state) :
  let r := Sandbox.browser_start s in
  (outcome r = Return tt →
     ∃ url scheme host tail,
       url_answers (trace r) = [url]
       ∧ url = scheme +:+ "://" +:+ host +:+ tail
       ∧ (tail = "" ∨ ∃ rest, tail = "/" +:+ rest)
       ∧ Py.mem_char "/" host = false
       ∧ self (final r)
         = with_settings
             (set_url_base (scheme +:+ "://" +:+ host)
                (sb_settings (self s)))
             (with_context true (with_playwright true (self s))))
  ∧ (∀ url, url_answers (trace r) = [url] →
       (∀ a b, url ≠ a +:+ "://" +:+ b) →
       outcome r = Raise IndexError ∧ context (self (final r)) = true
       ∧ sb_settings (self (final r)) = sb_settings (self s)).
Proof. exact (browser_start_origin (self s) s eq_refl). Qed.

Lemma browser_start_sets_origin_witness :
  let r := @Sandbox.browser_start (wallet_driver sample_files) sample_state in
  url_answers (trace r)
  = ["chrome-extension://nkbihfbeogaeaoehlefnkodbefgpgknn/background.js"]
  ∧ url_base (sb_settings (self (final r)))
    = "chrome-extension://nkbihfbeogaeaoehlefnkodbefgpgknn".
Proof.
  assert (Ho : outcome (@Sandbox.browser_start (wallet_driver sample_files)
                          sample_state) = Return tt)
    by (vm_compute; reflexivity).
  destruct (@browser_start_sets_origin (wallet_driver sample_files)
              sample_state) as [H _].
  destruct (H Ho) as (url & scheme & host & tail & Hu & _).
  split; vm_compute; reflexivity.
Defined.

(** X12. With a proxy configured on an object that has no context
    yet, a run never launches the browser: [browser_start] fails on the
    proxy setting right after the driver is started, so the only request
    of the run is that start, and the run ends with the
    [AttributeError] of closing a context that does not exist. *)
Theorem proxy_run_never_launches {D : Driver} (test value : string)
  (s : state) :
  Py.truthy (proxy (self s)) = true → context (self s) = false →
  let r := Test.run test value s in
  outcome r = Raise (AttributeError "close")
  ∧ requests (trace r) = [PlaywrightStart]
  ∧ context (self (final r)) = false.
Proof.
  intros Hp Hc. exact (run_proxy_hoare (self s) test value Hp Hc s eq_refl).
Qed.

Lemma proxy_run_never_launches_witness :
  let r := @Test.run (wallet_driver sample_files) "open" "" proxy_state in
  outcome r = Raise (AttributeError "close")
  ∧ requests (trace r) = [PlaywrightStart]
  ∧ context (self (final r)) = false.
Proof.
  apply (@proxy_run_never_launches (wallet_driver sample_files) "open" ""
           proxy_state); reflexivity.
Defined.

(** X13. Of the tests the parser offers, [brute_force_unlock] names no
    method: dispatching it raises [AttributeError] before any request
    and leaves the state as it was.  Every other one is a flow, and a
    flow starts by opening a page.  The method [unlock_brute_force] is
    not among the tests offered. *)
Theorem selectable_tests_dispatch {D : Driver} (test value : string)
  (s : state) :
  In test Test.tests →
  let r := Test.call_test test value s in
  (if String.eqb test "brute_force_unlock"
   then outcome r = Raise (AttributeError test) ∧ trace r = []
        ∧ final r = s
   else In test flows ∧ ∃ a, head (trace r) = Some (Call NewPage a))
  ∧ In "unlock_brute_force" flows
  ∧ ¬ In "unlock_brute_force" Test.tests.
Proof.
  intros Hin r. split_and!.
  - destruct (String.eqb test "brute_force_unlock") eqn:Heq.
    + apply String.eqb_eq in Heq. subst test r. by split_and!.
    + assert (Hf : In test flows).
      { simpl in Hin. simpl.
        destruct Hin as [<-|[<-|[<-|[<-|[<-|[<-|[<-|[]]]]]]]];
          try tauto; discriminate Heq. }
      split; [exact Hf|].
      exact (flow_opens_page (self s) test value Hf s eq_refl).
  - simpl. tauto.
  - simpl. intros H. repeat (destruct H as [H|H]; [discriminate H|]). done.
Qed.

Lemma selectable_tests_dispatch_witness :
  let r := @Test.call_test (wallet_driver sample_files) "brute_force_unlock"
             "wordlist.txt" started_state in
  outcome r = Raise (AttributeError "brute_force_unlock") ∧ trace r = [].
Proof.
  assert (Hin : In "brute_force_unlock" Test.tests) by (simpl; tauto).
  destruct (@selectable_tests_dispatch (wallet_driver sample_files)
              "brute_force_unlock" "wordlist.txt" started_state Hin)
    as [(Ho & Ht & _) _].
  by split.
Defined.

(** X14. Once the browser has started, a run asks the operator to press
    a key exactly when the flow returned: after a flow that raised, the
    run goes to the teardown without prompting, and it never prompts
    more than once. *)
Theorem done_prompt_iff_flow_returned {D : Driver} (test value : string)
  (s : state) :
  outcome (Sandbox.browser_start s) = Return tt →
  prompts (trace (Test.run test value s))
  = match outcome (Test.call_test test value
                     (final (Sandbox.browser_start s))) with
    | Return _ => ["Done, press any key to exit..."]
    | Raise _ => []
    end.
Proof. apply run_prompts. Qed.

Lemma done_prompt_iff_flow_returned_witness :
  prompts (trace (@Test.run (wallet_driver sample_files) "brute_force_unlock"
                    "wordlist.txt" sample_state)) = []
  ∧ prompts (trace (@Test.run (wallet_driver sample_files) "open" ""
                      sample_state))
    = ["Done, press any key to exit..."].
Proof.
  assert (Hs : outcome (@Sandbox.browser_start (wallet_driver sample_files)
                          sample_state) = Return tt)
    by (vm_compute; reflexivity).
  split.
  - rewrite (@done_prompt_iff_flow_returned (wallet_driver sample_files)
               "brute_force_unlock" "wordlist.txt" sample_state Hs).
    vm_compute. reflexivity.
  - rewrite (@done_prompt_iff_flow_returned (wallet_driver sample_files)
               "open" "" sample_state Hs).
    vm_compute. reflexivity.
Defined.

(** ** The file helpers *)

Section OsLogic.
Context {S : Os.System}.
Local Open Scope os_scope.

Lemma os_hoare_conseq {A} (m : Os.M A) (P Q : result A → list Os.event → Prop) :
  os_hoare m P → (∀ o t, P o t → Q o t) → os_hoare m Q.
Proof. intros Hm HPQ d. apply HPQ, Hm. Qed.

Lemma os_hoare_ret {A} (a : A) Q : Q (Return a) [] → os_hoare (Os.ret a) Q.
Proof. by intros HQ d. Qed.

Lemma os_hoare_raise {A} e (Q : result A → list Os.event → Prop) :
  Q (Raise e) [] → os_hoare (Os.raise e) Q.
Proof. by intros HQ d. Qed.

Lemma os_hoare_perform c Q :
  (∀ a, Q a [Os.Call c a]) → os_hoare (Os.perform c) Q.
Proof. intros HQ d. apply HQ. Qed.

Lemma os_hoare_print l Q :
  Q (Return tt) [Os.Print l] → os_hoare (Os.print l) Q.
Proof. by intros HQ d. Qed.

Lemma os_hoare_bind_wp {A B} (m : Os.M A) (k : A → Os.M B) Q :
  os_hoare m (λ o t, match o with
                     | Return a => os_hoare (k a) (λ o' t', Q o' (t ++ t'))
                     | Raise e => Q (Raise e) t
                     end) →
  os_hoare (Os.bind m k) Q.
Proof.
  intros H d. specialize (H d). unfold Os.bind.
  destruct (Os.outcome (m d)); simpl; [apply H|exact H].
Qed.

Lemma os_hoare_bind {A B} (m : Os.M A) (k : A → Os.M B) P Q :
  os_hoare m P →
  (∀ a t1, P (Return a) t1 → os_hoare (k a) (λ o t2, Q o (t1 ++ t2))) →
  (∀ e t1, P (Raise e) t1 → Q (Raise e) t1) →
  os_hoare (Os.bind m k) Q.
Proof.
  intros Hm Hk He d. specialize (Hm d). unfold Os.bind.
  destruct (Os.outcome (m d)) as [a|e]; simpl.
  - exact (Hk a _ Hm (Os.final (m d))).
  - exact (He e _ Hm).
Qed.

Lemma os_hoare_assoc {A B C} (m : Os.M A) (f : A → Os.M B) (g : B → Os.M C)
  Q :
  os_hoare (Os.bind m (λ a, Os.bind (f a) g)) Q →
  os_hoare (Os.bind (Os.bind m f) g) Q.
Proof.
  intros H d. specialize (H d). unfold Os.bind in *.
  destruct (Os.outcome (m d)); simpl in *; [|exact H].
  destruct (Os.outcome (f a (Os.final (m d)))); simpl in *; [|exact H].
  by rewrite <- app_assoc.
Qed.

Lemma os_hoare_bind_ret {A B} (a : A) (k : A → Os.M B) Q :
  os_hoare (k a) Q → os_hoare (Os.bind (Os.ret a) k) Q.
Proof. intros H d. exact (H d). Qed.

Lemma os_hoare_bind_raise {A B} e (k : A → Os.M B) Q :
  Q (Raise e) [] → os_hoare (Os.bind (Os.raise e) k) Q.
Proof. by intros H d. Qed.

Lemma os_hoare_bind_perform {B} c (k : Os.resp → Os.M B) Q :
  (∀ a, match a with
        | Return v => os_hoare (k v) (λ o t, Q o (Os.Call c a :: t))
        | Raise e => Q (Raise e) [Os.Call c a]
        end) →
  os_hoare (Os.bind (Os.perform c) k) Q.
Proof.
  intros H d. unfold Os.bind, Os.perform. simpl.
  specialize (H (Os.syscall c d).1).
  destruct ((Os.syscall c d).1); simpl; [apply H|exact H].
Qed.

Lemma os_hoare_bind_print {B} l (k : unit → Os.M B) Q :
  os_hoare (k tt) (λ o t, Q o (Os.Print l :: t)) →
  os_hoare (Os.bind (Os.print l) k) Q.
Proof. intros H d. exact (H d). Qed.

Lemma os_hoare_try_perform {A} c (k : Os.resp → Os.M A) caught h Q :
  (∀ a, match a with
        | Return v =>
            os_hoare (Os.try_except (k v) caught h)
              (λ o t, Q o (Os.Call c a :: t))
        | Raise e =>
            if caught e
            then os_hoare h (λ o t, Q o (Os.Call c a :: t))
            else Q (Raise e) [Os.Call c a]
        end) →
  os_hoare (Os.try_except (Os.bind (Os.perform c) k) caught h) Q.
Proof.
  intros H d. unfold Os.try_except, Os.bind, Os.perform. simpl.
  specialize (H (Os.syscall c d).1).
  destruct ((Os.syscall c d).1) as [v|e]; simpl.
  - specialize (H (Os.syscall c d).2). unfold Os.try_except in H.
    destruct (Os.outcome (k v (Os.syscall c d).2)) as [a|e] eqn:Ho;
      simpl in *; [by rewrite Ho in H|].
    destruct (caught e); simpl in *; [exact H|by rewrite Ho in H].
  - destruct (caught e); simpl; [apply H|exact H].
Qed.

Lemma os_hoare_try_ret {A} (a : A) caught h Q :
  Q (Return a) [] → os_hoare (Os.try_except (Os.ret a) caught h) Q.
Proof. by intros H d. Qed.

End OsLogic.

Create HintDb os.
#[export] Hint Unfold
  Os.as_bool Os.as_str Os.as_names Os.os_path_exists Os.os_path_isfile
  Os.os_path_isdir Os.os_listdir Os.print_info Os.print_error
  Os.print_action Os.file_remove Os.file_copy Os.directory_remove
  Os.directory_create Os.directory_copy Os.directory_has_manifest
  Os.directory_get_chromium_extension Os.directory_create_tmp
  Os.directory_get_firefox_extension Os.context_path
  Os.directory_get_browser_extension Os.copy_extension Os.exit : os.

Ltac owp_if b :=
  let b' := eval cbv in b in
  lazymatch b' with
  | true => change b with true; cbv iota
  | false => change b with false; cbv iota
  | _ =>
      first
        [ match goal with H : b = _ |- _ => rewrite H end
        | match b with
          | context [?x] =>
              is_var x;
              lazymatch type of x with bool => destruct x end
          end
        | lazymatch b with
          | negb ?c => let Hb := fresh "Hb" in destruct c eqn:Hb
          end
        | let Hb := fresh "Hb" in destruct b eqn:Hb ]
  end.

Ltac owp_step :=
  cbv beta iota zeta;
  lazymatch goal with
  | |- os_hoare (Os.bind (Os.bind _ _) _) _ => apply os_hoare_assoc
  | |- os_hoare (Os.bind (Os.perform _) _) _ =>
      apply os_hoare_bind_perform; intros [?|?]
  | |- os_hoare (Os.bind (Os.print _) _) _ => apply os_hoare_bind_print
  | |- os_hoare (Os.bind (Os.ret _) _) _ => apply os_hoare_bind_ret
  | |- os_hoare (Os.bind (Os.raise _) _) _ => apply os_hoare_bind_raise
  | |- os_hoare (Os.bind (Os.try_except _ _ _) _) _ =>
      apply os_hoare_bind_wp
  | |- os_hoare (Os.bind (if ?b then _ else _) _) _ => owp_if b
  | |- os_hoare (Os.bind (match ?x with _ => _ end) _) _ => destruct x eqn:?
  | |- os_hoare (Os.try_except (Os.bind (Os.perform _) _) _ _) _ =>
      apply os_hoare_try_perform;
      let e := fresh "e" in
      intros [?|e]; [|destruct (Os.is_Exception e) eqn:?]
  | |- os_hoare (Os.try_except (Os.ret _) _ _) _ => apply os_hoare_try_ret
  | |- os_hoare (Os.ret _) _ => apply os_hoare_ret
  | |- os_hoare (Os.raise _) _ => apply os_hoare_raise
  | |- os_hoare (Os.perform _) _ => apply os_hoare_perform; intros ?
  | |- os_hoare (Os.print _) _ => apply os_hoare_print
  | |- os_hoare (if ?b then _ else _) _ => owp_if b
  | |- os_hoare (match ?x with _ => _ end) _ => destruct x eqn:?
  end.

Ltac owp := autounfold with os; repeat owp_step; cbv beta iota.

Ltac oleaf_step :=
  simpl; unfold not; repeat split; intros; try discriminate;
  repeat match goal with
         | H : Return _ = Return _ |- _ => injection H as <-
         | H : _ ∨ _ |- _ => destruct H
         | H : _ ∧ _ |- _ => destruct H
         | H : In _ _ |- _ => destruct H
         | H : False |- _ => destruct H
         end;
  simpl.

Ltac oleaf :=
  oleaf_step; oleaf_step; try discriminate; try congruence; eauto 8.

Section OsHelpers.
Context {S : Os.System}.

Lemma file_remove_hoare file :
  os_hoare (Os.file_remove file)
    (λ o t,
       (os_changes t = []
        ∨ (os_changes t = [Os.Remove file]
           ∧ os_asked t = [(Os.Exists file, true); (Os.IsFile file, true)]))
       ∧ (∀ b, o = Return b →
            if b
            then os_console t = []
                 ∧ (os_asked t = [(Os.Exists file, false)]
                    ∨ os_done t = [Os.Remove file])
            else (∃ l, os_console t = [Error l]) ∧ os_done t = [])).
Proof. owp. all: oleaf. Qed.

Lemma directory_remove_hoare directory :
  os_hoare (Os.directory_remove directory)
    (λ o t,
       (os_changes t = []
        ∨ (os_changes t = [Os.RmTree directory]
           ∧ os_asked t
             = [(Os.Exists directory, true); (Os.IsDir directory, true)]))
       ∧ (∀ b, o = Return b →
            if b
            then os_console t = []
                 ∧ (os_asked t = [(Os.Exists directory, false)]
                    ∨ os_done t = [Os.RmTree directory])
            else (∃ l, os_console t = [Error l]) ∧ os_done t = [])).
Proof. owp. all: oleaf. Qed.

Lemma directory_create_hoare directory :
  os_hoare (Os.directory_create directory)
    (λ o t,
       (os_changes t = []
        ∨ (os_changes t = [Os.MkDir directory]
           ∧ os_asked t = [(Os.Exists directory, false)]))
       ∧ (∀ b, o = Return b →
            if b
            then os_console t = []
                 ∧ (os_asked t = [(Os.Exists directory, true)]
                    ∨ os_done t = [Os.MkDir directory])
            else (∃ l, os_console t = [Error l]) ∧ os_done t = [])).
Proof. owp. all: oleaf. Qed.

Lemma file_copy_hoare source destination :
  os_hoare (Os.file_copy source destination)
    (λ o t,
       (os_changes t = [] ∨ os_changes t = [Os.Remove destination]
        ∨ os_changes t = [Os.CopyFile source destination]
        ∨ os_changes t
          = [Os.Remove destination; Os.CopyFile source destination])
       ∧ (os_changes t ≠ [] →
          head (os_asked t) = Some (Os.IsFile source, true))
       ∧ (In (Os.Remove destination) (os_changes t) →
          ∃ a, os_answers t = [a] ∧ Os.confirmed (Py.lower a) = true)
       ∧ (os_changes t = [Os.CopyFile source destination] →
          In (Os.Exists destination, false) (os_asked t))
       ∧ (∀ b, o = Return b →
            if b
            then os_console t = []
                 ∧ last (os_done t) = Some (Os.CopyFile source destination)
            else ¬ In (Os.CopyFile source destination) (os_done t)
                 ∧ ((∃ l, os_console t = [Error l])
                    ∨ (os_console t = [] ∧ os_changes t = []
                       ∧ ∃ a, os_answers t = [a]
                              ∧ Os.confirmed (Py.lower a) = false)))).
Proof.
  owp.
  all: oleaf.
Qed.

Lemma directory_copy_hoare source destination :
  os_hoare (Os.directory_copy source destination)
    (λ o t,
       (os_changes t = [] ∨ os_changes t = [Os.RmTree destination]
        ∨ os_changes t = [Os.CopyTree source destination]
        ∨ os_changes t
          = [Os.RmTree destination; Os.CopyTree source destination])
       ∧ (os_changes t ≠ [] →
          head (os_asked t) = Some (Os.IsDir source, true))
       ∧ (In (Os.RmTree destination) (os_changes t) →
          ∃ a, os_answers t = [a] ∧ Os.confirmed (Py.lower a) = true)
       ∧ (os_changes t = [Os.CopyTree source destination] →
          In (Os.Exists destination, false) (os_asked t))
       ∧ (∀ b, o = Return b →
            if b
            then os_console t = []
                 ∧ last (os_done t) = Some (Os.CopyTree source destination)
            else ¬ In (Os.CopyTree source destination) (os_done t)
                 ∧ ((∃ l, os_console t = [Error l])
                    ∨ (os_console t = [] ∧ os_changes t = []
                       ∧ ∃ a, os_answers t = [a]
                              ∧ Os.confirmed (Py.lower a) = false)))).
Proof.
  owp.
  all: oleaf.
Qed.

Lemma has_manifest_name_spec names :
  Os.has_manifest_name names = true
  ↔ ∃ n, In n names ∧ Py.lower n = "manifest.json".
Proof.
  unfold Os.has_manifest_name. rewrite existsb_exists. split.
  - intros (x & Hx & Heq). apply in_map_iff in Hx as (n & <- & Hn).
    apply String.eqb_eq in Heq. by exists n.
  - intros (n & Hn & Heq). exists (Py.lower n). split.
    + by apply in_map.
    + rewrite Heq. apply String.eqb_refl.
Qed.

Lemma directory_has_manifest_hoare directory :
  os_hoare (Os.directory_has_manifest directory)
    (λ o t,
       os_changes t = []
       ∧ (∀ b, o = Return b →
            if b
            then os_console t = []
                 ∧ ∃ names, os_listings t = [(directory, names)]
                            ∧ Os.has_manifest_name names = true
            else ∃ l, os_console t = [Error l])).
Proof.
  owp.
  all: oleaf.
Qed.

End OsHelpers.

(** ** The order of the directory names *)


Lemma string_compare_refl s : String.compare s s = Eq.
Proof.
  induction s as [|a s IH]; simpl; [done|].
  unfold Ascii.compare. by rewrite N.compare_refl.
Qed.


Lemma ltb_irrefl s : String.ltb s s = false.
Proof. unfold String.ltb. by rewrite string_compare_refl. Qed.



Lemma insert_descending_In x l n :
  In n (insert_descending x l) ↔ n = x ∨ In n l.
Proof.
  induction l as [|y l IH]; simpl; [intuition congruence|].
  destruct (String.ltb _ _); simpl; [rewrite IH|]; intuition congruence.
Qed.

Lemma sorted_descending_In l n : In n (sorted_descending l) ↔ In n l.
Proof.
  induction l as [|x l IH]; simpl; [done|].
  rewrite insert_descending_In, IH. intuition congruence.
Qed.



(** Names with the same key stay in the order of the listing. *)
Lemma sorted_descending_stable x y :
  Py.casefold x = Py.casefold y → sorted_descending [x; y] = [x; y].
Proof. intros H. simpl. by rewrite H, ltb_irrefl. Qed.

Section OsLocate.
Context {S : Os.System}.


Lemma directory_get_firefox_extension_hoare directory identifier :
  os_hoare (Os.directory_get_firefox_extension directory identifier)
    (λ o t,
       os_changes t = []
       ∧ (∀ x, o = Return x →
            (x = "" ∧ ∃ l, os_console t = [Error l])
            ∨ (os_console t = []
               ∧ ∃ names first,
                   os_listings t = [(directory, names)]
                   ∧ x = Os.path_join directory
                           [first; "extensions"; identifier]
                   ∧ In first names
                   ∧ ends_with ".default-release" first = true
                   ∧ In (Os.IsFile x, true) (os_asked t)))).
Proof.
  owp.
  all: oleaf.
  match goal with
  | H : List.filter _ _ = ?s :: _ |- _ =>
      assert (Hs : In s (List.filter (ends_with ".default-release")
                           (sorted_descending names)))
        by (rewrite H; by left);
      apply filter_In in Hs as [Hin He];
      apply (proj1 (sorted_descending_In _ _)) in Hin
  end.
  right. split; [done|]. eexists _, _. split_and!; try done. simpl. tauto.
Qed.

End OsLocate.

Ltac oclean_leaf :=
  unfold os_clean, os_propagated, os_errors, os_declined, os_answers;
  simpl; split;
  [ intros ? Hx Hg; try discriminate Hx;
    try (injection Hx as <-); simpl in *; try discriminate; try congruence;
    repeat match goal with
           | H : _ = true |- _ => rewrite H
           | H : _ = false |- _ => rewrite H
           end; simpl; try done
  | intros ? He; try discriminate He; injection He as <-;
    first [ left; eexists; reflexivity
          | right; left; reflexivity
          | right; right; reflexivity ] ].

Section OsClean.
Context {S : Os.System}.

Lemma directory_create_tmp_clean :
  os_hoare Os.directory_create_tmp (os_clean (λ _, true)).
Proof. owp. all: oclean_leaf. Qed.

Lemma directory_create_clean directory :
  os_hoare (Os.directory_create directory) (os_clean id).
Proof. owp. all: oclean_leaf. Qed.

Lemma directory_has_manifest_clean directory :
  os_hoare (Os.directory_has_manifest directory) (os_clean id).
Proof. owp. all: oclean_leaf. Qed.

Lemma directory_has_manifest_found directory d names :
  os_listings (Os.trace (Os.directory_has_manifest directory d))
  = [(directory, names)] →
  Os.has_manifest_name names = true →
  Os.outcome (Os.directory_has_manifest directory d) = Return true.
Proof.
  revert d.
  change (os_hoare (Os.directory_has_manifest directory)
            (λ o t, os_listings t = [(directory, names)] →
                    Os.has_manifest_name names = true → o = Return true)).
  owp.
  all: simpl; intros Hl Hm; try discriminate Hl; try done.
  all: injection Hl as ->; congruence.
Qed.

Lemma copy_extension_clean browser extension destination :
  os_hoare (Os.copy_extension browser extension destination) (os_clean id).
Proof. owp. all: oclean_leaf. Qed.

Lemma directory_get_browser_extension_clean browser identifier :
  os_hoare (Os.directory_get_browser_extension browser identifier)
    (os_clean Py.truthy).
Proof. owp. all: oclean_leaf. Qed.

End OsClean.

Section OsEnvironment.
Context {S : Os.System}.

Lemma directory_get_browser_extension_hoare browser identifier :
  os_hoare (Os.directory_get_browser_extension browser identifier)
    (λ o t,
       os_changes t = []
       ∧ (∀ x, o = Return x →
            let not_found :=
              Error ("Browser extension was not found, please pass it manually using the "
                     +:+ dquote +:+ "-e" +:+ dquote +:+ " option") in
            if Py.truthy x then os_console t = []
            else os_console t = [not_found]
                 ∨ ∃ l, os_console t = [Error l; not_found])).
Proof.
  owp.
  all: simpl; split; [done|]; intros x Hx; try discriminate Hx.
  all: injection Hx as <-.
  all: repeat match goal with
              | H : Py.truthy _ = _ |- _ => rewrite H
              | H : negb (Py.truthy _) = _ |- _ =>
                  apply negb_true_iff in H || apply negb_false_iff in H
              end; simpl; eauto.
Qed.

Lemma directory_remove_exit directory :
  os_hoare (Os.directory_remove directory)
    (λ o t, os_propagated o t ∧ removal directory t).
Proof.
  owp.
  all: unfold os_propagated, removal; simpl; split; [|by eauto].
  all: intros ? He; try discriminate He; injection He as <-.
  all: first [ left; eexists; reflexivity | right; left; reflexivity ].
Qed.

Lemma ends_removing_cons s x t :
  ends_removing s t → ends_removing s (x :: t).
Proof. intros (t1 & t2 & -> & H). by exists (x :: t1), t2. Qed.

Lemma ends_removing_app s t0 t :
  ends_removing s t → ends_removing s (t0 ++ t).
Proof.
  intros (t1 & t2 & -> & H). exists (t0 ++ t1), t2.
  by rewrite <- app_assoc.
Qed.

Lemma ends_removing_here s t :
  removal s t → ends_removing s (Os.Print (removing s) :: t).
Proof. intros H. by exists [], t. Qed.

End OsEnvironment.

(** Symbolic execution of [__get_environment], call by call. *)
Ltac ecall lem :=
  eapply os_hoare_bind;
  [ apply lem
  | let Hc := fresh "Hc" in let Hp := fresh "Hp" in intros ? ? [Hc Hp]
  | let Hc := fresh "Hc" in let Hp := fresh "Hp" in intros ? ? [Hc Hp] ].

Ltac estep :=
  cbv beta iota zeta;
  lazymatch goal with
  | |- os_hoare (Os.bind (Os.bind _ _) _) _ => apply os_hoare_assoc
  | |- os_hoare (Os.bind Os.directory_create_tmp _) _ =>
      ecall directory_create_tmp_clean
  | |- os_hoare (Os.bind (Os.directory_create _) _) _ =>
      ecall directory_create_clean
  | |- os_hoare (Os.bind (Os.directory_has_manifest _) _) _ =>
      ecall directory_has_manifest_clean
  | |- os_hoare (Os.bind (Os.copy_extension _ _ _) _) _ =>
      ecall copy_extension_clean
  | |- os_hoare (Os.bind (Os.directory_get_browser_extension _ _) _) _ =>
      ecall directory_get_browser_extension_clean
  | |- os_hoare (Os.bind (Os.directory_remove _) _) _ =>
      ecall directory_remove_exit
  | |- _ => owp_step
  end.

Lemma os_errors_app t1 t2 : os_errors (t1 ++ t2) = os_errors t1 ++ os_errors t2.
Proof. apply omap_app. Qed.

Lemma os_declined_app t1 t2 :
  os_declined (t1 ++ t2) = os_declined t1 ++ os_declined t2.
Proof.
  unfold os_declined, os_answers. by rewrite omap_app, List.filter_app.
Qed.

Lemma os_errors_call c r t : os_errors (Os.Call c r :: t) = os_errors t.
Proof. done. Qed.

Lemma os_errors_info l t : os_errors (Os.Print (Info l) :: t) = os_errors t.
Proof. done. Qed.

Lemma os_declined_print l t : os_declined (Os.Print l :: t) = os_declined t.
Proof. done. Qed.

Lemma os_declined_exists p r t :
  os_declined (Os.Call (Os.Exists p) r :: t) = os_declined t.
Proof. done. Qed.

Ltac eclean :=
  repeat match goal with
         | H : ∀ x, Return ?a = Return x → _ → _ ∧ _ |- _ =>
             first [ destruct (H a eq_refl eq_refl) as [? ?]; clear H
                   | destruct (H a eq_refl ltac:(assumption)) as [? ?];
                     clear H
                   | clear H ]
         end.

Ltac elast :=
  repeat first [ rewrite last_app | rewrite last_cons ];
  repeat match goal with H : last _ = Some _ |- _ => rewrite H end;
  simpl.

Ltac ereaders :=
  repeat first
    [ rewrite os_errors_app | rewrite os_errors_call | rewrite os_errors_info
    | rewrite os_declined_app | rewrite os_declined_exists
    | rewrite os_declined_print ];
  repeat match goal with
         | H : os_errors _ = [] |- _ => rewrite H
         | H : os_declined _ = [] |- _ => rewrite H
         end.

Ltac eleaf :=
  unfold environment_post, destination_name; cbn [fst snd];
  rewrite ?app_nil_r;
  repeat match goal with
         | H : (_ =? _)%string = _ |- _ => rewrite H
         end;
  split;
  [ intros ? ? Hx; try discriminate Hx; injection Hx as <- <-;
    eclean; ereaders;
    split_and!; try done;
    try (intros Hne;
         match goal with
         | H : Py.truthy ?s = false |- _ =>
             destruct s; [congruence|discriminate H]
         end)
  | intros ? He; try discriminate He; injection He as <-;
    first
      [ (* the exit *)
        right; right; right; split; [reflexivity|];
        eexists; split;
        [ |repeat first [ apply ends_removing_here; eassumption
                        | apply ends_removing_app
                        | apply ends_removing_cons ] ];
        first [ done
              | intros Hne;
                match goal with
                | H : Py.truthy ?s = false |- _ =>
                    destruct s; [congruence|discriminate H]
                end ]
      | (* an exception of a call *)
        match goal with
        | H : os_propagated (Raise ?e) _ |- _ =>
            destruct (H e eq_refl) as [[? ?]|[->| ->]];
            [ left; eexists; elast; reflexivity
            | right; left; reflexivity
            | right; right; left; reflexivity ]
        end
      | right; left; reflexivity
      | left; eexists; elast; reflexivity ] ].

Section OsEnvironment2.
Context {S : Os.System}.

Lemma get_environment_hoare browser session extension identifier destination :
  os_hoare
    (Os.__get_environment browser session extension identifier destination)
    (environment_post browser session destination).
Proof.
  unfold Os.__get_environment, Os.os_path_exists, Os.as_bool, Os.print_info,
    Os.exit.
  repeat estep.
  all: eleaf.
Qed.
End OsEnvironment2.


(** X15. [file_remove] and [directory_remove] delete only what they
    were told exists and is of the right kind: the one change they may
    request is the removal of their argument, after it was answered to
    exist and to be a file (a directory).  They return [True] without
    a line when nothing was there or the removal was carried out, and
    [False] with one error line, nothing removed, otherwise. *)
Theorem remove_helpers_guarded {S : Os.System} (path : string)
  (d : Os.Disk) :
  let r := Os.file_remove path d in
  let r' := Os.directory_remove path d in
  ((os_changes (Os.trace r) = []
    ∨ (os_changes (Os.trace r) = [Os.Remove path]
       ∧ os_asked (Os.trace r)
         = [(Os.Exists path, true); (Os.IsFile path, true)]))
   ∧ (∀ b, Os.outcome r = Return b →
        if b
        then os_console (Os.trace r) = []
             ∧ (os_asked (Os.trace r) = [(Os.Exists path, false)]
                ∨ os_done (Os.trace r) = [Os.Remove path])
        else (∃ l, os_console (Os.trace r) = [Error l])
             ∧ os_done (Os.trace r) = []))
  ∧ ((os_changes (Os.trace r') = []
      ∨ (os_changes (Os.trace r') = [Os.RmTree path]
         ∧ os_asked (Os.trace r')
           = [(Os.Exists path, true); (Os.IsDir path, true)]))
     ∧ (∀ b, Os.outcome r' = Return b →
          if b
          then os_console (Os.trace r') = []
               ∧ (os_asked (Os.trace r') = [(Os.Exists path, false)]
                  ∨ os_done (Os.trace r') = [Os.RmTree path])
          else (∃ l, os_console (Os.trace r') = [Error l])
               ∧ os_done (Os.trace r') = [])).
Proof.
  split; [exact (file_remove_hoare path d)
         |exact (directory_remove_hoare path d)].
Qed.

(** X16. [directory_create] requests the creation only after the path
    was answered not to exist; it returns [True] without a line when the
    path existed or the directory was created, and [False] with one
    error line, nothing created, when the creation failed. *)
Theorem directory_create_guarded {S : Os.System} (directory : string)
  (d : Os.Disk) :
  let r := Os.directory_create directory d in
  (os_changes (Os.trace r) = []
   ∨ (os_changes (Os.trace r) = [Os.MkDir directory]
      ∧ os_asked (Os.trace r) = [(Os.Exists directory, false)]))
  ∧ (∀ b, Os.outcome r = Return b →
       if b
       then os_console (Os.trace r) = []
            ∧ (os_asked (Os.trace r) = [(Os.Exists directory, true)]
               ∨ os_done (Os.trace r) = [Os.MkDir directory])
       else (∃ l, os_console (Os.trace r) = [Error l])
            ∧ os_done (Os.trace r) = []).
Proof. exact (directory_create_hoare directory d). Qed.

(** X17. [file_copy] never overwrites without a yes: the destination is
    removed only after the operator answered [yes] or [y], in any case
    of the letters, and the copy is requested without a removal only
    when the destination was answered not to exist.  Nothing is changed
    unless the source was answered to be a file.  It returns [True]
    exactly after a copy that was carried out, with no line printed; it
    returns [False] with one error line, or with none when the operator
    declined, in which case it has requested no change. *)
Theorem file_copy_asks_before_overwrite {S : Os.System}
  (source destination : string) (d : Os.Disk) :
  let r := Os.file_copy source destination d in
  let t := Os.trace r in
  (os_changes t = [] ∨ os_changes t = [Os.Remove destination]
   ∨ os_changes t = [Os.CopyFile source destination]
   ∨ os_changes t = [Os.Remove destination; Os.CopyFile source destination])
  ∧ (os_changes t ≠ [] → head (os_asked t) = Some (Os.IsFile source, true))
  ∧ (In (Os.Remove destination) (os_changes t) →
     ∃ a, os_answers t = [a] ∧ Os.confirmed (Py.lower a) = true)
  ∧ (os_changes t = [Os.CopyFile source destination] →
     In (Os.Exists destination, false) (os_asked t))
  ∧ (∀ b, Os.outcome r = Return b →
       if b
       then os_console t = []
            ∧ last (os_done t) = Some (Os.CopyFile source destination)
       else ¬ In (Os.CopyFile source destination) (os_done t)
            ∧ ((∃ l, os_console t = [Error l])
               ∨ (os_console t = [] ∧ os_changes t = []
                  ∧ ∃ a, os_answers t = [a]
                         ∧ Os.confirmed (Py.lower a) = false))).
Proof. exact (file_copy_hoare source destination d). Qed.

Lemma file_copy_asks_before_overwrite_witness :
  let no := @Os.file_copy disk_system "a.txt" "b.txt" (sample_disk "N") in
  let yes := @Os.file_copy disk_system "a.txt" "b.txt" (sample_disk "Yes") in
  (Os.outcome no = Return false ∧ os_changes (Os.trace no) = []
   ∧ os_console (Os.trace no) = [])
  ∧ (Os.outcome yes = Return true
     ∧ os_done (Os.trace yes)
       = [Os.Remove "b.txt"; Os.CopyFile "a.txt" "b.txt"]).
Proof.
  pose proof (@file_copy_asks_before_overwrite disk_system "a.txt" "b.txt"
                (sample_disk "N")) as (_ & _ & _ & _ & Hno).
  split.
  - assert (Ho : Os.outcome (@Os.file_copy disk_system "a.txt" "b.txt"
                               (sample_disk "N")) = Return false)
      by (vm_compute; reflexivity).
    destruct (Hno false Ho) as [_ [[l Hl]|(Hc & Hch & _)]].
    + vm_compute in Hl. discriminate Hl.
    + by split_and!.
  - split; vm_compute; reflexivity.
Defined.

(** X18. [directory_copy] never overwrites without a yes, in the same
    way: the destination tree is removed only after the operator
    answered [yes] or [y], the copy is requested without a removal only
    when the destination was answered not to exist, and a run that
    returns [False] without an error line was declined and has changed
    nothing. *)
Theorem directory_copy_asks_before_overwrite {S : Os.System}
  (source destination : string) (d : Os.Disk) :
  let r := Os.directory_copy source destination d in
  let t := Os.trace r in
  (os_changes t = [] ∨ os_changes t = [Os.RmTree destination]
   ∨ os_changes t = [Os.CopyTree source destination]
   ∨ os_changes t = [Os.RmTree destination; Os.CopyTree source destination])
  ∧ (os_changes t ≠ [] → head (os_asked t) = Some (Os.IsDir source, true))
  ∧ (In (Os.RmTree destination) (os_changes t) →
     ∃ a, os_answers t = [a] ∧ Os.confirmed (Py.lower a) = true)
  ∧ (os_changes t = [Os.CopyTree source destination] →
     In (Os.Exists destination, false) (os_asked t))
  ∧ (∀ b, Os.outcome r = Return b →
       if b
       then os_console t = []
            ∧ last (os_done t) = Some (Os.CopyTree source destination)
       else ¬ In (Os.CopyTree source destination) (os_done t)
            ∧ ((∃ l, os_console t = [Error l])
               ∨ (os_console t = [] ∧ os_changes t = []
                  ∧ ∃ a, os_answers t = [a]
                         ∧ Os.confirmed (Py.lower a) = false))).
Proof. exact (directory_copy_hoare source destination d). Qed.

(** X19. [directory_has_manifest] changes nothing, and returns [True],
    without a line, exactly when the directory lists a name that is
    [manifest.json] once put in lower case; it returns [False] with one
    error line. *)
Theorem directory_has_manifest_any_case {S : Os.System} (directory : string)
  (d : Os.Disk) :
  let r := Os.directory_has_manifest directory d in
  os_changes (Os.trace r) = []
  ∧ (∀ b, Os.outcome r = Return b →
       if b
       then os_console (Os.trace r) = []
            ∧ ∃ names n, os_listings (Os.trace r) = [(directory, names)]
                         ∧ In n names ∧ Py.lower n = "manifest.json"
       else ∃ l, os_console (Os.trace r) = [Error l])
  ∧ (∀ names, os_listings (Os.trace r) = [(directory, names)] →
       (∃ n, In n names ∧ Py.lower n = "manifest.json") →
       Os.outcome r = Return true).
Proof.
  intros r.
  destruct (directory_has_manifest_hoare directory d) as [Hc Hr].
  split_and!; [exact Hc| |].
  - intros [] Hb; specialize (Hr _ Hb); [|exact Hr].
    destruct Hr as (Hcon & names & Hl & Hm).
    apply has_manifest_name_spec in Hm as (n & Hn & Hm).
    split; [done|]. by exists names, n.
  - intros names Hl Hn. apply has_manifest_name_spec in Hn.
    exact (directory_has_manifest_found directory d names Hl Hn).
Qed.

Lemma directory_has_manifest_any_case_witness :
  Os.outcome (@Os.directory_has_manifest disk_system "dist" (sample_disk ""))
  = Return true.
Proof.
  destruct (@directory_has_manifest_any_case disk_system "dist"
              (sample_disk "")) as (_ & _ & H).
  apply (H ["background.js"; "Manifest.JSON"]); [vm_compute; reflexivity|].
  exists "Manifest.JSON". split; [simpl; tauto|vm_compute; reflexivity].
Defined.




(** X21. [directory_get_firefox_extension] changes nothing.  When it
    returns a path with nothing printed, the path joins the directory,
    one of the names listed in it that ends with [.default-release],
    [extensions] and the identifier, and the path was answered to be a
    file; otherwise it returns the empty string after one error line. *)
Theorem firefox_extension_in_release_profile {S : Os.System}
  (directory identifier : string) (d : Os.Disk) :
  let r := Os.directory_get_firefox_extension directory identifier d in
  let t := Os.trace r in
  os_changes t = []
  ∧ (∀ x, Os.outcome r = Return x →
       (x = "" ∧ ∃ l, os_console t = [Error l])
       ∨ (os_console t = []
          ∧ ∃ names first,
              os_listings t = [(directory, names)]
              ∧ x = Os.path_join directory [first; "extensions"; identifier]
              ∧ In first names
              ∧ ends_with ".default-release" first = true
              ∧ In (Os.IsFile x, true) (os_asked t))).
Proof. exact (directory_get_firefox_extension_hoare directory identifier d). Qed.

(** X22. [directory_get_browser_extension] only looks: it changes
    nothing on the disk.  When it returns a path, nothing was printed;
    when it returns the empty string, the last line printed is the
    request to pass the extension with [-e], after at most one other
    error line. *)
Theorem browser_extension_lookup_read_only {S : Os.System}
  (browser identifier : string) (d : Os.Disk) :
  let r := Os.directory_get_browser_extension browser identifier d in
  let t := Os.trace r in
  let not_found :=
    Error ("Browser extension was not found, please pass it manually using the "
           +:+ dquote +:+ "-e" +:+ dquote +:+ " option") in
  os_changes t = []
  ∧ (∀ x, Os.outcome r = Return x →
       if Py.truthy x then os_console t = []
       else os_console t = [not_found]
            ∨ ∃ l, os_console t = [Error l; not_found]).
Proof. exact (directory_get_browser_extension_hoare browser identifier d). Qed.

Lemma browser_extension_lookup_read_only_witness :
  let r := @Os.directory_get_browser_extension disk_system "chromium" "id"
             (sample_disk "") in
  Os.outcome r
  = Return "/home/user/.config/google-chrome/Default/Extensions/id/9.0.0_0"
  ∧ os_console (Os.trace r) = [].
Proof.
  assert (Ho : Os.outcome
                 (@Os.directory_get_browser_extension disk_system "chromium"
                    "id" (sample_disk ""))
               = Return "/home/user/.config/google-chrome/Default/Extensions/id/9.0.0_0")
    by (vm_compute; reflexivity).
  destruct (@browser_extension_lookup_read_only disk_system "chromium" "id"
              (sample_disk "")) as [_ H].
  split; [exact Ho|]. exact (H _ Ho).
Defined.

(** X23. [Test.__get_environment] returns only from a run that printed
    no error line and in which the operator declined nothing; it then
    returns the session directory, the one passed when one was passed,
    and the path of the extension inside it.  Every other run ends with
    an exception: one raised by its last request, the [TypeError] of an
    ill-typed answer, the [KeyError] of an unknown system or browser, or
    the exit, which comes only after the line that announces the removal
    of the session directory and a run of [directory_remove] on it.  So
    a failed or declined copy removes the session directory, also one
    that existed before. *)
Theorem get_environment_returns_clean_or_exits {S : Os.System}
  (browser session extension identifier destination : string)
  (d : Os.Disk) :
  let r := Os.__get_environment browser session extension identifier
             destination d in
  let t := Os.trace r in
  (∀ s dst, Os.outcome r = Return (s, dst) →
     os_errors t = [] ∧ os_declined t = []
     ∧ dst = Os.path_join s [destination_name browser destination]
     ∧ (session ≠ "" → s = session))
  ∧ (∀ e, Os.outcome r = Raise e →
       (∃ c, last t = Some (Os.Call c (Raise e)))
       ∨ e = TypeError ∨ e = OtherError "KeyError"
       ∨ (e = OtherError "SystemExit"
          ∧ ∃ s, (session ≠ "" → s = session) ∧ ends_removing s t)).
Proof.
  exact (get_environment_hoare browser session extension identifier
           destination d).
Qed.

Lemma get_environment_returns_clean_or_exits_witness :
  let r := @Os.__get_environment disk_system "chromium" "session" "dist" "id"
             "browser_extension" (sample_disk "N") in
  Os.outcome r = Raise (OtherError "SystemExit")
  ∧ ends_removing "session" (Os.trace r)
  ∧ os_done (Os.trace r) = [Os.RmTree "session"]
  ∧ d_files (Os.final r) = ["a.txt"; "b.txt"].
Proof.
  assert (Ho : Os.outcome
                 (@Os.__get_environment disk_system "chromium" "session"
                    "dist" "id" "browser_extension" (sample_disk "N"))
               = Raise (OtherError "SystemExit"))
    by (vm_compute; reflexivity).
  destruct (@get_environment_returns_clean_or_exits disk_system "chromium"
              "session" "dist" "id" "browser_extension" (sample_disk "N"))
    as [_ H].
  destruct (H _ Ho) as [[c Hc]|[He|[He|(_ & s & Hs & Hr)]]].
  - vm_compute in Hc. discriminate Hc.
  - discriminate He.
  - discriminate He.
  - assert (Heq : s = "session") by (apply Hs; discriminate).
    subst s.
    split_and!; [exact Ho|exact Hr|vm_compute; reflexivity
                |vm_compute; reflexivity].
Defined.

